(** * Orchestration core of the build tool: plugin pipeline, hook scheduling,
      transform-directive resolution and build-session bookkeeping.

    Shallow embedding of
      - [packages/vite/src/node/plugins/index.ts]
        ([resolvePlugins], [getSortedPluginsByHook], [getHookHandler]),
      - [packages/vite/src/node/plugins/oxc.ts] in its two revisions
        ([transformWithOxc], [convertEsbuildConfigToOxcConfig]),
      - [packages/vite/src/node/build/index.ts]
        ([resolveBuildOptions], [build]).

    JavaScript objects used as dictionaries are finite maps ([gmap]), arrays
    are lists, [undefined] is [None], thrown errors are a sum type, calls to
    external collaborators are recorded in an event trace. *)

From Stdlib Require Import ZArith String Ascii List Permutation Lia.
From stdpp Require Import gmap strings list fin_maps sorting pretty.

Local Open Scope string_scope.
Local Open Scope list_scope.
Local Open Scope nat_scope.

(** ** 1. Hook scheduler ([plugins/index.ts], [getSortedPluginsByHook]) *)

Module HookScheduler.

(** A handler is an opaque function value; only its identity matters. *)
Definition Handler := nat.

(** The value found under a hook name of a plugin object.  A missing
    property ([undefined]) is the [None] of the map lookup. *)
Inductive HookValue :=
| HookNull                                    (* null *)
| HookFalsy                                   (* false, 0, '' *)
| HookFunction (handler : Handler)            (* typeof hook === 'function' *)
| HookObject (order : option string) (handler : option Handler).
                                              (* typeof hook === 'object';
                                                 [None]: the object has no
                                                 [handler], or a falsy one *)

Record Plugin := mkPlugin {
  name : string;
  hooks : gmap string HookValue
}.

(** [plugin[hookName]] *)
Definition get_hook (plugin : Plugin) (hookName : string) : option HookValue :=
  hooks plugin !! hookName.

(** [if (hook)] *)
Definition truthy (hook : option HookValue) : bool :=
  match hook with
  | None | Some HookNull | Some HookFalsy => false
  | Some (HookFunction _) | Some (HookObject _ _) => true
  end.

(** [typeof hook === 'object'] on a truthy value *)
Definition is_object (hook : option HookValue) : bool :=
  match hook with
  | Some (HookObject _ _) => true
  | _ => false
  end.

(** [hook.order === tag] *)
Definition order_is (hook : option HookValue) (tag : string) : bool :=
  match hook with
  | Some (HookObject (Some o) _) => bool_decide (o = tag)
  | _ => false
  end.

(** [arr.splice(start, 0, item)]: the start index is clamped to the length. *)
Definition splice {A} (arr : list A) (start : nat) (item : A) : list A :=
  take start arr ++ item :: drop start arr.

Record LoopState := mkLoop {
  sortedPlugins : list Plugin;
  pre : nat;
  normal : nat;
  post : nat
}.

Definition loop_init : LoopState := mkLoop [] 0 0 0.

(** One iteration of [for (const plugin of plugins)]. *)
Definition loop_body (hookName : string) (st : LoopState) (plugin : Plugin)
  : LoopState :=
  let hook := get_hook plugin hookName in
  if truthy hook then
    if is_object hook && order_is hook "pre" then
      mkLoop (splice (sortedPlugins st) (pre st) plugin)
             (S (pre st)) (normal st) (post st)
    else if is_object hook && order_is hook "post" then
      mkLoop (splice (sortedPlugins st) (pre st + normal st + post st) plugin)
             (pre st) (normal st) (S (post st))
    else
      mkLoop (splice (sortedPlugins st) (pre st + normal st) plugin)
             (pre st) (S (normal st)) (post st)
  else st.

Definition getSortedPluginsByHook (hookName : string) (plugins : list Plugin)
  : list Plugin :=
  sortedPlugins (foldl (loop_body hookName) loop_init plugins).

(** Reading a property of [null] throws a [TypeError]. *)
Inductive Thrown := TypeError.

(** [getHookHandler]: [typeof hook === 'object' ? hook.handler : hook].
    [typeof null] is ['object'], so [null] has its [handler] read, which
    throws.  A result that is not a handler (a falsy hook handed back, a
    missing [handler]) is [None]. *)
Definition getHookHandler (hook : option HookValue) : Thrown + option Handler :=
  match hook with
  | Some HookNull => inl TypeError
  | Some (HookObject _ handler) => inr handler
  | Some (HookFunction handler) => inr (Some handler)
  | Some HookFalsy | None => inr None
  end.

(** *** Reference: the three-buffer stable partition of the specification *)

Inductive Tier := TierPre | TierNormal | TierPost.

Global Instance Tier_eq_dec : EqDecision Tier.
Proof. solve_decision. Defined.

(** The tier of a plugin for a hook, [None] when the plugin does not
    implement the hook. *)
Definition tier_of (hookName : string) (plugin : Plugin) : option Tier :=
  match get_hook plugin hookName with
  | None | Some HookNull | Some HookFalsy => None
  | Some (HookFunction _) => Some TierNormal
  | Some (HookObject o _) =>
      if bool_decide (o = Some "pre") then Some TierPre
      else if bool_decide (o = Some "post") then Some TierPost
      else Some TierNormal
  end.

Definition in_tier (hookName : string) (t : Tier) (plugin : Plugin) : Prop :=
  tier_of hookName plugin = Some t.

Definition implements (hookName : string) (plugin : Plugin) : Prop :=
  truthy (get_hook plugin hookName) = true.

Global Instance in_tier_dec h t p : Decision (in_tier h t p).
Proof. unfold in_tier. apply _. Defined.

Global Instance implements_dec h p : Decision (implements h p).
Proof. unfold implements. apply _. Defined.

Definition rank (t : option Tier) : nat :=
  match t with
  | Some TierPre => 0
  | Some TierNormal => 1
  | Some TierPost => 2
  | None => 3
  end.

Record Buffers := mkBuffers {
  buf_pre : list Plugin;
  buf_normal : list Plugin;
  buf_post : list Plugin
}.

(** Push the plugin at the end of the buffer of its tier. *)
Definition push_buffer (hookName : string) (b : Buffers) (plugin : Plugin)
  : Buffers :=
  match tier_of hookName plugin with
  | Some TierPre => mkBuffers (buf_pre b ++ [plugin]) (buf_normal b) (buf_post b)
  | Some TierNormal => mkBuffers (buf_pre b) (buf_normal b ++ [plugin]) (buf_post b)
  | Some TierPost => mkBuffers (buf_pre b) (buf_normal b) (buf_post b ++ [plugin])
  | None => b
  end.

Definition three_buffer_partition (hookName : string) (plugins : list Plugin)
  : list Plugin :=
  let b := foldl (push_buffer hookName) (mkBuffers [] [] []) plugins in
  buf_pre b ++ buf_normal b ++ buf_post b.

(** The loop state represents three adjacent segments of the output. *)
Definition represents (st : LoopState) (b : Buffers) : Prop :=
  sortedPlugins st = buf_pre b ++ buf_normal b ++ buf_post b
  ∧ pre st = length (buf_pre b)
  ∧ normal st = length (buf_normal b)
  ∧ post st = length (buf_post b).

Definition tier_le (hookName : string) (p q : Plugin) : Prop :=
  rank (tier_of hookName p) ≤ rank (tier_of hookName q).

(** Eight plugins, six of them implementing [transform]. *)
Definition sample_plugin (n : string) (hook : HookValue) : Plugin :=
  mkPlugin n {[ "transform" := hook ]}.

Definition sample_plugins : list Plugin :=
  [ sample_plugin "a" (HookObject None (Some 1));
    sample_plugin "b" (HookObject (Some "post") (Some 2));
    sample_plugin "c" (HookObject (Some "pre") (Some 3));
    mkPlugin "d" {[ "load" := HookFunction 4 ]};
    sample_plugin "e" (HookFunction 5);
    sample_plugin "f" (HookObject (Some "pre") (Some 6));
    sample_plugin "g" HookFalsy;
    sample_plugin "h" (HookObject (Some "post") (Some 8)) ].

End HookScheduler.

(** ** 2. Build options ([build/index.ts], [resolveBuildOptions]) *)

Module BuildOptions.

(** Values stored in an options object.  Objects ([terserOptions],
    [rollupOptions]) are opaque references without string methods. *)
Inductive JsValue :=
| VUndefined
| VBool (b : bool)
| VNum (n : Z)
| VStr (s : string)
| VEmptyObject                 (* the literal [{}] *)
| VObject (ref : nat).

Global Instance JsValue_eq_dec : EqDecision JsValue.
Proof. solve_decision. Defined.

Inductive Completion (A : Type) :=
| Return (a : A)
| ThrowTypeError.
Arguments Return {A} a.
Arguments ThrowTypeError {A}.

(** The object literal of defaults that [...raw] is spread over. *)
Definition defaults : gmap string JsValue :=
  list_to_map
    [ ("entry", VStr "index.html");
      ("base", VStr "/");
      ("outDir", VStr "dist");
      ("assetsDir", VStr "assets");
      ("assetsInlineLimit", VNum 4096);
      ("cssCodeSplit", VBool true);
      ("sourcemap", VBool false);
      ("minify", VStr "terser");
      ("terserOptions", VEmptyObject);
      ("ssr", VBool false);
      ("rollupOptions", VEmptyObject);
      ("write", VBool true);
      ("emitIndex", VBool true);
      ("emitAssets", VBool true);
      ("emitManifest", VBool false) ].

(** [s.replace(/([^/])$/, '$1/')]: the pattern can only match the last
    character, and does so when that character is not a slash; the
    replacement is that character followed by a slash. *)
Fixpoint replace_last_non_slash (s : string) : string :=
  match s with
  | EmptyString => EmptyString
  | String c EmptyString =>
      if Ascii.eqb c "/" then String c EmptyString
      else String c (String "/" EmptyString)
  | String c rest => String c (replace_last_non_slash rest)
  end.

(** [{ ...defaults, ...raw }]: own properties of [raw] (also those holding
    [undefined]) override the defaults; spreading [undefined] adds nothing. *)
Definition spread_over_defaults (raw : option (gmap string JsValue))
  : gmap string JsValue :=
  default ∅ raw ∪ defaults.

Definition resolveBuildOptions (raw : option (gmap string JsValue))
  : Completion (gmap string JsValue) :=
  let resolved := spread_over_defaults raw in
  match resolved !! "base" with
  | Some (VStr base) =>
      Return (<["base" := VStr (replace_last_non_slash base)]> resolved)
  | _ => ThrowTypeError     (* [.replace] on a value that is not a string *)
  end.

Definition ends_with_slash (s : string) : Prop :=
  ∃ stem, s = stem +:+ "/".

(** The string ends with a slash that no other slash precedes. *)
Definition ends_with_exactly_one_slash (s : string) : Prop :=
  ∃ stem, s = stem +:+ "/" ∧ ¬ ends_with_slash stem.

Fixpoint last_char (s : string) : option ascii :=
  match s with
  | EmptyString => None
  | String c EmptyString => Some c
  | String _ rest => last_char rest
  end.

(** The reading of the base-path sentence of the specification: whatever
    the options, the resolved base ends with exactly one slash. *)
Definition base_ends_with_exactly_one_slash_always : Prop :=
  ∀ raw resolved,
    resolveBuildOptions raw = Return resolved →
    ∃ base, resolved !! "base" = Some (VStr base)
            ∧ ends_with_exactly_one_slash base.

Definition sample_app : option (gmap string JsValue) :=
  Some {[ "base" := VStr "/app" ]}.
Definition sample_app_slash : option (gmap string JsValue) :=
  Some {[ "base" := VStr "/app/" ]}.
Definition sample_double_slash : option (gmap string JsValue) :=
  Some {[ "base" := VStr "/app//" ]}.
Definition sample_raw : option (gmap string JsValue) :=
  Some (<[ "outDir" := VStr "out" ]> (<[ "minify" := VBool false ]>
        {[ "base" := VStr "/app" ]})).

End BuildOptions.

(** ** 3. Build session ([build/index.ts], [build] and [doBuild])

    The module-level variables [parallelCallCounts] and [paralellBuilds] are
    shared by all invocations of [build].  Invocations are asynchronous and
    cooperatively scheduled: each runs without interruption from one [await]
    to the next, so an interleaving is a sequence of such atomic segments. *)

Module BuildSession.

Definition Handle := nat.        (* a [RollupBuild] *)
Definition Invocation := nat.    (* identity of one call of [build] *)

(** Where an invocation that has entered [build] is suspended. *)
Inductive Phase :=
| AwaitConfig              (* [await resolveConfig(...)] in [doBuild] *)
| AwaitRollup              (* [await rollup.rollup(...)] *)
| AwaitOutput              (* [await bundle.write / generate] *)
| Settled (ok : bool).     (* [doBuild] returned or threw; [finally] pending *)

Global Instance Phase_eq_dec : EqDecision Phase.
Proof. solve_decision. Defined.

Record State := mkState {
  parallelCallCounts : Z;
  paralellBuilds : list Handle;
  running : gmap Invocation Phase;   (* invocations between entry and exit *)
  closed : list Handle;              (* calls of [bundle.close()], in order *)
  clears : nat                       (* executions of [paralellBuilds.length = 0] *)
}.

Definition init : State := mkState 0 [] ∅ [] 0.

Inductive Action :=
| Call (i : Invocation)                           (* [build(...)] is called *)
| ConfigResolved (i : Invocation)
| ConfigRejected (i : Invocation)
| RollupResolved (i : Invocation) (bundle : Handle)
| RollupRejected (i : Invocation)
| OutputResolved (i : Invocation)
| OutputRejected (i : Invocation)
| Finally (i : Invocation).                       (* the [finally] block *)

Definition set_phase (s : State) (i : Invocation) (ph : Phase) : State :=
  mkState (parallelCallCounts s) (paralellBuilds s) (<[i := ph]> (running s))
          (closed s) (clears s).

(** Move invocation [i] from phase [from] to phase [to]. *)
Definition advance (s : State) (i : Invocation) (from to : Phase)
  : option State :=
  match running s !! i with
  | Some ph => if decide (ph = from) then Some (set_phase s i to) else None
  | None => None
  end.

(** The body of [finally]: decrement, and at zero close and clear. *)
Definition finally_block (s : State) (i : Invocation) : State :=
  let count := (parallelCallCounts s - 1)%Z in
  if (count <=? 0)%Z then
    mkState count [] (delete i (running s))
            (closed s ++ paralellBuilds s) (S (clears s))
  else
    mkState count (paralellBuilds s) (delete i (running s))
            (closed s) (clears s).

Definition step (s : State) (a : Action) : option State :=
  match a with
  | Call i =>
      match running s !! i with
      | None =>
          Some (mkState (parallelCallCounts s + 1)%Z (paralellBuilds s)
                        (<[i := AwaitConfig]> (running s))
                        (closed s) (clears s))
      | Some _ => None
      end
  | ConfigResolved i => advance s i AwaitConfig AwaitRollup
  | ConfigRejected i => advance s i AwaitConfig (Settled false)
  | RollupResolved i bundle =>
      s' ← advance s i AwaitRollup AwaitOutput;
      Some (mkState (parallelCallCounts s') (paralellBuilds s' ++ [bundle])
                    (running s') (closed s') (clears s'))
  | RollupRejected i => advance s i AwaitRollup (Settled false)
  | OutputResolved i => advance s i AwaitOutput (Settled true)
  | OutputRejected i => advance s i AwaitOutput (Settled false)
  | Finally i =>
      match running s !! i with
      | Some (Settled _) => Some (finally_block s i)
      | _ => None
      end
  end.

(** The states visited by a schedule, [None] when some action is not
    enabled where it is scheduled. *)
Fixpoint exec (s : State) (schedule : list Action) : option (list State) :=
  match schedule with
  | [] => Some []
  | a :: rest =>
      s' ← step s a;
      states ← exec s' rest;
      Some (s' :: states)
  end.

Definition final (s : State) (states : list State) : State :=
  default s (last states).

(** Handles registered by a schedule, in registration order. *)
Fixpoint pushed (schedule : list Action) : list Handle :=
  match schedule with
  | [] => []
  | RollupResolved _ bundle :: rest => bundle :: pushed rest
  | _ :: rest => pushed rest
  end.

(** Number of times a history of counter values comes back to zero from
    above zero; [prev] is the value before the history starts. *)
Fixpoint returns_to_zero (prev : Z) (history : list Z) : nat :=
  match history with
  | [] => 0
  | c :: rest =>
      (if (0 <? prev)%Z && (c =? 0)%Z then 1 else 0) + returns_to_zero c rest
  end.

Definition is_call (a : Action) : bool :=
  match a with Call _ => true | _ => false end.
Definition is_finally (a : Action) : bool :=
  match a with Finally _ => true | _ => false end.

(** Invariant of the reachable states. *)
Definition consistent (s : State) : Prop :=
  parallelCallCounts s = Z.of_nat (size (running s))
  ∧ (parallelCallCounts s = 0%Z → paralellBuilds s = []).

(** Two overlapping builds, the first one failing while loading its
    configuration, followed by a third build on its own. *)
Definition sample_schedule : list Action :=
  [ Call 1; Call 2; ConfigRejected 1; ConfigResolved 2; Finally 1;
    RollupResolved 2 7; OutputResolved 2; Finally 2;
    Call 3; ConfigResolved 3; RollupResolved 3 8; OutputRejected 3; Finally 3 ].

Definition sample_states : list State :=
  default [] (exec init sample_schedule).

End BuildSession.

(** ** 4. Pipeline assembler ([plugins/index.ts], [resolvePlugins]) *)

Module Pipeline.

(** [config.build.modulePreload]: [false] or an options object. *)
Inductive ModulePreload :=
| ModulePreloadFalse
| ModulePreloadOptions (polyfill : bool).

(** The fields of the resolved configuration that [resolvePlugins] and
    [transformWithOxc] read.
    [isDepsOptimizerEnabled (config, ssr)] is a function of the
    configuration and is kept as a field. *)
Record ResolvedConfig := mkConfig {
  root : string;
  command : string;
  isWorker : bool;
  modulePreload : ModulePreload;        (* config.build.modulePreload *)
  ssr : bool;                           (* truthiness of config.build.ssr *)
  enableNativePlugin : bool;            (* config.experimental.enableNativePlugin *)
  esbuild : bool;                       (* config.esbuild !== false *)
  isDepsOptimizerEnabled : bool → bool
}.

(** The plugin objects made by the factories that [resolvePlugins] calls,
    named after their factory, with the arguments that are not the
    configuration itself. *)
Inductive BuiltIn :=
| optimizedDepsPlugin
| metadataPlugin
| watchPackageDataPlugin
| preAliasPlugin
| nativeAliasPlugin
| aliasPlugin
| nativeModulePreloadPolyfillPlugin (skip : bool)
| modulePreloadPolyfillPlugin
| resolvePlugin (isBuild : bool)
| htmlInlineProxyPlugin
| cssPlugin
| nativeTransformPlugin
| esbuildPlugin
| nativeJsonPlugin (isBuild : bool)
| jsonPlugin (isBuild : bool)
| nativeWasmHelperPlugin
| wasmHelperPlugin
| webWorkerPlugin
| assetPlugin
| nativeWasmFallbackPlugin
| wasmFallbackPlugin
| definePlugin
| cssPostPlugin
| buildHtmlPlugin
| workerImportMetaUrlPlugin
| assetImportMetaUrlPlugin
| nativeDynamicImportVarsPlugin
| dynamicImportVarsPlugin
| nativeImportGlobPlugin
| importGlobPlugin
| clientInjectionsPlugin
| cssAnalysisPlugin
| importAnalysisPlugin.

(** An entry of the list is an object made during this call or an object
    handed in (by the caller, or by the build-plugin provider).  Objects
    made during the call are new: they are none of the objects handed in. *)
Inductive Plugin :=
| Made (b : BuiltIn)
| Supplied (p : HookScheduler.Plugin).

(** An array element before [.filter(Boolean)]: a plugin, or
    [null] / [false]. *)
Definition Slot := option Plugin.

Definition made (b : BuiltIn) : Slot := Some (Made b).
Definition spread (ps : list HookScheduler.Plugin) : list Slot :=
  (λ p, Some (Supplied p)) <$> ps.

(** [.filter(Boolean)] *)
Definition filter_Boolean (slots : list Slot) : list Plugin := omap id slots.

(** The three server-only stages, in template order. *)
Definition server_only_trio : list Plugin :=
  [ Made clientInjectionsPlugin; Made cssAnalysisPlugin;
    Made importAnalysisPlugin ].

Definition server_only (p : Plugin) : bool :=
  match p with
  | Made clientInjectionsPlugin | Made cssAnalysisPlugin
  | Made importAnalysisPlugin => true
  | _ => false
  end.

(** The array literal up to and including [...buildPlugins.post]. *)
Definition template_head
    (config : ResolvedConfig)
    (buildPlugins : list HookScheduler.Plugin * list HookScheduler.Plugin)
    (prePlugins normalPlugins postPlugins : list HookScheduler.Plugin)
  : list Slot :=
  let isBuild := bool_decide (command config = "build") in
  let native := enableNativePlugin config in
  let depsOptimizerEnabled :=
    negb isBuild
    && (isDepsOptimizerEnabled config false || isDepsOptimizerEnabled config true) in
  [ if depsOptimizerEnabled then made optimizedDepsPlugin else None;
    if isBuild then made metadataPlugin else None;
    if negb (isWorker config) then made watchPackageDataPlugin else None;
    if negb isBuild then made preAliasPlugin else None;
    if native then made nativeAliasPlugin else made aliasPlugin ]
  ++ spread prePlugins
  ++ [ match modulePreload config with
       | ModulePreloadOptions true =>
           if native
           then made (nativeModulePreloadPolyfillPlugin
                        (negb isBuild || ssr config))
           else made modulePreloadPolyfillPlugin
       | _ => None
       end;
       made (resolvePlugin isBuild);
       made htmlInlineProxyPlugin;
       made cssPlugin;
       if esbuild config
       then (if native then made nativeTransformPlugin else made esbuildPlugin)
       else None;
       if native then made (nativeJsonPlugin isBuild) else made (jsonPlugin isBuild);
       if native then made nativeWasmHelperPlugin else made wasmHelperPlugin;
       made webWorkerPlugin;
       made assetPlugin ]
  ++ spread normalPlugins
  ++ [ if native then made nativeWasmFallbackPlugin else made wasmFallbackPlugin;
       made definePlugin;
       made cssPostPlugin;
       if isBuild then made buildHtmlPlugin else None;
       made workerImportMetaUrlPlugin;
       made assetImportMetaUrlPlugin ]
  ++ spread (fst buildPlugins)
  ++ [ if native then made nativeDynamicImportVarsPlugin
       else made dynamicImportVarsPlugin;
       if native then made nativeImportGlobPlugin else made importGlobPlugin ]
  ++ spread postPlugins
  ++ spread (snd buildPlugins).

(** [resolveBuildPlugins] belongs to the build module and is a parameter;
    it is only called in build mode. *)
Definition resolvePlugins
    (resolveBuildPlugins :
       ResolvedConfig → list HookScheduler.Plugin * list HookScheduler.Plugin)
    (config : ResolvedConfig)
    (prePlugins normalPlugins postPlugins : list HookScheduler.Plugin)
  : list Plugin :=
  let isBuild := bool_decide (command config = "build") in
  let buildPlugins := if isBuild then resolveBuildPlugins config else ([], []) in
  filter_Boolean
    (template_head config buildPlugins prePlugins normalPlugins postPlugins
     ++ (if isBuild then [] else Some <$> server_only_trio)).

Definition ends_with_trio (l : list Plugin) : Prop :=
  ∃ front, l = front ++ server_only_trio.

Definition sample_serve : ResolvedConfig :=
  mkConfig "/p/app" "serve" false (ModulePreloadOptions true) false false true
           (λ _, true).

Definition sample_build : ResolvedConfig :=
  mkConfig "/p/app" "build" false (ModulePreloadOptions true) false true true
           (λ _, true).

(** A slot is harmless when it holds no server-only stage. *)
Definition harmless (slot : Slot) : Prop :=
  ∀ p, slot = Some p → server_only p = false.

End Pipeline.

(** ** 5. String helpers used by the transform-directive resolver

    Strings are sequences of bytes (the UTF-8 encoding of the JavaScript
    string); every character these helpers look for is an ASCII character, so
    the byte-wise reading agrees with the reading by UTF-16 code units. *)

Module JsString.

(** [\w] of a regular expression without the unicode flag. *)
Definition is_word_char (c : ascii) : bool :=
  let n := nat_of_ascii c in
  ((48 <=? n) && (n <=? 57))          (* 0-9 *)
  || ((65 <=? n) && (n <=? 90))       (* A-Z *)
  || ((97 <=? n) && (n <=? 122))      (* a-z *)
  || (n =? 95).                       (* _ *)

Fixpoint all_word_chars (s : string) : bool :=
  match s with
  | EmptyString => true
  | String c rest => is_word_char c && all_word_chars rest
  end.

(** [validExtensionRE.test(s)] with [validExtensionRE = /\.\w+$/]: some dot
    is followed by one or more word characters up to the end. *)
Fixpoint validExtensionRE_test (s : string) : bool :=
  match s with
  | EmptyString => false
  | String c rest =>
      (Ascii.eqb c "." && negb (String.eqb rest "") && all_word_chars rest)
      || validExtensionRE_test rest
  end.

(** [s.slice(1)] *)
Definition slice1 (s : string) : string :=
  match s with
  | EmptyString => EmptyString
  | String _ rest => rest
  end.

(** Modelled from the spec: [cleanUrl] of [shared/utils], which is not
    among the sources; the specification has it strip the trailing
    query-like suffix of a file name, read here as everything from the
    first ['?'] or ['#'] on. *)
Fixpoint cleanUrl (url : string) : string :=
  match url with
  | EmptyString => EmptyString
  | String c rest =>
      if Ascii.eqb c "?" || Ascii.eqb c "#" then EmptyString
      else String c (cleanUrl rest)
  end.

(** *** [path.extname] of the Node.js runtime (POSIX flavour)

    The scan runs from the last character to the first and stops at the
    first slash that follows a non-slash character. *)
Record ExtScan := mkScan {
  startDot : option nat;
  startPart : nat;
  endPos : option nat;
  matchedSlash : bool;
  preDotState : Z;
  stopped : bool
}.

Definition scan_init : ExtScan := mkScan None 0 None true 0 false.

(** The loop body at index [i] holding character [code]. *)
Definition scan_body (code : ascii) (i : nat) (st : ExtScan) : ExtScan :=
  if Ascii.eqb code "/" then
    if negb (matchedSlash st) then
      mkScan (startDot st) (i + 1) (endPos st) (matchedSlash st)
             (preDotState st) true
    else st
  else
    let st :=
      match endPos st with
      | None => mkScan (startDot st) (startPart st) (Some (i + 1)) false
                       (preDotState st) false
      | Some _ => st
      end in
    if Ascii.eqb code "." then
      match startDot st with
      | None => mkScan (Some i) (startPart st) (endPos st) (matchedSlash st)
                       (preDotState st) false
      | Some _ =>
          if negb (preDotState st =? 1)%Z
          then mkScan (startDot st) (startPart st) (endPos st)
                      (matchedSlash st) 1 false
          else st
      end
    else
      match startDot st with
      | Some _ => mkScan (startDot st) (startPart st) (endPos st)
                         (matchedSlash st) (-1) false
      | None => st
      end.

(** [for (let i = n - 1; i >= 0; --i)] *)
Fixpoint scan_loop (path : string) (n : nat) (st : ExtScan) : ExtScan :=
  match n with
  | 0 => st
  | S i =>
      let st' :=
        match String.get i path with
        | Some code => scan_body code i st
        | None => st
        end in
      if stopped st' then st' else scan_loop path i st'
  end.

Definition extname (path : string) : string :=
  let st := scan_loop path (String.length path) scan_init in
  match startDot st, endPos st with
  | Some dot, Some e =>
      if (preDotState st =? 0)%Z
         || ((preDotState st =? 1)%Z && (dot =? e - 1) && (dot =? startPart st + 1))
      then EmptyString
      else String.substring dot (e - dot) path
  | _, _ => EmptyString
  end.

(** The declarative reading of [/\.\w+$/]. *)
Definition ends_with_extension (s : string) : Prop :=
  ∃ stem ext,
    s = stem +:+ "." +:+ ext ∧ ext ≠ "" ∧ all_word_chars ext = true.

End JsString.

(** ** 6. Transform-directive resolver ([plugins/oxc.ts], current revision) *)

Module Oxc.
Import JsString.

Definition ResolvedConfig := Pipeline.ResolvedConfig.
Definition Watcher := nat.             (* an [FSWatcher] object *)

Record SourceMap := mkSourceMap {
  sourcesContent : list string;
  mappings : string
}.

Record JsxOptions := mkJsx {
  pragma : option string;
  pragmaFrag : option string;
  importSource : option string;
  runtime : option string;
  development : option bool;
  refresh : option bool
}.

Record TypescriptOptions := mkTypescript {
  onlyRemoveTypeImports : option bool;
  typescript_rest : option nat         (* the other fields, not read here *)
}.

(** [OxcTransformOptions] of the transform engine: the fields this module
    reads or writes, and the remaining ones as one opaque value.  For
    [sourcemap] an object without the key ([None]) is told from an object
    that holds [undefined] under it ([Some None]): an object spread copies
    the latter. *)
Record OxcTransformOptions := mkOptions {
  lang : option string;
  sourcemap : option (option bool);
  jsx : option JsxOptions;
  typescript : option TypescriptOptions;
  define : option (gmap string string);
  options_rest : option nat
}.

Record OxcTransformResult := mkResult {
  code : string;
  map : option SourceMap;
  errors : list string
}.

(** [compilerOptions] of a loaded tsconfig. *)
Record CompilerOptions := mkCompilerOptions {
  co_jsxFactory : option string;
  co_jsxFragmentFactory : option string;
  co_jsxImportSource : option string;
  co_jsx : option string;
  verbatimModuleSyntax : option bool;
  preserveValueImports : option bool;
  importsNotUsedAsValues : option string
}.

Record Tsconfig := mkTsconfig {
  compilerOptions : option CompilerOptions
}.

Inductive Exception :=
| TSConfckParseError (message : string) (tsconfigFile : option string)
| JsError (message : string).

(** Calls to the environment, in the order they are made. *)
Inductive Event :=
| Warn (message : string)                                   (* [ctx.warn] *)
| EnsureWatchedFile (watcher : Watcher) (file root : string)
| Transform (filename code : string) (options : OxcTransformOptions).

(** The collaborators that are not part of this module. *)
Record Collaborators := mkCollaborators {
  loadTsconfigJsonForFile :
    string → option ResolvedConfig → Exception + (Tsconfig * option string);
  transform : string → string → OxcTransformOptions → OxcTransformResult;
  combineSourcemaps : string → list SourceMap → SourceMap
}.

(** *** Computations that log events and may throw *)

Definition Eff (A : Type) : Type := list Event * (Exception + A).

Definition ret {A} (a : A) : Eff A := ([], inr a).
Definition throw {A} (e : Exception) : Eff A := ([], inl e).
Definition emit (ev : Event) : Eff unit := ([ev], inr tt).
Definition lift {A} (r : Exception + A) : Eff A := ([], r).

Definition bind {A B} (m : Eff A) (k : A → Eff B) : Eff B :=
  match m with
  | (t, inl e) => (t, inl e)
  | (t, inr a) => (t ++ fst (k a), snd (k a))
  end.

(** [try { body } catch (e) { handler e }] *)
Definition try_catch {A} (body : Eff A) (handler : Exception → Eff A) : Eff A :=
  match body with
  | (t, inl e) => (t ++ fst (handler e), snd (handler e))
  | (t, inr a) => (t, inr a)
  end.

Notation "'do' x <- m ; k" := (bind m (λ x, k))
  (at level 10, x name, m at level 100, k at level 200, only parsing).
Notation "m ;; k" := (bind m (λ _, k))
  (at level 100, k at level 200, right associativity, only parsing).

Definition trace {A} (m : Eff A) : list Event := fst m.
Definition outcome {A} (m : Eff A) : Exception + A := snd m.

(** *** Truthiness *)

Definition truthy_string (s : option string) : bool :=
  match s with
  | Some s => negb (String.eqb s "")
  | None => false
  end.

Definition string_of_bool (b : bool) : string :=
  if b then "true" else "false".

(** *** Dialect selection (the first lines of [transformWithOxc]) *)

Definition dialect_of_extension (ext : string) : string :=
  if String.eqb ext "cjs" || String.eqb ext "mjs" then "js"
  else if String.eqb ext "cts" || String.eqb ext "mts" then "ts"
  else ext.

Definition extension_of (filename : string) : string :=
  slice1 (extname (if validExtensionRE_test filename
                   then filename else cleanUrl filename)).

Definition select_lang (options : option OxcTransformOptions)
           (filename : string) : string :=
  let lang := options ≫= lang in
  if truthy_string lang then default "" lang
  else dialect_of_extension (extension_of filename).

(** [{ sourcemap: true, ...options, lang }]: the [sourcemap] of [options]
    overrides [true] whenever [options] has the key, also when the value
    under it is [undefined]. *)
Definition spread_options (options : option OxcTransformOptions)
           (lang : string) : OxcTransformOptions :=
  match options with
  | Some o =>
      mkOptions (Some lang)
                (match sourcemap o with
                 | Some own => Some own
                 | None => Some (Some true)
                 end)
                (jsx o) (typescript o) (define o) (options_rest o)
  | None => mkOptions (Some lang) (Some (Some true)) None None None None
  end.

(** *** The tsconfig block *)

Definition empty_jsx : JsxOptions := mkJsx None None None None None None.
Definition empty_typescript : TypescriptOptions := mkTypescript None None.
Definition empty_compilerOptions : CompilerOptions :=
  mkCompilerOptions None None None None None None None.

Definition with_jsx (o : OxcTransformOptions) (j : JsxOptions)
  : OxcTransformOptions :=
  mkOptions (lang o) (sourcemap o) (Some j) (typescript o) (define o)
            (options_rest o).

(** [resolvedOptions.typescript ??= {}] followed by
    [resolvedOptions.typescript.onlyRemoveTypeImports = value] *)
Definition set_onlyRemoveTypeImports (o : OxcTransformOptions) (value : bool)
  : OxcTransformOptions :=
  let ts := default empty_typescript (typescript o) in
  mkOptions (lang o) (sourcemap o) (jsx o)
            (Some (mkTypescript (Some value) (typescript_rest ts)))
            (define o) (options_rest o).

Definition unsupported_imports_warning (preserve : bool) (notUsed : string)
  : string :=
  "preserveValueImports=" +:+ string_of_bool preserve
  +:+ " + importsNotUsedAsValues=" +:+ notUsed
  +:+ " is not supported by oxc."
  +:+ "Please migrate to the new verbatimModuleSyntax option.".

(** The [jsx*] settings and the [switch (loadedCompilerOptions.jsx)]. *)
Definition apply_jsx_settings (lang : string) (loaded : CompilerOptions)
           (o : OxcTransformOptions) : Eff OxcTransformOptions :=
  let j := default empty_jsx (jsx o) in
  let j := if truthy_string (co_jsxFactory loaded)
           then mkJsx (co_jsxFactory loaded) (pragmaFrag j) (importSource j)
                      (runtime j) (development j) (refresh j)
           else j in
  let j := if truthy_string (co_jsxFragmentFactory loaded)
           then mkJsx (pragma j) (co_jsxFragmentFactory loaded) (importSource j)
                      (runtime j) (development j) (refresh j)
           else j in
  let j := if truthy_string (co_jsxImportSource loaded)
           then mkJsx (pragma j) (pragmaFrag j) (co_jsxImportSource loaded)
                      (runtime j) (development j) (refresh j)
           else j in
  let mode := default "" (co_jsx loaded) in
  if String.eqb mode "react-jsxdev" then
    ret (with_jsx o (mkJsx (pragma j) (pragmaFrag j) (importSource j)
                           (Some "automatic") (Some true) (refresh j)))
  else if String.eqb mode "react" then
    ret (with_jsx o (mkJsx (pragma j) (pragmaFrag j) (importSource j)
                           (Some "classic") (development j) (refresh j)))
  else if String.eqb mode "react-jsx" then
    ret (with_jsx o (mkJsx (pragma j) (pragmaFrag j) (importSource j)
                           (Some "automatic") (development j) (refresh j)))
  else if String.eqb mode "preserve" then
    (if String.eqb lang "tsx"
     then emit (Warn "The tsconfig jsx preserve is not supported by oxc")
     else ret tt) ;;
    ret (with_jsx o j)
  else ret (with_jsx o j).

(** The decision on [typescript.onlyRemoveTypeImports]. *)
Definition apply_import_settings (loaded : CompilerOptions)
           (o : OxcTransformOptions) : Eff OxcTransformOptions :=
  match verbatimModuleSyntax loaded with
  | Some verbatim => ret (set_onlyRemoveTypeImports o verbatim)
  | None =>
      if bool_decide (preserveValueImports loaded ≠ None)
         || bool_decide (importsNotUsedAsValues loaded ≠ None)
      then
        let preserve := default false (preserveValueImports loaded) in
        let notUsed := default "remove" (importsNotUsedAsValues loaded) in
        if negb preserve && String.eqb notUsed "remove" then
          ret (set_onlyRemoveTypeImports o true)
        else if preserve
                && (String.eqb notUsed "preserve" || String.eqb notUsed "error")
        then ret (set_onlyRemoveTypeImports o false)
        else emit (Warn (unsupported_imports_warning preserve notUsed)) ;; ret o
      else ret o
  end.

(** [if (watcher && file && config) ensureWatchedFile(watcher, file, config.root)] *)
Definition watch_if_possible (watcher : option Watcher) (file : option string)
           (config : option ResolvedConfig) : Eff unit :=
  match watcher, config with
  | Some w, Some c =>
      if truthy_string file
      then emit (EnsureWatchedFile w (default "" file) (Pipeline.root c))
      else ret tt
  | _, _ => ret tt
  end.

(** The body of [if (lang === 'ts' || lang === 'tsx')]. *)
Definition resolve_from_tsconfig (env : Collaborators) (lang filename : string)
           (config : option ResolvedConfig) (watcher : option Watcher)
           (o : OxcTransformOptions) : Eff OxcTransformOptions :=
  try_catch
    (do loaded <- lift (loadTsconfigJsonForFile env filename config);
     watch_if_possible watcher (snd loaded) config ;;
     let loadedCompilerOptions :=
       default empty_compilerOptions (compilerOptions (fst loaded)) in
     do o <- apply_jsx_settings lang loadedCompilerOptions o;
     apply_import_settings loadedCompilerOptions o)
    (λ e,
       match e with
       | TSConfckParseError _ file => watch_if_possible watcher file config
       | JsError _ => ret tt
       end ;;
       throw e).

(** Everything before the call of the engine. *)
Definition resolve_options (env : Collaborators) (filename : string)
           (options : option OxcTransformOptions)
           (config : option ResolvedConfig) (watcher : option Watcher)
  : Eff OxcTransformOptions :=
  let lang := select_lang options filename in
  let resolvedOptions := spread_options options lang in
  if String.eqb lang "ts" || String.eqb lang "tsx"
  then resolve_from_tsconfig env lang filename config watcher resolvedOptions
  else ret resolvedOptions.

(** The source map handed back: chained with the incoming one if both
    exist, after the engine's embedded sources are dropped. *)
Definition combine_maps (env : Collaborators) (filename : string)
           (inMap : option SourceMap) (result : OxcTransformResult)
  : option SourceMap :=
  match inMap, map result with
  | Some inMap, Some nextMap =>
      Some (combineSourcemaps env filename
              [mkSourceMap [] (mappings nextMap); inMap])
  | _, _ => map result
  end.

(** What follows the call of the engine: throw on the first error, else
    hand back [{ ...result, map }]. *)
Definition check_result (env : Collaborators) (filename : string)
           (inMap : option SourceMap) (result : OxcTransformResult)
  : Eff OxcTransformResult :=
  match errors result with
  | first :: _ => throw (JsError first)
  | [] => ret (mkResult (code result) (combine_maps env filename inMap result)
                        (errors result))
  end.

Definition transformWithOxc (env : Collaborators) (code filename : string)
           (options : option OxcTransformOptions) (inMap : option SourceMap)
           (config : option ResolvedConfig) (watcher : option Watcher)
  : Eff OxcTransformResult :=
  do resolvedOptions <- resolve_options env filename options config watcher;
  emit (Transform filename code resolvedOptions) ;;
  check_result env filename inMap (transform env filename code resolvedOptions).

(** *** Vocabulary of the statements *)

Definition is_transform (ev : Event) : bool :=
  match ev with Transform _ _ _ => true | _ => false end.

(** A computation that does not call the engine. *)
Definition quiet {A} (m : Eff A) : Prop :=
  Forall (λ ev, is_transform ev = false) (trace m).

(** A computation that does not throw. *)
Definition total {A} (m : Eff A) : Prop := ∃ a, outcome m = inr a.

(** The flag [typescript.onlyRemoveTypeImports] of an options object. *)
Definition flag_of (o : OxcTransformOptions) : option bool :=
  typescript o ≫= onlyRemoveTypeImports.

Definition is_imports_warning (ev : Event) : Prop :=
  ∃ preserve notUsed, ev = Warn (unsupported_imports_warning preserve notUsed).

(** Sample collaborators: the settings of every file ask for
    [preserveValueImports] with [importsNotUsedAsValues = 'remove']; the
    engine echoes the code and reports no error. *)
Definition sample_compilerOptions : CompilerOptions :=
  mkCompilerOptions None None None (Some "preserve") None (Some true)
                    (Some "remove").

Definition sample_env : Collaborators :=
  mkCollaborators
    (λ _ _, inr (mkTsconfig (Some sample_compilerOptions), Some "/p/tsconfig.json"))
    (λ _ code _, mkResult code None [])
    (λ _ maps, default (mkSourceMap [] "") (head maps)).

(** Collaborators whose settings file does not parse and whose engine
    reports two errors. *)
Definition failing_env : Collaborators :=
  mkCollaborators
    (λ _ _, inl (TSConfckParseError "parse failed" (Some "/p/tsconfig.json")))
    (λ _ code _, mkResult code None ["Unexpected token"; "second"])
    (λ _ maps, default (mkSourceMap [] "") (head maps)).

Definition sample_config : ResolvedConfig :=
  Pipeline.mkConfig "/p/app" "serve" false Pipeline.ModulePreloadFalse false
                    false true (λ _, false).

End Oxc.

(** ** 7. Migration of the legacy options
       ([plugins/oxc.ts], [convertEsbuildConfigToOxcConfig]) *)

Module Legacy.

(** A value of the legacy [sourcemap] option. *)
Inductive SourcemapSetting :=
| SmBool (b : bool)
| SmString (s : string).

(** [ESBuildOptions]: the fields that the conversion reads; [None] is
    [undefined]. *)
Record ESBuildOptions := mkESBuild {
  jsxInject : option string;
  include : option nat;                (* filter patterns, passed through *)
  exclude : option nat;
  jsx : option string;
  jsxDev : bool;                       (* truthiness of [jsxDev] *)
  jsxFactory : option string;
  jsxFragment : option string;
  jsxImportSource : option string;
  loader : option string;
  define : option (gmap string string);
  sourcemap : option SourcemapSetting
}.

(** [OxcOptions]: the transform options and the three plugin options. *)
Record OxcOptions := mkOxcOptions {
  oxc_jsxInject : option string;
  oxc_include : option nat;
  oxc_exclude : option nat;
  oxc_jsx : Oxc.JsxOptions;
  oxc_lang : option string;
  oxc_define : option (gmap string string);
  oxc_sourcemap : option bool
}.

Definition string_of_sourcemap (v : option SourcemapSetting) : string :=
  match v with
  | None => "undefined"
  | Some (SmBool b) => Oxc.string_of_bool b
  | Some (SmString s) => s
  end.

Definition set_runtime (j : Oxc.JsxOptions) (r : string) : Oxc.JsxOptions :=
  Oxc.mkJsx (Oxc.pragma j) (Oxc.pragmaFrag j) (Oxc.importSource j) (Some r)
            (Oxc.development j) (Oxc.refresh j).

(** The part shared by both revisions: the [jsx] switch and the four
    [jsx*] options.  [by_or_at] is the preposition of the warning. *)
Definition convert_jsx (by_or_at : string) (esbuildConfig : ESBuildOptions)
  : Oxc.JsxOptions * list string :=
  let j := Oxc.empty_jsx in
  let mode := default "" (jsx esbuildConfig) in
  let '(j, warnings) :=
    if String.eqb mode "automatic" then (set_runtime j "automatic", [])
    else if String.eqb mode "transform" then (set_runtime j "classic", [])
    else if String.eqb mode "preserve"
    then (j, ["The esbuild jsx preserve is not supported " +:+ by_or_at +:+ " oxc"])
    else (j, []) in
  let j := if jsxDev esbuildConfig
           then Oxc.mkJsx (Oxc.pragma j) (Oxc.pragmaFrag j) (Oxc.importSource j)
                          (Oxc.runtime j) (Some true) (Oxc.refresh j)
           else j in
  let j := if Oxc.truthy_string (jsxFactory esbuildConfig)
           then Oxc.mkJsx (jsxFactory esbuildConfig) (Oxc.pragmaFrag j)
                          (Oxc.importSource j) (Oxc.runtime j)
                          (Oxc.development j) (Oxc.refresh j)
           else j in
  let j := if Oxc.truthy_string (jsxFragment esbuildConfig)
           then Oxc.mkJsx (Oxc.pragma j) (jsxFragment esbuildConfig)
                          (Oxc.importSource j) (Oxc.runtime j)
                          (Oxc.development j) (Oxc.refresh j)
           else j in
  let j := if Oxc.truthy_string (jsxImportSource esbuildConfig)
           then Oxc.mkJsx (Oxc.pragma j) (Oxc.pragmaFrag j)
                          (jsxImportSource esbuildConfig) (Oxc.runtime j)
                          (Oxc.development j) (Oxc.refresh j)
           else j in
  (j, warnings).

(** [list.includes(s)] *)
Definition includes (list : list string) (s : string) : bool :=
  existsb (String.eqb s) list.

(** [if (loader) { if ([...].includes(loader)) lang = loader else warn }] *)
Definition convert_loader (by_or_at : string) (accepted : list string)
           (loader : option string) : option string * list string :=
  if Oxc.truthy_string loader then
    let l := default "" loader in
    if includes accepted l then (Some l, [])
    else (None, ["The esbuild loader " +:+ l +:+ " is not supported "
                 +:+ by_or_at +:+ " oxc"])
  else (None, []).

Definition sourcemap_warning (by_or_at : string) (v : option SourcemapSetting)
  : string :=
  "The esbuild sourcemap " +:+ string_of_sourcemap v
  +:+ " is not supported " +:+ by_or_at +:+ " oxc".

(** The four dialect tags. *)
Definition dialect_tags : list string := ["js"; "jsx"; "ts"; "tsx"].

Definition sample_options : ESBuildOptions :=
  mkESBuild None None None (Some "automatic") false None None None
            (Some "js") None None.

End Legacy.

(** The current revision. *)
Module OxcConvert.
Import Legacy.

(** [switch (esbuildTransformOptions.sourcemap)] *)
Definition convert_sourcemap (v : option SourcemapSetting)
  : option bool * list string :=
  match v with
  | Some (SmBool b) => (Some b, [])
  | None => (None, [])
  | Some (SmString s) =>
      if String.eqb s "external" then (Some true, [])
      else if String.eqb s "linked" then (None, [])
      else (None, [sourcemap_warning "by" v])
  end.

(** The result and the messages given to [logger.warn], in order. *)
Definition convertEsbuildConfigToOxcConfig (esbuildConfig : ESBuildOptions)
  : OxcOptions * list string :=
  let '(j, w_jsx) := convert_jsx "by" esbuildConfig in
  let '(lang, w_loader) :=
    convert_loader "by" ["js"; "jsx"; "ts"; "tsx"] (loader esbuildConfig) in
  let '(sm, w_sourcemap) := convert_sourcemap (sourcemap esbuildConfig) in
  (mkOxcOptions (jsxInject esbuildConfig) (include esbuildConfig)
                (exclude esbuildConfig) j lang (define esbuildConfig) sm,
   w_jsx ++ w_loader ++ w_sourcemap).

End OxcConvert.

(** The earlier revision of the same file. *)
Module OxcConvertEarlier.
Import Legacy.

Definition convert_sourcemap (v : option SourcemapSetting)
  : option bool * list string :=
  match v with
  | Some (SmBool b) => (Some b, [])
  | _ => (None, [sourcemap_warning "at" v])
  end.

Definition convertEsbuildConfigToOxcConfig (esbuildConfig : ESBuildOptions)
  : OxcOptions * list string :=
  let '(j, w_jsx) := convert_jsx "at" esbuildConfig in
  let '(lang, w_loader) :=
    convert_loader "at" [".js"; ".jsx"; ".ts"; "tsx"] (loader esbuildConfig) in
  let '(sm, w_sourcemap) := convert_sourcemap (sourcemap esbuildConfig) in
  (mkOxcOptions (jsxInject esbuildConfig) (include esbuildConfig)
                (exclude esbuildConfig) j lang (define esbuildConfig) sm,
   w_jsx ++ w_loader ++ w_sourcemap).

End OxcConvertEarlier.


(** ** 8. Hook utilities ([plugins/index.ts], [createPluginHookUtils]) *)

Module HookUtils.
Import HookScheduler.

(** [getSortedPlugins] of the closure made by [createPluginHookUtils]; the
    [Map] [sortedPluginsCache] is threaded as state. *)
Definition getSortedPlugins (plugins : list Plugin)
           (sortedPluginsCache : gmap string (list Plugin)) (hookName : string)
  : list Plugin * gmap string (list Plugin) :=
  match sortedPluginsCache !! hookName with
  | Some sorted => (sorted, sortedPluginsCache)
  | None =>
      let sorted := getSortedPluginsByHook hookName plugins in
      (sorted, <[hookName := sorted]> sortedPluginsCache)
  end.

(** [plugins.map((p) => getHookHandler(p[hookName]))]: a call that throws
    ends the whole expression. *)
Fixpoint map_getHookHandler (hookName : string) (sorted : list Plugin)
  : Thrown + list (option Handler) :=
  match sorted with
  | [] => inr []
  | p :: rest =>
      match getHookHandler (get_hook p hookName) with
      | inl e => inl e
      | inr handler =>
          match map_getHookHandler hookName rest with
          | inl e => inl e
          | inr handlers => inr (handler :: handlers)
          end
      end
  end.

(** [plugins.map((p) => getHookHandler(p[hookName])).filter(Boolean)] *)
Definition handlers_of (hookName : string) (sorted : list Plugin)
  : Thrown + list Handler :=
  match map_getHookHandler hookName sorted with
  | inl e => inl e
  | inr handlers => inr (omap id handlers)
  end.

Definition getSortedPluginHooks (plugins : list Plugin)
           (sortedPluginsCache : gmap string (list Plugin)) (hookName : string)
  : (Thrown + list Handler) * gmap string (list Plugin) :=
  (handlers_of hookName (fst (getSortedPlugins plugins sortedPluginsCache hookName)),
   snd (getSortedPlugins plugins sortedPluginsCache hookName)).

(** A use of the two functions of the returned object. *)
Inductive Query :=
| AskPlugins (hookName : string)
| AskHooks (hookName : string).

Inductive Answer :=
| Plugins (sorted : list Plugin)
| Handlers (handlers : list Handler)
| Threw (e : Thrown).

Definition answer_of_hooks (r : Thrown + list Handler) : Answer :=
  match r with
  | inr handlers => Handlers handlers
  | inl e => Threw e
  end.

Definition hook_of (q : Query) : string :=
  match q with AskPlugins h | AskHooks h => h end.

Definition ask (plugins : list Plugin)
           (sortedPluginsCache : gmap string (list Plugin)) (q : Query)
  : Answer * gmap string (list Plugin) :=
  match q with
  | AskPlugins h =>
      (Plugins (fst (getSortedPlugins plugins sortedPluginsCache h)),
       snd (getSortedPlugins plugins sortedPluginsCache h))
  | AskHooks h =>
      (answer_of_hooks (fst (getSortedPluginHooks plugins sortedPluginsCache h)),
       snd (getSortedPluginHooks plugins sortedPluginsCache h))
  end.

(** The answers to a sequence of queries on one utilities object. *)
Fixpoint ask_all (plugins : list Plugin)
         (sortedPluginsCache : gmap string (list Plugin)) (qs : list Query)
  : list Answer * gmap string (list Plugin) :=
  match qs with
  | [] => ([], sortedPluginsCache)
  | q :: rest =>
      let r := ask plugins sortedPluginsCache q in
      let rs := ask_all plugins (snd r) rest in
      (fst r :: fst rs, snd rs)
  end.

(** The answer computed without any cache. *)
Definition answer_afresh (plugins : list Plugin) (q : Query) : Answer :=
  match q with
  | AskPlugins h => Plugins (getSortedPluginsByHook h plugins)
  | AskHooks h =>
      answer_of_hooks (handlers_of h (getSortedPluginsByHook h plugins))
  end.

(** Every entry of the cache is the sorted list of its hook. *)
Definition coherent (plugins : list Plugin)
           (sortedPluginsCache : gmap string (list Plugin)) : Prop :=
  ∀ h sorted, sortedPluginsCache !! h = Some sorted →
              sorted = getSortedPluginsByHook h plugins.

(** The plugin's hook is a function, or an object with a handler. *)
Definition has_handler (hookName : string) (p : Plugin) : bool :=
  match get_hook p hookName with
  | Some (HookFunction _) | Some (HookObject _ (Some _)) => true
  | _ => false
  end.

(** Three plugins implementing [transform], the first by an object that
    only gives an order. *)
Definition sample_handlerless : list Plugin :=
  [ sample_plugin "a" (HookObject (Some "pre") None);
    sample_plugin "b" (HookFunction 2);
    sample_plugin "c" (HookObject (Some "pre") (Some 3)) ].

Definition sample_queries : list Query :=
  [ AskHooks "transform"; AskPlugins "load"; AskPlugins "transform";
    AskHooks "resolveId" ].

End HookUtils.

(** ** 9. Shape of the pipeline under the native-implementation flag *)

Module PipelineShape.
Import Pipeline.

(** The portable member of each pair of equivalent built-in stages. *)
Definition portable_stage (b : BuiltIn) : BuiltIn :=
  match b with
  | nativeAliasPlugin => aliasPlugin
  | nativeModulePreloadPolyfillPlugin _ => modulePreloadPolyfillPlugin
  | nativeTransformPlugin => esbuildPlugin
  | nativeJsonPlugin isBuild => jsonPlugin isBuild
  | nativeWasmHelperPlugin => wasmHelperPlugin
  | nativeWasmFallbackPlugin => wasmFallbackPlugin
  | nativeDynamicImportVarsPlugin => dynamicImportVarsPlugin
  | nativeImportGlobPlugin => importGlobPlugin
  | other => other
  end.

Definition portable (p : Plugin) : Plugin :=
  match p with
  | Made b => Made (portable_stage b)
  | Supplied u => Supplied u
  end.

(** The configuration with [experimental.enableNativePlugin] replaced. *)
Definition with_native (config : ResolvedConfig) (native : bool)
  : ResolvedConfig :=
  mkConfig (root config) (command config) (isWorker config)
           (modulePreload config) (ssr config) native (esbuild config)
           (isDepsOptimizerEnabled config).

Definition is_build (config : ResolvedConfig) : bool :=
  bool_decide (command config = "build").

Definition supplied (ps : list HookScheduler.Plugin) : list Plugin :=
  Supplied <$> ps.

(** The stages of a list that were made during the call, in order. *)
Definition builtin_stages (l : list Plugin) : list BuiltIn :=
  omap (λ p, match p with Made b => Some b | Supplied _ => None end) l.

(** The plugins of a list that were handed in, in order. *)
Definition supplied_plugins (l : list Plugin) : list HookScheduler.Plugin :=
  omap (λ p, match p with Supplied u => Some u | Made _ => None end) l.

Global Instance BuiltIn_eq_dec : EqDecision BuiltIn.
Proof. solve_decision. Defined.

(** The provider of build plugins used in the examples. *)
Definition sample_provider (config : ResolvedConfig)
  : list HookScheduler.Plugin * list HookScheduler.Plugin :=
  ([HookScheduler.mkPlugin "commonjs" ∅], [HookScheduler.mkPlugin "report" ∅]).

End PipelineShape.

(** ** 10. One production build ([build/index.ts], [doBuild]) *)

Module DoBuild.
Import BuildOptions.

Definition Handle := BuildSession.Handle.

(** A value thrown by a collaborator, with the properties the [catch] block
    reads. *)
Record Failure := mkFailure {
  plugin : option string;
  message : string;
  id : option string;
  loc : option (nat * nat);            (* line and column *)
  frame : option string
}.

(** [config.build]: the resolved build options that [doBuild] reads.
    [rollupOptions] is held as its [plugins], its [output] ([None] when it
    has none) and the map of its other properties. *)
Record BuildOptions := mkBuildOptions {
  entry : string;
  outDir : string;
  assetsDir : string;
  sourcemap : JsValue;
  minify : JsValue;
  terserOptions : JsValue;
  write : bool;
  emitManifest : bool;
  rollupOptions : gmap string JsValue;
  rollupOptions_plugins : option (list nat);
  rollupOptions_output : option (gmap string JsValue)
}.

Record ResolvedConfig := mkConfig {
  root : string;
  plugins : list nat;
  build : BuildOptions
}.

(** The entries of the plugin array handed to the bundler. *)
Inductive Plugin :=
| Supplied (ref : nat)                 (* an object of the configuration *)
| buildHtmlPlugin
| buildDefinePlugin
| buildEsbuildPlugin
| terserPlugin (terserOptions : JsValue)
| buildManifestPlugin
| sizeReporPlugin.

Global Instance Plugin_eq_dec : EqDecision Plugin.
Proof. solve_decision. Defined.

Inductive Color := Red | Cyan | Yellow.

Inductive Event :=
| ResolveConfig (mode : string)
| Rollup (options : gmap string JsValue)
         (output : option (gmap string JsValue)) (plugins : list Plugin)
| Push (bundle : Handle)                        (* [paralellBuilds.push] *)
| EmptyDir (dir : string)
| ExistsSync (path : string)
| CopyDir (from to : string)
| Write (bundle : Handle) (output : gmap string JsValue)
| Generate (bundle : Handle) (output : gmap string JsValue)
| LogError (line : string).                     (* [config.logger.error] *)

(** The collaborators: configuration resolver, path functions, bundler, file
    system and terminal colours.  [None] of a file-system operation is its
    normal return. *)
Record Environment := mkEnvironment {
  resolveConfig : string → Failure + ResolvedConfig;
  path_resolve : string → string → string;
  posix_join : string → string → string;
  rollup : gmap string JsValue → option (gmap string JsValue) → list Plugin →
           Failure + Handle;
  emptyDir : string → option Failure;
  existsSync : string → bool;
  copyDir : string → string → option Failure;
  bundle_write : Handle → gmap string JsValue → option Failure;
  bundle_generate : Handle → gmap string JsValue → option Failure;
  chalk : Color → string → string
}.

Definition M (A : Type) : Type := list Event * (Failure + A).

Definition ret {A} (a : A) : M A := ([], inr a).
Definition throw {A} (e : Failure) : M A := ([], inl e).

Definition bind {A B} (m : M A) (k : A → M B) : M B :=
  match m with
  | (t, inl e) => (t, inl e)
  | (t, inr a) => (t ++ fst (k a), snd (k a))
  end.

(** A call of a collaborator: the event, then its result. *)
Definition call {A} (ev : Event) (r : Failure + A) : M A := ([ev], r).

(** A call of a collaborator that returns nothing. *)
Definition call_void (ev : Event) (r : option Failure) : M unit :=
  ([ev], match r with Some e => inl e | None => inr tt end).

Definition try_catch {A} (body : M A) (handler : Failure → M A) : M A :=
  match body with
  | (t, inl e) => (t ++ fst (handler e), snd (handler e))
  | (t, inr a) => (t, inr a)
  end.

Notation "'do' x <- m ; k" := (bind m (λ x, k))
  (at level 10, x name, m at level 100, k at level 200, only parsing).
Notation "m ;; k" := (bind m (λ _, k))
  (at level 100, k at level 200, right associativity, only parsing).

(** Truthiness of an option value. *)
Definition truthy (v : JsValue) : bool :=
  match v with
  | VUndefined => false
  | VBool b => b
  | VNum n => negb (n =? 0)%Z
  | VStr s => negb (String.eqb s "")
  | VEmptyObject | VObject _ => true
  end.

Definition truthy_string (s : option string) : bool :=
  match s with
  | Some s => negb (String.eqb s "")
  | None => false
  end.

(** [options.minify && options.minify !== 'esbuild'] *)
Definition uses_terser (options : BuildOptions) : bool :=
  truthy (minify options) && negb (bool_decide (minify options = VStr "esbuild")).

(** The array literal [plugins]. *)
Definition assemble_plugins (config : ResolvedConfig) : list Plugin :=
  let options := build config in
  (Supplied <$> plugins config)
  ++ (Supplied <$> default [] (rollupOptions_plugins options))
  ++ [buildHtmlPlugin; buildDefinePlugin; buildEsbuildPlugin]
  ++ (if uses_terser options then [terserPlugin (terserOptions options)] else [])
  ++ (if emitManifest options then [buildManifestPlugin] else [])
  ++ [sizeReporPlugin].

(** The object [{ moduleSideEffects: 'no-external' }]. *)
Definition treeshake_policy : JsValue := VObject 0.

(** The first argument of [rollup.rollup] without its [plugins] and its
    [output]: the pass-through options override the three fixed ones.  The
    spread hands on [rollupOptions.output] as well, and [plugins] replaces
    [rollupOptions.plugins]; the call carries the three parts. *)
Definition rollup_options (options : BuildOptions) (input : string)
  : gmap string JsValue :=
  rollupOptions options
  ∪ list_to_map [ ("input", VStr input);
                  ("preserveEntrySignatures", VBool false);
                  ("treeshake", treeshake_policy) ].

(** The argument of [bundle.write] / [bundle.generate]. *)
Definition output_options (env : Environment) (options : BuildOptions)
           (outDir : string) : gmap string JsValue :=
  default ∅ (rollupOptions_output options)
  ∪ list_to_map
      [ ("dir", VStr outDir);
        ("format", VStr "es");
        ("sourcemap", sourcemap options);
        ("entryFileNames",
         VStr (posix_join env (assetsDir options) "[name].[hash].js"));
        ("chunkFileNames",
         VStr (posix_join env (assetsDir options) "[name].[hash].js"));
        ("assetFileNames",
         VStr (posix_join env (assetsDir options) "[name].[hash].[ext]"));
        ("namespaceToStringTag", VBool true) ].

(** The three calls of [config.logger.error] of the [catch] block. *)
Definition log_failure (env : Environment) (e : Failure) : list Event :=
  [ LogError (chalk env Red
                ((if truthy_string (plugin e)
                  then "[" +:+ default "" (plugin e) +:+ "] " else "")
                 +:+ message e)) ]
  ++ (if truthy_string (id e)
      then [ LogError
               ("file: "
                +:+ chalk env Cyan
                      (default "" (id e)
                       +:+ match loc e with
                           | Some (line, column) =>
                               ":" +:+ pretty line +:+ ":" +:+ pretty column
                           | None => ""
                           end)) ]
      else [])
  ++ (if truthy_string (frame e)
      then [LogError (chalk env Yellow (default "" (frame e)))]
      else []).

(** The body of [try]. *)
Definition bundle_and_emit (env : Environment) (config : ResolvedConfig)
           (input outDir publicDir : string) (plugins : list Plugin) : M unit :=
  let options := build config in
  do bundle <- call (Rollup (rollup_options options input)
                            (rollupOptions_output options) plugins)
                    (rollup env (rollup_options options input)
                            (rollupOptions_output options) plugins);
  call_void (Push bundle) None ;;
  (if write options then
     call_void (EmptyDir outDir) (emptyDir env outDir) ;;
     do exists_ <- call (ExistsSync publicDir) (inr (existsSync env publicDir));
     if exists_ : bool
     then call_void (CopyDir publicDir outDir) (copyDir env publicDir outDir)
     else ret tt
   else ret tt) ;;
  if write options
  then call_void (Write bundle (output_options env options outDir))
                 (bundle_write env bundle (output_options env options outDir))
  else call_void (Generate bundle (output_options env options outDir))
                 (bundle_generate env bundle (output_options env options outDir)).

(** [inlineConfig.mode || 'production'] *)
Definition mode_or_production (mode : option string) : string :=
  if truthy_string mode then default "" mode else "production".

(** [doBuild(inlineConfig, configPath)]; [mode] is [inlineConfig.mode].
    The calls between [resolveConfig] and the [try] block ([path.resolve],
    the plugin factories, [require]) are taken to return. *)
Definition doBuild (env : Environment) (mode : option string) : M unit :=
  let mode := mode_or_production mode in
  do config <- call (ResolveConfig mode) (resolveConfig env mode);
  let options := build config in
  let input := path_resolve env (root config) (entry options) in
  let outDir := path_resolve env (root config) (outDir options) in
  let publicDir := path_resolve env (root config) "public" in
  let plugins := assemble_plugins config in
  try_catch
    (bundle_and_emit env config input outDir publicDir plugins)
    (λ e, (log_failure env e, inl e)).

(** *** Vocabulary of the statements *)

Definition trace {A} (m : M A) : list Event := fst m.
Definition outcome {A} (m : M A) : Failure + A := snd m.

Definition touches_disk (ev : Event) : bool :=
  match ev with
  | EmptyDir _ | ExistsSync _ | CopyDir _ _ | Write _ _ => true
  | _ => false
  end.

Definition is_log (ev : Event) : bool :=
  match ev with LogError _ => true | _ => false end.

Definition is_push (ev : Event) : bool :=
  match ev with Push _ => true | _ => false end.

Definition is_supplied (p : Plugin) : bool :=
  match p with Supplied _ => true | _ => false end.

(** The paths that [doBuild] computes from a configuration. *)
Definition input_of (env : Environment) (config : ResolvedConfig) : string :=
  path_resolve env (root config) (entry (build config)).
Definition outDir_of (env : Environment) (config : ResolvedConfig) : string :=
  path_resolve env (root config) (outDir (build config)).
Definition publicDir_of (env : Environment) (config : ResolvedConfig) : string :=
  path_resolve env (root config) "public".

(** What the bundler answers to the call that [doBuild] makes. *)
Definition bundler_answer (env : Environment) (config : ResolvedConfig)
  : Failure + Handle :=
  rollup env (rollup_options (build config) (input_of env config))
         (rollupOptions_output (build config)) (assemble_plugins config).


(** Sample collaborators: the bundler answers handle [7]; writing fails. *)
Definition sample_failure : Failure :=
  mkFailure (Some "vite:css") "Unexpected }" (Some "/p/app/a.css")
            (Some (3, 14)) None.

Definition sample_options (write : bool) (minify : JsValue) : BuildOptions :=
  mkBuildOptions "index.html" "dist" "assets" (VBool false) minify VEmptyObject
                 write false ∅ (Some [21]) None.

Definition sample_env (write : bool) (minify : JsValue) : Environment :=
  mkEnvironment
    (λ _, inr (mkConfig "/p/app" [11; 12] (sample_options write minify)))
    (λ root p, root +:+ "/" +:+ p)
    (λ a b, a +:+ "/" +:+ b)
    (λ _ _ _, inr 7)
    (λ _, None)
    (λ _, true)
    (λ _ _, None)
    (λ _ _, Some sample_failure)
    (λ _ _, None)
    (λ _ s, s).

Definition failing_config_env : Environment :=
  mkEnvironment
    (λ _, inl (mkFailure None "config not found" None None None))
    (λ root p, root +:+ "/" +:+ p)
    (λ a b, a +:+ "/" +:+ b)
    (λ _ _ _, inr 7) (λ _, None) (λ _, true) (λ _ _, None)
    (λ _ _, None) (λ _ _, None) (λ _ s, s).

End DoBuild.

(** ** 11. The option names of [BuildOptions] *)

Module BuildOptionsShape.
Import BuildOptions.

(** The properties of the interface [BuildOptions], in declaration order. *)
Definition option_names : list string :=
  [ "entry"; "base"; "outDir"; "assetsDir"; "assetsInlineLimit"; "cssCodeSplit";
    "sourcemap"; "minify"; "terserOptions"; "ssr"; "rollupOptions"; "write";
    "emitIndex"; "emitAssets"; "emitManifest" ].

(** The options that [resolveBuildOptions] returns for a raw object, if it
    returns. *)
Definition resolved_of (raw : option (gmap string JsValue))
  : option (gmap string JsValue) :=
  match resolveBuildOptions raw with
  | Return resolved => Some resolved
  | ThrowTypeError => None
  end.

Definition sample_undefined : option (gmap string JsValue) :=
  Some {[ "outDir" := VUndefined ]}.

End BuildOptionsShape.

(** ** 12. Events of the transform-directive resolver *)

Module OxcEvents.
Import Oxc.

Definition is_warn (ev : Event) : bool :=
  match ev with Warn _ => true | _ => false end.

Definition is_watch (ev : Event) : bool :=
  match ev with EnsureWatchedFile _ _ _ => true | _ => false end.

(** Two sets of collaborators with the same engine and the same map
    combiner; they may differ in the settings loader. *)
Definition same_engine (env env' : Collaborators) : Prop :=
  (∀ filename code o, transform env filename code o = transform env' filename code o)
  ∧ (∀ filename maps,
       combineSourcemaps env filename maps = combineSourcemaps env' filename maps).

(** Options that hold [undefined] under [sourcemap] and an empty object
    under [jsx], as the migration of an empty legacy configuration makes
    them. *)
Definition sample_migrated : OxcTransformOptions :=
  mkOptions None (Some None) (Some empty_jsx) None None None.

(** The collaborators of [sample_env] with a settings loader that fails. *)
Definition unreadable_env : Collaborators :=
  mkCollaborators
    (λ _ _, inl (JsError "EACCES"))
    (transform sample_env)
    (combineSourcemaps sample_env).

End OxcEvents.

(** ** 13. Legacy settings that the migration carries over without a warning *)

Module LegacyShape.
Import Legacy.

(** The values of the legacy [sourcemap] that the current revision's
    [switch] names in a [case]. *)
Definition known_sourcemap (v : option SourcemapSetting) : Prop :=
  match v with
  | Some (SmString s) => s = "external" ∨ s = "linked"
  | Some (SmBool _) | None => True
  end.

(** The legacy loader is unset (or empty), or one of the four dialect tags. *)
Definition known_loader (loader : option string) : Prop :=
  Oxc.truthy_string loader = false ∨ default "" loader ∈ dialect_tags.

End LegacyShape.

(** ** 14. Transform-directive resolver, earlier revision
       ([plugins/oxc.ts], [transformWithOxc]) *)

Module OxcEarlier.
Import JsString Oxc.

(** The collaborators of the earlier revision: the settings loader takes the
    file name only and hands back the settings. *)
Record Collaborators := mkCollaborators {
  loadTsconfigJsonForFile : string → Exception + Tsconfig;
  transform : string → string → OxcTransformOptions → OxcTransformResult;
  combineSourcemaps : string → list SourceMap → SourceMap
}.

(** [resolvedOptions.jsx = { pragma, pragmaFrag, importSource }] followed by
    the [switch (loadedCompilerOptions.jsx)]. *)
Definition apply_jsx_settings (loaded : CompilerOptions)
           (o : OxcTransformOptions) : Eff OxcTransformOptions :=
  let j := mkJsx (co_jsxFactory loaded) (co_jsxFragmentFactory loaded)
                 (co_jsxImportSource loaded) None None None in
  let mode := default "" (co_jsx loaded) in
  if String.eqb mode "react-jsxdev" then
    ret (with_jsx o (mkJsx (pragma j) (pragmaFrag j) (importSource j)
                           (Some "automatic") (Some true) (refresh j)))
  else if String.eqb mode "react" then
    ret (with_jsx o (mkJsx (pragma j) (pragmaFrag j) (importSource j)
                           (Some "classic") (development j) (refresh j)))
  else if String.eqb mode "react-jsx" then
    ret (with_jsx o (mkJsx (pragma j) (pragmaFrag j) (importSource j)
                           (Some "automatic") (development j) (refresh j)))
  else if String.eqb mode "preserve" then
    emit (Warn "The tsconfig jsx preserve is not supported at oxc") ;;
    ret (with_jsx o j)
  else ret (with_jsx o j).

(** Everything before the call of the engine. *)
Definition resolve_options (env : Collaborators) (filename : string)
           (options : option OxcTransformOptions) : Eff OxcTransformOptions :=
  let lang := select_lang options filename in
  let resolvedOptions := spread_options options lang in
  if String.eqb lang "ts" || String.eqb lang "tsx"
  then
    do loadedTsconfig <- lift (loadTsconfigJsonForFile env filename);
    let loadedCompilerOptions :=
      default empty_compilerOptions (compilerOptions loadedTsconfig) in
    apply_jsx_settings loadedCompilerOptions resolvedOptions
  else ret resolvedOptions.

Definition combine_maps (env : Collaborators) (filename : string)
           (inMap : option SourceMap) (result : OxcTransformResult)
  : option SourceMap :=
  match inMap, map result with
  | Some inMap, Some nextMap =>
      Some (combineSourcemaps env filename
              [mkSourceMap [] (mappings nextMap); inMap])
  | _, _ => map result
  end.

Definition check_result (env : Collaborators) (filename : string)
           (inMap : option SourceMap) (result : OxcTransformResult)
  : Eff OxcTransformResult :=
  match errors result with
  | first :: _ => throw (JsError first)
  | [] => ret (mkResult (code result) (combine_maps env filename inMap result)
                        (errors result))
  end.

Definition transformWithOxc (env : Collaborators) (code filename : string)
           (options : option OxcTransformOptions) (inMap : option SourceMap)
  : Eff OxcTransformResult :=
  do resolvedOptions <- resolve_options env filename options;
  emit (Transform filename code resolvedOptions) ;;
  check_result env filename inMap (transform env filename code resolvedOptions).

(** *** Vocabulary of the statements *)

(** The options with the object under [jsx] exchanged. *)
Definition replace_jsx (o : OxcTransformOptions) (j : option JsxOptions)
  : OxcTransformOptions :=
  mkOptions (lang o) (sourcemap o) j (typescript o) (define o) (options_rest o).

(** The earlier collaborators share the engine and the map combiner with
    the current ones. *)
Definition same_engine (env : Collaborators) (env' : Oxc.Collaborators) : Prop :=
  (∀ filename code o,
     transform env filename code o = Oxc.transform env' filename code o)
  ∧ (∀ filename maps,
       combineSourcemaps env filename maps
       = Oxc.combineSourcemaps env' filename maps).

Definition sample_env : Collaborators :=
  mkCollaborators
    (λ _, inr (mkTsconfig (Some sample_compilerOptions)))
    (Oxc.transform Oxc.sample_env)
    (Oxc.combineSourcemaps Oxc.sample_env).

Definition sample_jsx : JsxOptions :=
  mkJsx (Some "h") None None None None (Some true).

End OxcEarlier.

(** ** 15. The transform hook of the plugin ([plugins/oxc.ts], [oxcPlugin])

    The hook is a closure over the object [oxcTransformOptions] and the
    variable [server]; both outlive a call, so a call takes the closure's
    state and gives the next one back.  Calls are taken one at a time. *)

Module OxcPlugin.
Import JsString Oxc.

(** A word boundary after a word character: the end of the string, or a
    character that is not a word character. *)
Definition word_ends (rest : string) : bool :=
  match rest with
  | EmptyString => true
  | String c _ => negb (is_word_char c)
  end.

(** [\.(?:j|t)sx\b] matched at the start of [s]. *)
Definition jsx_extension_here (s : string) : bool :=
  match s with
  | String "."%char (String c (String "s"%char (String "x"%char rest))) =>
      (Ascii.eqb c "j" || Ascii.eqb c "t") && word_ends rest
  | _ => false
  end.

(** [jsxExtensionsRE.test(s)] with [jsxExtensionsRE = /\.(?:j|t)sx\b/]. *)
Fixpoint jsxExtensionsRE_test (s : string) : bool :=
  jsx_extension_here s
  || match s with
     | EmptyString => false
     | String _ rest => jsxExtensionsRE_test rest
     end.

(** What [oxcPlugin] fixes once: [jsxInject] and the two filters that
    [createFilter] has built. *)
Record Settings := mkSettings {
  jsxInject : option string;
  filter : string → bool;
  jsxFilter : string → bool
}.

(** What the hooks share and change. *)
Record Closure := mkClosure {
  oxcTransformOptions : OxcTransformOptions;
  server : option Watcher               (* [server?.watcher] *)
}.

Definition configureServer (watcher : Watcher) (c : Closure) : Closure :=
  mkClosure (oxcTransformOptions c) (Some watcher).

(** [oxcTransformOptions.jsx.refresh = false] under
    [consumer === 'server' && oxcTransformOptions.jsx?.refresh] *)
Definition disable_refresh_at_ssr (consumer : string) (o : OxcTransformOptions)
  : OxcTransformOptions :=
  match jsx o with
  | Some j =>
      if String.eqb consumer "server" && bool_decide (refresh j = Some true)
      then with_jsx o (mkJsx (pragma j) (pragmaFrag j) (importSource j)
                             (runtime j) (development j) (Some false))
      else o
  | None => o
  end.

(** [oxcTransformOptions.lang = 'jsx'] under
    [(jsxFilter(id) || jsxFilter(cleanUrl(id))) && !oxcTransformOptions.lang] *)
Definition default_to_jsx (s : Settings) (id : string) (o : OxcTransformOptions)
  : OxcTransformOptions :=
  if (jsxFilter s id || jsxFilter s (cleanUrl id))
     && negb (truthy_string (lang o))
  then mkOptions (Some "jsx") (sourcemap o) (jsx o) (typescript o) (define o)
                 (options_rest o)
  else o.

(** [transformWithOxc] copies the options it is passed one level deep
    ([{ sourcemap: true, ...options, lang }]), so the objects under [jsx] and
    [typescript] stay shared with the caller: what it writes into them shows
    in [oxcTransformOptions] afterwards.  An object that it makes itself
    ([??= {}]) belongs to the copy only. *)
Definition seen_through_aliases (passed resolved : OxcTransformOptions)
  : OxcTransformOptions :=
  mkOptions (lang passed) (sourcemap passed)
            (match jsx passed with Some _ => jsx resolved | None => None end)
            (match typescript passed with
             | Some _ => typescript resolved
             | None => None
             end)
            (define passed) (options_rest passed).

(** [if (jsxInject && jsxExtensionsRE.test(id)) result.code = jsxInject + ';' + result.code] *)
Definition inject (s : Settings) (id code : string) : string :=
  if truthy_string (jsxInject s) && jsxExtensionsRE_test id
  then default "" (jsxInject s) +:+ ";" +:+ code
  else code.

(** What the hook returns: [undefined], or [{ code, map }]. *)
Definition HookResult : Type := option (string * option SourceMap).

(** The options as the hook passes them to [transformWithOxc]. *)
Definition passed_options (s : Settings) (consumer id : string) (c : Closure)
  : OxcTransformOptions :=
  default_to_jsx s id (disable_refresh_at_ssr consumer (oxcTransformOptions c)).

Definition transform_hook (env : Collaborators) (s : Settings)
           (config : ResolvedConfig) (consumer code id : string) (c : Closure)
  : Eff HookResult * Closure :=
  if filter s id || filter s (cleanUrl id) then
    let passed := passed_options s consumer id c in
    let after :=
      match outcome (resolve_options env id (Some passed) (Some config) (server c)) with
      | inr resolved => seen_through_aliases passed resolved
      | inl _ => passed
      end in
    (do result <- transformWithOxc env code id (Some passed) None (Some config)
                                   (server c);
     ret (Some (inject s id (Oxc.code result), map result)),
     mkClosure after (server c))
  else (ret None, c).

(** One call of the hook: the consumer of the environment, the code and the
    id of the module. *)
Record Call := mkCall {
  consumer : string;
  source : string;
  id : string
}.

(** Calls of the hook one after the other: what each did, and the closure
    at the end. *)
Fixpoint transform_calls (env : Collaborators) (s : Settings)
         (config : ResolvedConfig) (calls : list Call) (c : Closure)
  : list (Eff HookResult) * Closure :=
  match calls with
  | [] => ([], c)
  | call :: rest =>
      let '(run, c') :=
        transform_hook env s config (consumer call) (source call) (id call) c in
      let '(runs, c'') := transform_calls env s config rest c' in
      (run :: runs, c'')
  end.

(** *** Vocabulary of the statements *)

Definition accepted (s : Settings) (id : string) : bool :=
  filter s id || filter s (cleanUrl id).

(** The directives given to the engine in a trace. *)
Definition directives (t : list Event) : list OxcTransformOptions :=
  omap (λ ev, match ev with Transform _ _ o => Some o | _ => None end) t.

(** All directives given to the engine by a list of runs. *)
Definition all_directives (runs : list (Eff HookResult))
  : list OxcTransformOptions :=
  concat (List.map (λ run, directives (trace run)) runs).

Definition refresh_of (o : OxcTransformOptions) : option bool :=
  jsx o ≫= refresh.

(** Sample settings: every file passes the filter, files whose id ends in
    ['.jsx'] pass the JSX filter, and an import is injected. *)
Definition sample_settings : Settings :=
  mkSettings (Some "import React from 'react'")
             (λ _, true)
             (λ id, String.eqb (extname id) ".jsx").

Definition sample_closure : Closure :=
  mkClosure (mkOptions None None
               (Some (mkJsx None None None None None (Some true)))
               None None None)
            None.

Definition sample_calls : list Call :=
  [ mkCall "client" "<a/>" "view.jsx"; mkCall "server" "let x" "util.ts" ].

End OxcPlugin.

(** Sample calls of the transform hook, the server's first. *)
Module OxcPluginSamples.
Import Oxc OxcPlugin.

Definition server_first : list Call :=
  [ mkCall "server" "let x" "util.ts"; mkCall "client" "<a/>" "view.jsx" ].

Definition configured_closure : Closure :=
  mkClosure (mkOptions (Some "tsx") None None None None None) None.

End OxcPluginSamples.

(** * Part II: properties *)

(** ** Hook scheduler *)

Section HookSchedulerFacts.
Import HookScheduler.

Variable hookName : string.

Lemma splice_at_length {A} (xs ys : list A) (x : A) :
  splice (xs ++ ys) (length xs) x = xs ++ x :: ys.
Proof.
  unfold splice. by rewrite take_app_length, drop_app_length.
Qed.

Lemma branch_pre (plugin : Plugin) :
  tier_of hookName plugin = Some TierPre ↔
  truthy (get_hook plugin hookName) = true ∧
  is_object (get_hook plugin hookName) && order_is (get_hook plugin hookName) "pre" = true.
Proof.
  unfold tier_of. destruct (get_hook plugin hookName) as [[| | h | [o|] h]|]; simpl;
    rewrite ?andb_true_iff, ?andb_false_iff, ?bool_decide_eq_true,
      ?bool_decide_eq_false;
    repeat (destruct (bool_decide _) eqn:?;
            rewrite ?bool_decide_eq_true, ?bool_decide_eq_false in * );
    intuition congruence.
Qed.

Lemma branch_post (plugin : Plugin) :
  tier_of hookName plugin = Some TierPost ↔
  truthy (get_hook plugin hookName) = true ∧
  is_object (get_hook plugin hookName) && order_is (get_hook plugin hookName) "pre" = false ∧
  is_object (get_hook plugin hookName) && order_is (get_hook plugin hookName) "post" = true.
Proof.
  unfold tier_of. destruct (get_hook plugin hookName) as [[| | h | [o|] h]|]; simpl;
    rewrite ?andb_true_iff, ?andb_false_iff, ?bool_decide_eq_true,
      ?bool_decide_eq_false;
    repeat (destruct (bool_decide _) eqn:?;
            rewrite ?bool_decide_eq_true, ?bool_decide_eq_false in * );
    intuition congruence.
Qed.

Lemma branch_none (plugin : Plugin) :
  tier_of hookName plugin = None ↔ truthy (get_hook plugin hookName) = false.
Proof.
  unfold tier_of. destruct (get_hook plugin hookName) as [[| | h | [o|] h]|]; simpl;
    rewrite ?andb_true_iff, ?andb_false_iff, ?bool_decide_eq_true,
      ?bool_decide_eq_false;
    repeat (destruct (bool_decide _) eqn:?;
            rewrite ?bool_decide_eq_true, ?bool_decide_eq_false in * );
    intuition congruence.
Qed.

Lemma loop_body_represents st b plugin :
  represents st b →
  represents (loop_body hookName st plugin) (push_buffer hookName b plugin).
Proof.
  intros (Hs & Hp & Hn & Hq). unfold loop_body, push_buffer.
  destruct (tier_of hookName plugin) as [[]|] eqn:Ht.
  - apply branch_pre in Ht as [-> ->]. split_and!; simpl; try done.
    + by rewrite Hs, Hp, splice_at_length, <- app_assoc.
    + rewrite length_app; simpl; lia.
  - apply eq_sym in Ht.
    destruct (truthy (get_hook plugin hookName)) eqn:Htr;
      [| apply branch_none in Htr; congruence].
    destruct (is_object _ && order_is _ "pre") eqn:Hpre;
      [assert (tier_of hookName plugin = Some TierPre) by (by apply branch_pre);
       congruence |].
    destruct (is_object _ && order_is _ "post") eqn:Hpost;
      [assert (tier_of hookName plugin = Some TierPost) by (by apply branch_post);
       congruence |].
    split_and!; simpl; try done.
    + rewrite Hs, Hp, Hn, <- length_app, app_assoc, splice_at_length.
      by rewrite <- !app_assoc.
    + rewrite length_app; simpl; lia.
  - apply branch_post in Ht as (-> & -> & ->). split_and!; simpl; try done.
    + rewrite Hs, Hp, Hn, Hq, <- !length_app, !app_assoc.
      replace (((buf_pre b ++ buf_normal b) ++ buf_post b))
        with (((buf_pre b ++ buf_normal b) ++ buf_post b) ++ []) at 1
        by apply app_nil_r.
      rewrite splice_at_length. done.
    + rewrite length_app; simpl; lia.
  - apply branch_none in Ht as ->. done.
Qed.

Lemma foldl_represents plugins : ∀ st b,
  represents st b →
  represents (foldl (loop_body hookName) st plugins)
             (foldl (push_buffer hookName) b plugins).
Proof.
  induction plugins as [|p ps IH]; intros st b H; simpl; [done|].
  apply IH. by apply loop_body_represents.
Qed.

Lemma splice_is_three_buffer plugins :
  getSortedPluginsByHook hookName plugins = three_buffer_partition hookName plugins.
Proof.
  unfold getSortedPluginsByHook, three_buffer_partition.
  apply (foldl_represents plugins loop_init (mkBuffers [] [] [])).
  by repeat split.
Qed.

Lemma foldl_push_buffer plugins : ∀ b,
  let b' := foldl (push_buffer hookName) b plugins in
  buf_pre b' = buf_pre b ++ filter (in_tier hookName TierPre) plugins
  ∧ buf_normal b' = buf_normal b ++ filter (in_tier hookName TierNormal) plugins
  ∧ buf_post b' = buf_post b ++ filter (in_tier hookName TierPost) plugins.
Proof.
  induction plugins as [|p ps IH]; intros b; simpl.
  - by rewrite !app_nil_r.
  - destruct (IH (push_buffer hookName b p)) as (-> & -> & ->).
    unfold push_buffer.
    destruct (tier_of hookName p) as [[]|] eqn:Ht; simpl;
      repeat (first [ rewrite filter_cons_True by (unfold in_tier; congruence)
                    | rewrite filter_cons_False by (unfold in_tier; congruence) ]);
      by rewrite <- ?app_assoc.
Qed.

Lemma three_buffer_filters plugins :
  three_buffer_partition hookName plugins =
    filter (in_tier hookName TierPre) plugins
    ++ filter (in_tier hookName TierNormal) plugins
    ++ filter (in_tier hookName TierPost) plugins.
Proof.
  unfold three_buffer_partition.
  by destruct (foldl_push_buffer plugins (mkBuffers [] [] [])) as (-> & -> & ->).
Qed.

End HookSchedulerFacts.

Section HookSchedulerOrder.
Import HookScheduler.

Variable hookName : string.

Lemma same_tier_sorted (t : Tier) (l : list Plugin) :
  StronglySorted (tier_le hookName) (filter (in_tier hookName t) l).
Proof.
  induction l as [|p l IH]; [constructor|].
  rewrite filter_cons. case_decide as Hp; [|done].
  constructor; [done|]. apply Forall_forall. intros q Hq.
  apply list_elem_of_filter in Hq as [Hq _].
  unfold tier_le. unfold in_tier in Hp, Hq. by rewrite Hp, Hq.
Qed.

Lemma partition_sorted (l : list Plugin) :
  StronglySorted (tier_le hookName)
    (filter (in_tier hookName TierPre) l
     ++ filter (in_tier hookName TierNormal) l
     ++ filter (in_tier hookName TierPost) l).
Proof.
  repeat apply StronglySorted_app_2; try apply same_tier_sorted;
    intros p q Hp Hq;
    repeat match goal with
           | H : _ ∈ _ ++ _ |- _ => apply elem_of_app in H as [H|H]
           | H : _ ∈ filter _ _ |- _ => apply list_elem_of_filter in H as [H _]
           end;
    unfold tier_le; unfold in_tier in *; rewrite Hp, Hq; simpl; lia.
Qed.

Lemma sorted_lookup {A} (R : relation A) (l : list A) :
  StronglySorted R l →
  ∀ i j x y, i < j → l !! i = Some x → l !! j = Some y → R x y.
Proof.
  induction 1 as [|a l Hs IH Hall]; intros i j x y Hij Hi Hj; [done|].
  destruct j as [|j]; [lia|]. simpl in Hj.
  destruct i as [|i]; simpl in Hi.
  - simplify_eq. rewrite Forall_forall in Hall.
    apply Hall. by eapply list_elem_of_lookup_2.
  - eapply (IH i j); eauto with lia.
Qed.

Lemma partition_permutation (l : list Plugin) :
  filter (in_tier hookName TierPre) l
  ++ filter (in_tier hookName TierNormal) l
  ++ filter (in_tier hookName TierPost) l
  ≡ₚ filter (implements hookName) l.
Proof.
  induction l as [|p l IH]; [done|].
  destruct (tier_of hookName p) as [[]|] eqn:Ht;
    repeat (first [ rewrite filter_cons_True by (unfold in_tier; congruence)
                  | rewrite filter_cons_False by (unfold in_tier; congruence) ]).
  - rewrite (filter_cons_True (implements hookName))
      by (by apply branch_pre in Ht as [? _]).
    simpl. by rewrite IH.
  - assert (implements hookName p).
    { unfold implements.
      destruct (truthy (get_hook p hookName)) eqn:E; [done|].
      apply branch_none in E. congruence. }
    rewrite (filter_cons_True (implements hookName)) by done.
    simpl. rewrite <- Permutation_middle. by rewrite IH.
  - rewrite (filter_cons_True (implements hookName))
      by (by apply branch_post in Ht as [? _]).
    rewrite app_assoc, <- Permutation_middle, <- app_assoc. by rewrite IH.
  - rewrite (filter_cons_False (implements hookName)); [done|].
    unfold implements. apply branch_none in Ht. congruence.
Qed.

Lemma filter_tier_partition (t : Tier) (l : list Plugin) :
  filter (in_tier hookName t)
    (filter (in_tier hookName TierPre) l
     ++ filter (in_tier hookName TierNormal) l
     ++ filter (in_tier hookName TierPost) l)
  = filter (in_tier hookName t) l.
Proof.
  rewrite !filter_app.
  assert (Hsame : ∀ u, filter (in_tier hookName u) (filter (in_tier hookName u) l)
                       = filter (in_tier hookName u) l).
  { intros u. induction l as [|p l IH]; [done|].
    rewrite filter_cons. case_decide; [|exact IH].
    rewrite filter_cons_True by done. by rewrite IH. }
  assert (Hother : ∀ u v, u ≠ v →
            filter (in_tier hookName u) (filter (in_tier hookName v) l) = []).
  { intros u v Huv. clear Hsame. induction l as [|p l IH]; [done|].
    rewrite filter_cons. case_decide as Hv; [|exact IH].
    rewrite filter_cons_False; [done|].
    unfold in_tier in *. congruence. }
  destruct t.
  - rewrite Hsame, !Hother by done. by rewrite !app_nil_r.
  - rewrite Hsame, !Hother by done. by rewrite !app_nil_r.
  - rewrite Hsame, !Hother by done. done.
Qed.

End HookSchedulerOrder.

(** C1.  For every plugin list and hook name, the splice-based single pass of
    [getSortedPluginsByHook] computes the three-buffer stable partition
    [pre ++ normal ++ post]: its result is the concatenation of the three
    tiers, holds exactly the plugins whose hook value is truthy, never puts a
    later tier before an earlier one, and keeps the input order inside each
    tier. *)
Theorem C1_splice_insertion_is_stable_partition :
  ∀ (hookName : string) (plugins : list HookScheduler.Plugin),
    let sorted := HookScheduler.getSortedPluginsByHook hookName plugins in
    sorted = HookScheduler.three_buffer_partition hookName plugins
    ∧ sorted =
        filter (HookScheduler.in_tier hookName HookScheduler.TierPre) plugins
        ++ filter (HookScheduler.in_tier hookName HookScheduler.TierNormal) plugins
        ++ filter (HookScheduler.in_tier hookName HookScheduler.TierPost) plugins
    ∧ sorted ≡ₚ filter (HookScheduler.implements hookName) plugins
    ∧ (∀ i j p q, i < j → sorted !! i = Some p → sorted !! j = Some q →
         HookScheduler.rank (HookScheduler.tier_of hookName p)
         ≤ HookScheduler.rank (HookScheduler.tier_of hookName q))
    ∧ (∀ t, filter (HookScheduler.in_tier hookName t) sorted
            = filter (HookScheduler.in_tier hookName t) plugins).
Proof.
  intros hookName plugins sorted.
  assert (Hparts : sorted =
    filter (HookScheduler.in_tier hookName HookScheduler.TierPre) plugins
    ++ filter (HookScheduler.in_tier hookName HookScheduler.TierNormal) plugins
    ++ filter (HookScheduler.in_tier hookName HookScheduler.TierPost) plugins).
  { unfold sorted. rewrite splice_is_three_buffer. apply three_buffer_filters. }
  split_and!.
  - apply splice_is_three_buffer.
  - exact Hparts.
  - rewrite Hparts. apply partition_permutation.
  - rewrite Hparts. intros i j p q.
    apply (sorted_lookup (HookScheduler.tier_le hookName)), partition_sorted.
  - intros t. rewrite Hparts. apply filter_tier_partition.
Qed.

(** ** Build session *)

Section BuildSessionFacts.
Import BuildSession.

Lemma advance_inv s i from to s' :
  advance s i from to = Some s' →
  running s !! i = Some from ∧ s' = set_phase s i to.
Proof.
  unfold advance. destruct (running s !! i) as [ph|]; [|done].
  case_decide; [|done]. intros [= <-]. by subst.
Qed.

Lemma running_positive s i ph :
  consistent s → running s !! i = Some ph → (0 < parallelCallCounts s)%Z.
Proof.
  intros [Hc _] Hi. rewrite Hc.
  assert (size (running s) ≠ 0) by (eapply map_size_ne_0_lookup_2; eauto).
  lia.
Qed.

Lemma set_phase_consistent s i from to :
  consistent s → running s !! i = Some from → consistent (set_phase s i to).
Proof.
  intros Hs Hi. pose proof (running_positive _ _ _ Hs Hi) as Hpos.
  destruct Hs as [Hc Hz]. split; simpl.
  - rewrite map_size_insert_Some; eauto.
  - lia.
Qed.

Lemma finally_block_consistent s i ph :
  consistent s → running s !! i = Some ph → consistent (finally_block s i).
Proof.
  intros Hs Hi. pose proof (running_positive _ _ _ Hs Hi) as Hpos.
  destruct Hs as [Hc Hz]. unfold finally_block.
  assert (Hsize : (parallelCallCounts s - 1)%Z
                  = Z.of_nat (size (delete i (running s)))).
  { rewrite map_size_delete_Some by eauto. lia. }
  destruct (Z.leb_spec (parallelCallCounts s - 1) 0); split; simpl; try done; lia.
Qed.

Lemma step_consistent s a s' :
  consistent s → step s a = Some s' → consistent s'.
Proof.
  intros Hs Hstep. destruct a as [i|i|i|i h|i|i|i|i]; simpl in Hstep;
    try (apply advance_inv in Hstep as [Hi ->];
         by eapply set_phase_consistent).
  - destruct (running s !! i) eqn:Hi; [done|]. injection Hstep as <-.
    destruct Hs as [Hc Hz]. split; simpl.
    + rewrite map_size_insert_None by done. lia.
    + lia.
  - destruct (advance s i AwaitRollup AwaitOutput) as [s1|] eqn:Hadv; [|done].
    simpl in Hstep. injection Hstep as <-.
    apply advance_inv in Hadv as [Hi ->].
    pose proof (running_positive _ _ _ Hs Hi) as Hpos.
    destruct Hs as [Hc Hz]. split; simpl.
    + rewrite map_size_insert_Some; eauto.
    + lia.
  - destruct (running s !! i) as [[| | |ok]|] eqn:Hi; try done.
    injection Hstep as <-. by eapply finally_block_consistent.
Qed.

(** What one atomic segment does to the shared variables. *)
Lemma step_effect s a s' :
  consistent s → step s a = Some s' →
  (is_call a = true → parallelCallCounts s' = (parallelCallCounts s + 1)%Z)
  ∧ (is_finally a = true → parallelCallCounts s' = (parallelCallCounts s - 1)%Z)
  ∧ (is_call a = false → is_finally a = false →
       parallelCallCounts s' = parallelCallCounts s)
  ∧ (if is_finally a && (parallelCallCounts s' =? 0)%Z
     then clears s' = S (clears s)
          ∧ paralellBuilds s' = []
          ∧ closed s' = closed s ++ paralellBuilds s
     else clears s' = clears s
          ∧ closed s' = closed s
          ∧ paralellBuilds s `prefix_of` paralellBuilds s').
Proof.
  intros Hs Hstep. destruct a as [i|i|i|i h|i|i|i|i]; simpl in Hstep |- *;
    try (apply advance_inv in Hstep as [Hi ->]; simpl; by split_and!).
  - destruct (running s !! i) eqn:Hi; [done|]. injection Hstep as <-.
    simpl. by split_and!.
  - destruct (advance s i AwaitRollup AwaitOutput) as [s1|] eqn:Hadv; [|done].
    simpl in Hstep. injection Hstep as <-.
    apply advance_inv in Hadv as [Hi ->]. simpl.
    split_and!; try done. by apply prefix_app_r.
  - destruct (running s !! i) as [[| | |ok]|] eqn:Hi; try done.
    injection Hstep as <-.
    pose proof (running_positive _ _ _ Hs Hi) as Hpos.
    unfold finally_block.
    destruct (Z.leb_spec (parallelCallCounts s - 1) 0) as [Hle|Hgt]; simpl.
    + replace (parallelCallCounts s - 1 =? 0)%Z with true
        by (symmetry; apply Z.eqb_eq; lia).
      by split_and!.
    + replace (parallelCallCounts s - 1 =? 0)%Z with false
        by (symmetry; apply Z.eqb_neq; lia).
      by split_and!.
Qed.

Lemma step_closed_or_live s a s' :
  step s a = Some s' →
  closed s' ++ paralellBuilds s' = (closed s ++ paralellBuilds s) ++ pushed [a].
Proof.
  intros Hstep. destruct a as [i|i|i|i h|i|i|i|i]; simpl in Hstep |- *;
    try (apply advance_inv in Hstep as [Hi ->]; simpl; by rewrite app_nil_r).
  - destruct (running s !! i) eqn:Hi; [done|]. injection Hstep as <-.
    simpl. by rewrite app_nil_r.
  - destruct (advance s i AwaitRollup AwaitOutput) as [s1|] eqn:Hadv; [|done].
    simpl in Hstep. injection Hstep as <-.
    apply advance_inv in Hadv as [Hi ->]. simpl. by rewrite app_assoc.
  - destruct (running s !! i) as [[| | |ok]|] eqn:Hi; try done.
    injection Hstep as <-. unfold finally_block.
    destruct (_ <=? _)%Z; simpl; by rewrite !app_nil_r.
Qed.

Lemma pushed_cons a schedule : pushed (a :: schedule) = pushed [a] ++ pushed schedule.
Proof. destruct a; simpl; done. Qed.

Lemma exec_invariants schedule : ∀ s states,
  consistent s →
  exec s schedule = Some states →
  let s' := final s states in
  consistent s'
  ∧ closed s' ++ paralellBuilds s' = (closed s ++ paralellBuilds s) ++ pushed schedule
  ∧ clears s' = clears s
      + returns_to_zero (parallelCallCounts s) (parallelCallCounts <$> states).
Proof.
  induction schedule as [|a schedule IH]; intros s states Hs Hexec; simpl in Hexec.
  - injection Hexec as <-. unfold final. simpl.
    split_and!; [done| by rewrite app_nil_r | lia].
  - destruct (step s a) as [s1|] eqn:Hstep; [|done]. simpl in Hexec.
    destruct (exec s1 schedule) as [states1|] eqn:Hrest; [|done].
    simpl in Hexec. injection Hexec as <-.
    pose proof (step_consistent _ _ _ Hs Hstep) as Hs1.
    destruct (IH s1 states1 Hs1 Hrest) as (Hc & Hlive & Hclears).
    assert (Hfinal : final s (s1 :: states1) = final s1 states1).
    { unfold final. destruct states1 as [|s2 states1]; [done|].
      rewrite last_cons_cons.
      destruct (last (s2 :: states1)) eqn:E; [done|].
      by apply last_None in E. }
    rewrite Hfinal. split_and!; [done| |].
    + rewrite Hlive, (step_closed_or_live _ _ _ Hstep), (pushed_cons a schedule).
      by rewrite <- !app_assoc.
    + rewrite Hclears, fmap_cons. cbn [returns_to_zero].
      destruct (step_effect _ _ _ Hs Hstep) as (Hcall & Hfin & Hother & Hclr).
      destruct Hs as [Hsize _]. destruct Hs1 as [Hsize1 _].
      destruct (is_finally a) eqn:Hf; simpl in Hclr.
      * specialize (Hfin eq_refl).
        destruct (Z.eqb_spec (parallelCallCounts s1) 0) as [Hz|Hnz].
        -- destruct Hclr as (-> & _).
           replace (0 <? parallelCallCounts s)%Z with true
             by (symmetry; apply Z.ltb_lt; lia).
           simpl. lia.
        -- destruct Hclr as (-> & _). rewrite andb_false_r. lia.
      * destruct Hclr as (-> & _).
        assert (parallelCallCounts s1 ≠ 0%Z ∨ ¬ (0 < parallelCallCounts s)%Z) as Hno.
        { destruct (is_call a) eqn:Hcl.
          - left. rewrite (Hcall eq_refl). lia.
          - rewrite (Hother eq_refl eq_refl). lia. }
        replace ((0 <? parallelCallCounts s)%Z && (parallelCallCounts s1 =? 0)%Z)
          with false; [lia|].
        symmetry. apply andb_false_iff. destruct Hno as [Hno|Hno].
        -- right. by apply Z.eqb_neq.
        -- left. by apply Z.ltb_ge; lia.
Qed.

Lemma init_consistent : consistent init.
Proof. split; simpl; [by rewrite map_size_empty | done]. Qed.

End BuildSessionFacts.

(** C3.  For every interleaving of invocations of [build]: the counter
    [parallelCallCounts] is incremented at entry and decremented by the
    [finally] block on every exit path, so that it always equals the number of
    invocations in flight; the handles of [paralellBuilds] are closed and the
    array is cleared exactly in a [finally] block that brings the counter back
    to zero, once per return to zero, and never in a step that leaves the
    counter above zero; whenever the counter is zero every handle registered so
    far has been closed. *)
Theorem C3_counter_brackets_builds_and_clear_at_zero :
  ∀ (schedule : list BuildSession.Action) (states : list BuildSession.State),
    BuildSession.exec BuildSession.init schedule = Some states →
    let s := BuildSession.final BuildSession.init states in
    BuildSession.parallelCallCounts s
      = Z.of_nat (size (BuildSession.running s))
    ∧ BuildSession.closed s ++ BuildSession.paralellBuilds s
      = BuildSession.pushed schedule
    ∧ (BuildSession.parallelCallCounts s = 0%Z →
         BuildSession.paralellBuilds s = []
         ∧ BuildSession.closed s = BuildSession.pushed schedule)
    ∧ BuildSession.clears s
      = BuildSession.returns_to_zero 0 (BuildSession.parallelCallCounts <$> states)
    ∧ (∀ i ok, BuildSession.running s !! i = Some (BuildSession.Settled ok) →
         BuildSession.step s (BuildSession.Finally i)
         = Some (BuildSession.finally_block s i))
    ∧ (∀ a s', BuildSession.step s a = Some s' →
         (BuildSession.is_call a = true →
            BuildSession.parallelCallCounts s'
            = (BuildSession.parallelCallCounts s + 1)%Z)
         ∧ (BuildSession.is_finally a = true →
              BuildSession.parallelCallCounts s'
              = (BuildSession.parallelCallCounts s - 1)%Z)
         ∧ (BuildSession.is_call a = false → BuildSession.is_finally a = false →
              BuildSession.parallelCallCounts s' = BuildSession.parallelCallCounts s)
         ∧ (if BuildSession.is_finally a
               && (BuildSession.parallelCallCounts s' =? 0)%Z
            then BuildSession.clears s' = S (BuildSession.clears s)
                 ∧ BuildSession.paralellBuilds s' = []
                 ∧ BuildSession.closed s'
                   = BuildSession.closed s ++ BuildSession.paralellBuilds s
            else BuildSession.clears s' = BuildSession.clears s
                 ∧ BuildSession.closed s' = BuildSession.closed s
                 ∧ BuildSession.paralellBuilds s
                   `prefix_of` BuildSession.paralellBuilds s')
         ∧ ((0 < BuildSession.parallelCallCounts s')%Z →
              BuildSession.clears s' = BuildSession.clears s
              ∧ BuildSession.closed s' = BuildSession.closed s)).
Proof.
  intros schedule states Hexec s.
  destruct (exec_invariants schedule _ _ init_consistent Hexec)
    as (Hcons & Hlive & Hclears).
  fold s in Hcons, Hlive, Hclears. simpl in Hlive, Hclears.
  split_and!.
  - apply Hcons.
  - exact Hlive.
  - intros Hz. destruct Hcons as [_ Hempty]. specialize (Hempty Hz).
    split; [done|]. by rewrite Hempty, app_nil_r in Hlive.
  - exact Hclears.
  - intros i ok Hi. simpl. by rewrite Hi.
  - intros a s' Hstep.
    destruct (step_effect _ _ _ Hcons Hstep) as (Hcall & Hfin & Hother & Hclr).
    split_and!; try done.
    intros Hpos.
    replace (BuildSession.parallelCallCounts s' =? 0)%Z with false in Hclr
      by (symmetry; apply Z.eqb_neq; lia).
    rewrite andb_false_r in Hclr. by destruct Hclr as (? & ? & _).
Qed.

Lemma C3_witness :
  BuildSession.exec BuildSession.init BuildSession.sample_schedule
    = Some BuildSession.sample_states
  ∧ BuildSession.clears
      (BuildSession.final BuildSession.init BuildSession.sample_states)
    = BuildSession.returns_to_zero 0
        (BuildSession.parallelCallCounts <$> BuildSession.sample_states).
Proof.
  split; [vm_compute; reflexivity|].
  apply (C3_counter_brackets_builds_and_clear_at_zero
           BuildSession.sample_schedule BuildSession.sample_states).
  vm_compute; reflexivity.
Defined.

(** ** Build options *)

Section BuildOptionsFacts.
Import BuildOptions.

Lemma ends_with_slash_last s :
  ends_with_slash s ↔ last_char s = Some "/"%char.
Proof.
  split.
  - intros [stem ->]. induction stem as [|c stem IH]; [done|].
    simpl. destruct (stem +:+ "/") eqn:E; [by destruct stem|]. exact IH.
  - induction s as [|c s IH]; [done|]. simpl.
    destruct s as [|c' s'].
    + intros [= ->]. by exists "".
    + intros H. destruct (IH H) as [stem Hstem].
      exists (String c stem). rewrite Hstem. reflexivity.
Qed.

Lemma replace_keeps_slash s :
  last_char s = Some "/"%char → replace_last_non_slash s = s.
Proof.
  induction s as [|c s IH]; [done|]. simpl.
  destruct s as [|c' s'].
  - intros [= ->]. done.
  - intros H. by rewrite IH.
Qed.

Lemma replace_appends_slash s c :
  last_char s = Some c → c ≠ "/"%char → replace_last_non_slash s = s +:+ "/".
Proof.
  induction s as [|d s IH]; [done|]. simpl.
  destruct s as [|c' s'].
  - intros [= ->] Hc. by rewrite (proj2 (Ascii.eqb_neq _ _) Hc).
  - intros H Hc. by rewrite IH.
Qed.

Lemma last_char_snoc s c : last_char (s +:+ String c "") = Some c.
Proof.
  induction s as [|d s IH]; [done|]. simpl.
  destruct (s +:+ String c "") eqn:E; [by destruct s|]. exact IH.
Qed.

Lemma last_char_nonempty s : s ≠ "" → is_Some (last_char s).
Proof.
  induction s as [|c s IH]; [done|]. intros _. simpl.
  destruct s; [by eexists|]. by apply IH.
Qed.

Lemma app_slash_inj s t : s +:+ "/" = t +:+ "/" → s = t.
Proof.
  revert t. induction s as [|c s IH]; intros [|d t]; simpl; intros H;
    try done.
  - injection H as _ H. by destruct t.
  - injection H as _ H. by destruct s.
  - injection H as -> H. f_equal. by apply IH.
Qed.

Lemma resolved_base raw base :
  spread_over_defaults raw !! "base" = Some (VStr base) →
  resolveBuildOptions raw
  = Return (<["base" := VStr (replace_last_non_slash base)]>
              (spread_over_defaults raw)).
Proof. unfold resolveBuildOptions. by intros ->. Qed.

End BuildOptionsFacts.

(** C6, as stated, fails: a base that already ends with several slashes is
    returned as it is. *)
Lemma C6_counterexample :
  (∃ resolved,
     BuildOptions.resolveBuildOptions BuildOptions.sample_double_slash
       = BuildOptions.Return resolved
     ∧ resolved !! "base" = Some (BuildOptions.VStr "/app//"))
  ∧ ¬ BuildOptions.ends_with_exactly_one_slash "/app//"
  ∧ ¬ BuildOptions.base_ends_with_exactly_one_slash_always.
Proof.
  assert (Hnot : ¬ BuildOptions.ends_with_exactly_one_slash "/app//").
  { intros (stem & Heq & Hstem). apply Hstem.
    change "/app//" with ("/app/" +:+ "/") in Heq.
    apply app_slash_inj in Heq as <-. by exists "/app". }
  split_and!; [|done|].
  - eexists. split; reflexivity.
  - intros Hall.
    destruct (Hall BuildOptions.sample_double_slash _ eq_refl)
      as (base & Hbase & Hone).
    vm_compute in Hbase. injection Hbase as <-. by apply Hnot.
Qed.

(** C6, amended.  For every raw build options object whose base (supplied, or
    the default) is a non-empty string, the returned base ends with a slash:
    a base that does not end with a slash gets exactly one slash appended, and
    a base that already ends with a slash is returned unchanged. *)
Theorem C6_base_gets_trailing_slash :
  ∀ (raw : option (gmap string BuildOptions.JsValue)) (base : string),
    BuildOptions.spread_over_defaults raw !! "base"
      = Some (BuildOptions.VStr base) →
    base ≠ "" →
    ∃ resolved base',
      BuildOptions.resolveBuildOptions raw = BuildOptions.Return resolved
      ∧ resolved !! "base" = Some (BuildOptions.VStr base')
      ∧ BuildOptions.ends_with_slash base'
      ∧ (BuildOptions.ends_with_slash base → base' = base)
      ∧ (¬ BuildOptions.ends_with_slash base →
           base' = base +:+ "/"
           ∧ BuildOptions.ends_with_exactly_one_slash base').
Proof.
  intros raw base Hbase Hne.
  eexists _, _. split; [by apply resolved_base|].
  split; [by rewrite lookup_insert_eq|].
  destruct (last_char_nonempty base Hne) as [c Hc].
  destruct (decide (c = "/"%char)) as [->|Hslash].
  - rewrite (replace_keeps_slash _ Hc).
    split_and!; [by apply ends_with_slash_last|done|].
    intros Hno. by apply ends_with_slash_last in Hc.
  - rewrite (replace_appends_slash _ _ Hc Hslash).
    assert (Hno : ¬ BuildOptions.ends_with_slash base).
    { rewrite ends_with_slash_last, Hc. congruence. }
    split_and!; [by eexists|done|].
    intros _. split; [done|]. by exists base.
Qed.

Lemma C6_witness :
  BuildOptions.spread_over_defaults BuildOptions.sample_app !! "base"
    = Some (BuildOptions.VStr "/app")
  ∧ "/app" ≠ ""
  ∧ ∃ resolved base',
      BuildOptions.resolveBuildOptions BuildOptions.sample_app
        = BuildOptions.Return resolved
      ∧ resolved !! "base" = Some (BuildOptions.VStr base')
      ∧ BuildOptions.ends_with_slash base'
      ∧ (BuildOptions.ends_with_slash "/app" → base' = "/app")
      ∧ (¬ BuildOptions.ends_with_slash "/app" →
           base' = "/app" +:+ "/"
           ∧ BuildOptions.ends_with_exactly_one_slash base').
Proof.
  split; [reflexivity|]. split; [discriminate|].
  apply (C6_base_gets_trailing_slash BuildOptions.sample_app "/app");
    [reflexivity | discriminate].
Defined.

(** The two end-to-end examples of the base path. *)
Lemma base_examples :
  (∃ resolved,
     BuildOptions.resolveBuildOptions BuildOptions.sample_app
       = BuildOptions.Return resolved
     ∧ resolved !! "base" = Some (BuildOptions.VStr "/app/"))
  ∧ (∃ resolved,
       BuildOptions.resolveBuildOptions BuildOptions.sample_app_slash
         = BuildOptions.Return resolved
       ∧ resolved !! "base" = Some (BuildOptions.VStr "/app/"))
  ∧ BuildOptions.resolveBuildOptions None
    = BuildOptions.Return BuildOptions.defaults.
Proof.
  split_and!; [eexists; split; reflexivity ..|].
  vm_compute. reflexivity.
Qed.

Lemma defaults_dom_names :
  dom BuildOptions.defaults
  = list_to_set (C := gset string)
      [ "entry"; "base"; "outDir"; "assetsDir"; "assetsInlineLimit";
        "cssCodeSplit"; "sourcemap"; "minify"; "terserOptions"; "ssr";
        "rollupOptions"; "write"; "emitIndex"; "emitAssets"; "emitManifest" ].
Proof. vm_compute. reflexivity. Qed.

(** C10.  [resolveBuildOptions] touches no field but [base]: every field of
    the input other than [base] is found unchanged in the result; every option
    the input lacks has its default, namely ['index.html'] for [entry],
    ['dist'] for [outDir], ['assets'] for [assetsDir], [4096] for
    [assetsInlineLimit], [true] for [cssCodeSplit], [false] for [sourcemap],
    ['terser'] for [minify], [{}] for [terserOptions] and [rollupOptions],
    [false] for [ssr], [true] for [write], [emitIndex] and [emitAssets],
    [false] for [emitManifest]; a property that is neither in the input nor
    one of the fifteen options is not in the result; and [base] is the
    supplied base, or ['/'] when the input has none, with its trailing slash
    ensured.  The call fails only when [base] is supplied with a value that is
    not a string. *)
Theorem C10_only_base_is_rewritten :
  ∀ (raw : option (gmap string BuildOptions.JsValue)),
    match BuildOptions.resolveBuildOptions raw with
    | BuildOptions.Return resolved =>
        (∀ k v, k ≠ "base" → default ∅ raw !! k = Some v →
                resolved !! k = Some v)
        ∧ Forall (λ d, default ∅ raw !! fst d = None →
                       resolved !! fst d = Some (snd d))
            [ ("entry", BuildOptions.VStr "index.html");
              ("outDir", BuildOptions.VStr "dist");
              ("assetsDir", BuildOptions.VStr "assets");
              ("assetsInlineLimit", BuildOptions.VNum 4096);
              ("cssCodeSplit", BuildOptions.VBool true);
              ("sourcemap", BuildOptions.VBool false);
              ("minify", BuildOptions.VStr "terser");
              ("terserOptions", BuildOptions.VEmptyObject);
              ("ssr", BuildOptions.VBool false);
              ("rollupOptions", BuildOptions.VEmptyObject);
              ("write", BuildOptions.VBool true);
              ("emitIndex", BuildOptions.VBool true);
              ("emitAssets", BuildOptions.VBool true);
              ("emitManifest", BuildOptions.VBool false) ]
        ∧ (∀ k, k ∉ [ "entry"; "base"; "outDir"; "assetsDir";
                      "assetsInlineLimit"; "cssCodeSplit"; "sourcemap";
                      "minify"; "terserOptions"; "ssr"; "rollupOptions";
                      "write"; "emitIndex"; "emitAssets"; "emitManifest" ] →
                default ∅ raw !! k = None → resolved !! k = None)
        ∧ (∃ base,
             default (BuildOptions.VStr "/") (default ∅ raw !! "base")
               = BuildOptions.VStr base
             ∧ resolved !! "base"
               = Some (BuildOptions.VStr (BuildOptions.replace_last_non_slash base)))
    | BuildOptions.ThrowTypeError =>
        ∃ v, default ∅ raw !! "base" = Some v
             ∧ ∀ base, v ≠ BuildOptions.VStr base
    end.
Proof.
  intros raw. unfold BuildOptions.resolveBuildOptions.
  assert (Hbase : BuildOptions.spread_over_defaults raw !! "base"
                  = Some (default (BuildOptions.VStr "/") (default ∅ raw !! "base"))).
  { unfold BuildOptions.spread_over_defaults.
    destruct (default ∅ raw !! "base") as [v|] eqn:Hv; simpl.
    - by apply lookup_union_Some_l.
    - by rewrite lookup_union_r. }
  assert (Hrest : ∀ base,
    (∀ k v, k ≠ "base" → default ∅ raw !! k = Some v →
            <["base" := BuildOptions.VStr base]>
              (BuildOptions.spread_over_defaults raw) !! k = Some v)
    ∧ Forall (λ d, default ∅ raw !! fst d = None →
                   <["base" := BuildOptions.VStr base]>
                     (BuildOptions.spread_over_defaults raw) !! fst d
                   = Some (snd d))
        [ ("entry", BuildOptions.VStr "index.html");
          ("outDir", BuildOptions.VStr "dist");
          ("assetsDir", BuildOptions.VStr "assets");
          ("assetsInlineLimit", BuildOptions.VNum 4096);
          ("cssCodeSplit", BuildOptions.VBool true);
          ("sourcemap", BuildOptions.VBool false);
          ("minify", BuildOptions.VStr "terser");
          ("terserOptions", BuildOptions.VEmptyObject);
          ("ssr", BuildOptions.VBool false);
          ("rollupOptions", BuildOptions.VEmptyObject);
          ("write", BuildOptions.VBool true);
          ("emitIndex", BuildOptions.VBool true);
          ("emitAssets", BuildOptions.VBool true);
          ("emitManifest", BuildOptions.VBool false) ]
    ∧ (∀ k, k ∉ [ "entry"; "base"; "outDir"; "assetsDir";
                  "assetsInlineLimit"; "cssCodeSplit"; "sourcemap";
                  "minify"; "terserOptions"; "ssr"; "rollupOptions";
                  "write"; "emitIndex"; "emitAssets"; "emitManifest" ] →
            default ∅ raw !! k = None →
            <["base" := BuildOptions.VStr base]>
              (BuildOptions.spread_over_defaults raw) !! k = None)).
  { intros base. split_and!.
    - intros k v Hk Hkv. rewrite lookup_insert_ne by done.
      by apply lookup_union_Some_l.
    - repeat (apply Forall_cons; split;
              [cbn [fst snd]; intros Hnone;
               rewrite lookup_insert_ne by discriminate;
               unfold BuildOptions.spread_over_defaults;
               rewrite lookup_union_r by exact Hnone; reflexivity|]).
      constructor.
    - intros k Hk Hnone.
      assert (Hne : k ≠ "base").
      { intros ->. apply Hk. do 1 apply list_elem_of_further.
        apply list_elem_of_here. }
      rewrite lookup_insert_ne by done.
      unfold BuildOptions.spread_over_defaults.
      rewrite lookup_union_r by exact Hnone.
      apply not_elem_of_dom. rewrite defaults_dom_names.
      by rewrite elem_of_list_to_set. }
  rewrite Hbase.
  destruct (default ∅ raw !! "base") as [v|] eqn:Hv; simpl.
  - destruct v; try (exists v; split; [done|]; intros; subst v; discriminate);
      try (eexists; split; [done|]; intros; discriminate).
    destruct (Hrest (BuildOptions.replace_last_non_slash s)) as (H1 & H2 & H3).
    split_and!; [exact H1 | exact H2 | exact H3 |].
    eexists. split; [done|]. by rewrite lookup_insert_eq.
  - destruct (Hrest (BuildOptions.replace_last_non_slash "/")) as (H1 & H2 & H3).
    split_and!; [exact H1 | exact H2 | exact H3 |].
    eexists. split; [done|]. by rewrite lookup_insert_eq.
Qed.

(** ** Pipeline assembler *)

Section PipelineFacts.
Import Pipeline.

Lemma filter_Boolean_app (xs ys : list Slot) :
  filter_Boolean (xs ++ ys) = filter_Boolean xs ++ filter_Boolean ys.
Proof. apply omap_app. Qed.

Lemma filter_Boolean_all (ps : list Plugin) :
  filter_Boolean (Some <$> ps) = ps.
Proof. induction ps as [|p ps IH]; [done|]. simpl. by f_equal. Qed.

Lemma filter_Boolean_harmless (slots : list Slot) :
  Forall harmless slots →
  Forall (λ p, server_only p = false) (filter_Boolean slots).
Proof.
  induction 1 as [|[p|] slots Hslot _ IH]; simpl; [constructor| |exact IH].
  constructor; [by apply Hslot | exact IH].
Qed.

Lemma spread_harmless ps : Forall harmless (spread ps).
Proof.
  unfold spread. apply Forall_fmap, Forall_forall.
  intros p _ q [= <-]. done.
Qed.

Lemma template_head_harmless config buildPlugins prePlugins normalPlugins postPlugins :
  Forall harmless
    (template_head config buildPlugins prePlugins normalPlugins postPlugins).
Proof.
  unfold template_head.
  repeat (apply Forall_app; split); try apply spread_harmless;
    repeat (apply Forall_cons; split); try (by constructor);
    unfold harmless, made; intros p Hslot;
    repeat match type of Hslot with
           | context [if ?b then _ else _] => destruct b
           | context [match ?m with _ => _ end] => destruct m
           end;
    by inversion Hslot.
Qed.

Lemma trio_not_harmless front :
  ¬ Forall (λ p, server_only p = false) (front ++ server_only_trio).
Proof.
  rewrite Forall_app. intros [_ H]. by inversion H.
Qed.

Lemma not_server_only_not_in_trio (p : Plugin) :
  server_only p = false →
  p ∉ [Made clientInjectionsPlugin; Made cssAnalysisPlugin;
       Made importAnalysisPlugin].
Proof.
  intros Hp Hin.
  repeat (apply elem_of_cons in Hin as [->|Hin]; [discriminate Hp|]).
  by apply elem_of_nil in Hin.
Qed.

End PipelineFacts.

(** C5.  The list made by [resolvePlugins] ends with [clientInjectionsPlugin],
    [cssAnalysisPlugin], [importAnalysisPlugin], in that order, exactly when
    the command is not ['build'], and then none of the three occurs before
    that place; when the command is ['build'] none of the three occurs in the
    list at all. *)
Theorem C5_server_only_trio_last_and_only_outside_build :
  ∀ (resolveBuildPlugins :
       Pipeline.ResolvedConfig →
       list HookScheduler.Plugin * list HookScheduler.Plugin)
    (config : Pipeline.ResolvedConfig)
    (prePlugins normalPlugins postPlugins : list HookScheduler.Plugin),
    let plugins :=
      Pipeline.resolvePlugins resolveBuildPlugins config
        prePlugins normalPlugins postPlugins in
    let trio :=
      [ Pipeline.Made Pipeline.clientInjectionsPlugin;
        Pipeline.Made Pipeline.cssAnalysisPlugin;
        Pipeline.Made Pipeline.importAnalysisPlugin ] in
    ((∃ front, plugins = front ++ trio) ↔ Pipeline.command config ≠ "build")
    ∧ (Pipeline.command config = "build" →
         Forall (λ p, p ∉ trio) plugins)
    ∧ (Pipeline.command config ≠ "build" →
         ∃ front, plugins = front ++ trio
                  ∧ Forall (λ p, p ∉ trio) front).
Proof.
  intros rbp config prePlugins normalPlugins postPlugins plugins trio.
  assert (Hbuild : Pipeline.command config = "build" →
                   Forall (λ p, p ∉ trio) plugins).
  { intros Hcmd. unfold plugins, Pipeline.resolvePlugins.
    rewrite bool_decide_true by done. rewrite app_nil_r.
    eapply Forall_impl;
      [apply filter_Boolean_harmless, template_head_harmless|].
    intros p. apply not_server_only_not_in_trio. }
  assert (Hserve : Pipeline.command config ≠ "build" →
            ∃ front, plugins = front ++ trio
                     ∧ Forall (λ p, p ∉ trio) front).
  { intros Hcmd. unfold plugins, Pipeline.resolvePlugins.
    rewrite bool_decide_false by done.
    rewrite filter_Boolean_app, filter_Boolean_all.
    eexists. split; [reflexivity|].
    eapply Forall_impl;
      [apply filter_Boolean_harmless, template_head_harmless|].
    intros p. apply not_server_only_not_in_trio. }
  split_and!; [|done|done].
  split.
  - intros [front Hfront] Hcmd. specialize (Hbuild Hcmd).
    rewrite Hfront in Hbuild. apply Forall_app in Hbuild as [_ Hbuild].
    apply Forall_cons in Hbuild as [Hhead _]. apply Hhead, list_elem_of_here.
  - intros Hcmd. destruct (Hserve Hcmd) as (front & -> & _). by exists front.
Qed.

(** ** Transform-directive resolver *)

(** Case analysis on every condition tested in the goal. *)
Ltac case_ifs :=
  repeat match goal with
         | |- context [if ?b then _ else _] => destruct b
         end.

Section EffFacts.
Import Oxc.

Lemma quiet_ret {A} (a : A) : quiet (ret a).
Proof. constructor. Qed.

Lemma quiet_bind {A B} (m : Eff A) (k : A → Eff B) :
  quiet m → (∀ a, quiet (k a)) → quiet (bind m k).
Proof.
  unfold quiet, trace, bind. destruct m as [t [e|a]]; simpl; intros Hm Hk;
    [done|]. apply Forall_app. split; [done | apply Hk].
Qed.

Lemma quiet_try_catch {A} (body : Eff A) (handler : Exception → Eff A) :
  quiet body → (∀ e, quiet (handler e)) → quiet (try_catch body handler).
Proof.
  unfold quiet, trace, try_catch. destruct body as [t [e|a]]; simpl;
    intros Hm Hk; [|done]. apply Forall_app. split; [done | apply Hk].
Qed.

Lemma quiet_watch watcher file config :
  quiet (watch_if_possible watcher file config).
Proof.
  unfold watch_if_possible. destruct watcher, config; try apply quiet_ret.
  destruct (truthy_string file); [|apply quiet_ret].
  by repeat constructor.
Qed.

Lemma watch_total watcher file config :
  outcome (watch_if_possible watcher file config) = inr tt.
Proof.
  unfold watch_if_possible. destruct watcher, config; try done.
  by destruct (truthy_string file).
Qed.

Lemma quiet_jsx lang loaded o : quiet (apply_jsx_settings lang loaded o).
Proof.
  unfold apply_jsx_settings. cbv zeta.
  repeat match goal with
         | |- quiet (if ?b then _ else _) => destruct b
         | |- quiet (bind (if ?b then _ else _) _) => destruct b
         end;
    try apply quiet_ret; by repeat constructor.
Qed.

Lemma quiet_imports loaded o : quiet (apply_import_settings loaded o).
Proof.
  unfold apply_import_settings.
  destruct (verbatimModuleSyntax loaded); [apply quiet_ret|].
  cbv zeta.
  repeat match goal with
         | |- quiet (if ?b then _ else _) => destruct b
         end;
    try apply quiet_ret; by repeat constructor.
Qed.

Lemma quiet_resolve_options env filename options config watcher :
  quiet (resolve_options env filename options config watcher).
Proof.
  unfold resolve_options.
  destruct (_ || _); [|apply quiet_ret].
  unfold resolve_from_tsconfig. apply quiet_try_catch.
  - apply quiet_bind; [constructor|]. intros loaded.
    apply quiet_bind; [apply quiet_watch|]. intros _.
    apply quiet_bind; [apply quiet_jsx|]. intros o. apply quiet_imports.
  - intros e. apply quiet_bind; [|intros; constructor].
    destruct e; [apply quiet_watch | apply quiet_ret].
Qed.

Lemma check_result_trace env filename inMap result :
  trace (check_result env filename inMap result) = [].
Proof. unfold check_result. by destruct (errors result). Qed.

(** When the directive is resolved the engine is called once, last. *)
Lemma transformWithOxc_resolved env code filename options inMap config watcher t o :
  resolve_options env filename options config watcher = (t, inr o) →
  transformWithOxc env code filename options inMap config watcher
  = (t ++ [Transform filename code o],
     outcome (check_result env filename inMap (transform env filename code o))).
Proof.
  intros H. unfold transformWithOxc. rewrite H. unfold bind, emit. simpl.
  pose proof (check_result_trace env filename inMap
                (transform env filename code o)) as Hc.
  unfold trace in Hc. rewrite Hc. done.
Qed.

(** When the resolution throws the engine is not called. *)
Lemma transformWithOxc_thrown env code filename options inMap config watcher t e :
  resolve_options env filename options config watcher = (t, inl e) →
  transformWithOxc env code filename options inMap config watcher = (t, inl e).
Proof. intros H. unfold transformWithOxc. by rewrite H. Qed.

Lemma engine_call_inv env code filename options inMap config watcher o :
  Transform filename code o
    ∈ trace (transformWithOxc env code filename options inMap config watcher) →
  ∃ t, resolve_options env filename options config watcher = (t, inr o).
Proof.
  intros Hin.
  pose proof (quiet_resolve_options env filename options config watcher) as Hq.
  destruct (resolve_options env filename options config watcher) as [t [e|o']] eqn:Hr.
  - rewrite (transformWithOxc_thrown _ _ _ _ _ _ _ _ _ Hr) in Hin. simpl in Hin.
    unfold quiet in Hq. simpl in Hq. rewrite Forall_forall in Hq.
    by specialize (Hq _ Hin).
  - rewrite (transformWithOxc_resolved _ _ _ _ _ _ _ _ _ Hr) in Hin. simpl in Hin.
    apply elem_of_app in Hin as [Hin|Hin].
    + unfold quiet in Hq. simpl in Hq. rewrite Forall_forall in Hq.
      by specialize (Hq _ Hin).
    + apply list_elem_of_singleton in Hin. injection Hin as ->. by exists t.
Qed.

End EffFacts.

(** C7.  Whenever [transformWithOxc] reaches the engine, it throws exactly
    when the engine's result holds one or more errors, and the error thrown
    carries the first of them; when the result holds no error it returns the
    engine's result with the map replaced. *)
Theorem C7_throws_first_engine_error :
  ∀ (env : Oxc.Collaborators) (code filename : string)
    (options : option Oxc.OxcTransformOptions) (inMap : option Oxc.SourceMap)
    (config : option Oxc.ResolvedConfig) (watcher : option Oxc.Watcher)
    (directive : Oxc.OxcTransformOptions),
    let run := Oxc.transformWithOxc env code filename options inMap config watcher in
    let result := Oxc.transform env filename code directive in
    Oxc.Transform filename code directive ∈ Oxc.trace run →
    ((∃ e, Oxc.outcome run = inl e) ↔ Oxc.errors result ≠ [])
    ∧ (∀ first rest, Oxc.errors result = first :: rest →
         Oxc.outcome run = inl (Oxc.JsError first))
    ∧ (Oxc.errors result = [] →
         Oxc.outcome run
         = inr (Oxc.mkResult (Oxc.code result)
                  (Oxc.combine_maps env filename inMap result) [])).
Proof.
  intros env code filename options inMap config watcher directive run result Hin.
  destruct (engine_call_inv _ _ _ _ _ _ _ _ Hin) as [t Hr].
  unfold run. rewrite (transformWithOxc_resolved _ _ _ _ _ _ _ _ _ Hr).
  clear Hin Hr run. unfold Oxc.check_result, Oxc.outcome.
  fold result. clearbody result.
  destruct (Oxc.errors result) as [|first rest] eqn:He; simpl.
  - split_and!; [|done|done].
    split; [by intros [e ?]|done].
  - split_and!; [|by intros ? ? [= -> _]|done].
    split; [done|]. intros _. by eexists.
Qed.

Lemma C7_witness :
  let run := Oxc.transformWithOxc Oxc.failing_env "let x" "a.js" None None None None in
  Oxc.Transform "a.js" "let x" (Oxc.spread_options None "js") ∈ Oxc.trace run
  ∧ Oxc.outcome run = inl (Oxc.JsError "Unexpected token").
Proof.
  assert (Hin : Oxc.Transform "a.js" "let x" (Oxc.spread_options None "js")
                ∈ Oxc.trace (Oxc.transformWithOxc Oxc.failing_env "let x" "a.js"
                               None None None None)).
  { vm_compute. apply list_elem_of_here. }
  split; [exact Hin|].
  exact (proj1 (proj2 (C7_throws_first_engine_error Oxc.failing_env "let x" "a.js"
                         None None None None _ Hin))
           "Unexpected token" ["second"] eq_refl).
Defined.

(** C8.  When the dialect is ['ts'] or ['tsx'] and loading the settings fails
    with a parse error that names the settings file, and a watcher and a
    configuration were given, [transformWithOxc] registers that file with the
    watcher and then throws the very same error; nothing else happens, and the
    engine is not called. *)
Theorem C8_parse_error_is_watched_then_rethrown :
  ∀ (env : Oxc.Collaborators) (code filename : string)
    (options : option Oxc.OxcTransformOptions) (inMap : option Oxc.SourceMap)
    (config : Oxc.ResolvedConfig) (watcher : Oxc.Watcher)
    (message file : string),
    Oxc.select_lang options filename = "ts"
    ∨ Oxc.select_lang options filename = "tsx" →
    Oxc.loadTsconfigJsonForFile env filename (Some config)
      = inl (Oxc.TSConfckParseError message (Some file)) →
    file ≠ "" →
    Oxc.transformWithOxc env code filename options inMap (Some config) (Some watcher)
    = ([Oxc.EnsureWatchedFile watcher file (Pipeline.root config)],
       inl (Oxc.TSConfckParseError message (Some file))).
Proof.
  intros env code filename options inMap config watcher message file Hlang Hload Hfile.
  apply transformWithOxc_thrown.
  unfold Oxc.resolve_options.
  replace (String.eqb (Oxc.select_lang options filename) "ts"
           || String.eqb (Oxc.select_lang options filename) "tsx") with true
    by (destruct Hlang as [-> | ->]; reflexivity).
  unfold Oxc.resolve_from_tsconfig. rewrite Hload. simpl.
  apply String.eqb_neq in Hfile. by rewrite Hfile.
Qed.

Lemma C8_witness :
  (Oxc.select_lang None "comp.mts" = "ts" ∨ Oxc.select_lang None "comp.mts" = "tsx")
  ∧ Oxc.loadTsconfigJsonForFile Oxc.failing_env "comp.mts" (Some Oxc.sample_config)
    = inl (Oxc.TSConfckParseError "parse failed" (Some "/p/tsconfig.json"))
  ∧ "/p/tsconfig.json" ≠ ""
  ∧ Oxc.transformWithOxc Oxc.failing_env "let x" "comp.mts" None None
      (Some Oxc.sample_config) (Some 5)
    = ([Oxc.EnsureWatchedFile 5 "/p/tsconfig.json" "/p/app"],
       inl (Oxc.TSConfckParseError "parse failed" (Some "/p/tsconfig.json"))).
Proof.
  split_and!; [left; reflexivity | reflexivity | discriminate |].
  apply (C8_parse_error_is_watched_then_rethrown Oxc.failing_env "let x" "comp.mts"
           None None Oxc.sample_config 5 "parse failed" "/p/tsconfig.json");
    [left; reflexivity | reflexivity | discriminate].
Defined.

Section ImportSettingsFacts.
Import Oxc.

Lemma flag_of_with_jsx o j : flag_of (with_jsx o j) = flag_of o.
Proof. done. Qed.

Lemma flag_of_set o v : flag_of (set_onlyRemoveTypeImports o v) = Some v.
Proof. done. Qed.


Lemma imports_warning_shape ev :
  is_imports_warning ev →
  ∃ rest, ev = Warn (String "p" rest).
Proof. intros (preserve & notUsed & ->). by eexists. Qed.

(** The [jsx] settings never throw, leave the import flag alone and emit at
    most the warning about ['preserve']. *)
Lemma jsx_settings_total l loaded o :
  ∃ w o', apply_jsx_settings l loaded o = (w, inr o')
          ∧ flag_of o' = flag_of o
          ∧ Forall (λ ev, ¬ is_imports_warning ev) w.
Proof.
  unfold apply_jsx_settings. cbv zeta.
  case_ifs;
    eexists _, _; (split; [reflexivity|]); (split; [reflexivity|]);
    repeat constructor;
    intros Hw; apply imports_warning_shape in Hw as [rest Hw]; discriminate.
Qed.


(** The decision table of [typescript.onlyRemoveTypeImports]. *)
Lemma import_settings_cases loaded o :
  ∃ w o', apply_import_settings loaded o = (w, inr o')
    ∧ (∀ verbatim, verbatimModuleSyntax loaded = Some verbatim →
         flag_of o' = Some verbatim ∧ w = [])
    ∧ (verbatimModuleSyntax loaded = None →
       preserveValueImports loaded = None →
       importsNotUsedAsValues loaded = None →
         o' = o ∧ w = [])
    ∧ (verbatimModuleSyntax loaded = None →
       preserveValueImports loaded ≠ None ∨ importsNotUsedAsValues loaded ≠ None →
       let preserve := default false (preserveValueImports loaded) in
       let notUsed := default "remove" (importsNotUsedAsValues loaded) in
       (preserve = false → notUsed = "remove" →
          flag_of o' = Some true ∧ w = [])
       ∧ (preserve = true → notUsed = "preserve" ∨ notUsed = "error" →
            flag_of o' = Some false ∧ w = [])
       ∧ (¬ (preserve = false ∧ notUsed = "remove") →
          ¬ (preserve = true ∧ (notUsed = "preserve" ∨ notUsed = "error")) →
            o' = o ∧ w = [Warn (unsupported_imports_warning preserve notUsed)])).
Proof.
  unfold apply_import_settings.
  destruct (verbatimModuleSyntax loaded) as [verbatim|].
  { eexists _, _. split; [reflexivity|]. split_and!; try done. }
  destruct (preserveValueImports loaded) as [preserve|] eqn:Hp;
    destruct (importsNotUsedAsValues loaded) as [notUsed|] eqn:Hn;
    cbn [default bool_decide orb andb negb];
    rewrite ?bool_decide_true, ?bool_decide_false by naive_solver;
    cbn [default orb andb negb id].
  4:{ eexists _, _. split; [reflexivity|]. split_and!; try done.
      by intros _ [|]. }
  all: try destruct preserve; cbn [negb andb];
    repeat match goal with
           | |- context [String.eqb ?a ?b] =>
               destruct (String.eqb_spec a b); cbn [orb andb]
           end;
    eexists _, _; (split; [reflexivity|]);
    (split; [by intros ? [=]|]);
    (split; [intros _ ? ?; simplify_eq|]);
    intros _ _; cbv zeta; cbn [default];
    (split; [|split]); intros;
    try done; try congruence; try tauto;
    try (exfalso; intuition congruence).
Qed.

End ImportSettingsFacts.

Section LoadedSettingsFacts.
Import Oxc.

Lemma resolve_options_loaded env filename options config watcher tsconfig file :
  select_lang options filename = "ts" ∨ select_lang options filename = "tsx" →
  loadTsconfigJsonForFile env filename config = inr (tsconfig, file) →
  let l := select_lang options filename in
  let loaded := default empty_compilerOptions (compilerOptions tsconfig) in
  ∃ wj o1 wi o2,
    apply_jsx_settings l loaded (spread_options options l) = (wj, inr o1)
    ∧ apply_import_settings loaded o1 = (wi, inr o2)
    ∧ resolve_options env filename options config watcher
      = (trace (watch_if_possible watcher file config) ++ wj ++ wi, inr o2).
Proof.
  intros Hlang Hload l loaded.
  destruct (jsx_settings_total l loaded (spread_options options l))
    as (wj & o1 & Hj & _).
  destruct (import_settings_cases loaded o1) as (wi & o2 & Hi & _).
  exists wj, o1, wi, o2. split; [done|]. split; [done|].
  unfold resolve_options. fold l.
  replace (String.eqb l "ts" || String.eqb l "tsx") with true
    by (unfold l; destruct Hlang as [-> | ->]; reflexivity).
  unfold resolve_from_tsconfig. rewrite Hload.
  pose proof (watch_total watcher file config) as Hw.
  unfold lift, bind at 1. cbn [fst snd app].
  destruct (watch_if_possible watcher file config) as [tw [e|[]]];
    [discriminate|].
  unfold bind at 1. cbn [fst snd]. fold loaded. rewrite Hj.
  unfold bind. cbn [fst snd]. rewrite Hi. reflexivity.
Qed.

End LoadedSettingsFacts.



Section DialectFacts.
Import JsString Oxc.

Lemma validExtensionRE_test_spec s :
  validExtensionRE_test s = true ↔ ends_with_extension s.
Proof.
  split.
  - induction s as [|c rest IH]; [done|]. simpl.
    intros [Hhere|Hlater]%orb_true_iff.
    + apply andb_true_iff in Hhere as [Hhere Hword].
      apply andb_true_iff in Hhere as [Hdot Hne].
      apply Ascii.eqb_eq in Hdot as ->.
      exists "", rest. split_and!; [done| |done].
      intros ->. done.
    + destruct (IH Hlater) as (stem & ext & -> & Hne & Hword).
      by exists (String c stem), ext.
  - intros (stem & ext & -> & Hne & Hword).
    induction stem as [|c stem IH].
    + change ("" +:+ "." +:+ ext) with (String "." ext). simpl.
      rewrite Hword. apply String.eqb_neq in Hne. by rewrite Hne.
    + change (String c stem +:+ "." +:+ ext)
        with (String c (stem +:+ "." +:+ ext)).
      simpl. rewrite IH. apply orb_true_r.
Qed.

Lemma jsx_settings_lang l loaded o w o' :
  apply_jsx_settings l loaded o = (w, inr o') → lang o' = lang o.
Proof.
  unfold apply_jsx_settings. cbv zeta.
  case_ifs;
    by intros [= _ <-].
Qed.

Lemma import_settings_lang loaded o w o' :
  apply_import_settings loaded o = (w, inr o') → lang o' = lang o.
Proof.
  unfold apply_import_settings. cbv zeta.
  destruct (verbatimModuleSyntax loaded); [by intros [= _ <-]|].
  case_ifs;
    by intros [= _ <-].
Qed.

Lemma resolve_options_lang env filename options config watcher t o :
  resolve_options env filename options config watcher = (t, inr o) →
  lang o = Some (select_lang options filename).
Proof.
  unfold resolve_options.
  destruct (String.eqb (select_lang options filename) "ts"
            || String.eqb (select_lang options filename) "tsx") eqn:Hts.
  - destruct (loadTsconfigJsonForFile env filename config)
      as [e|[tsconfig file]] eqn:Hload.
    + unfold resolve_from_tsconfig. rewrite Hload.
      unfold lift, try_catch. unfold bind at 1. cbn [fst snd].
      destruct e; unfold bind;
        [destruct (watch_if_possible _ _ _) as [tw [e'|[]]] |];
        simpl; intros [=].
    + assert (Hlang : select_lang options filename = "ts"
                      ∨ select_lang options filename = "tsx").
      { apply orb_true_iff in Hts as [H|H]; apply String.eqb_eq in H; auto. }
      destruct (resolve_options_loaded env filename options config watcher
                  tsconfig file Hlang Hload)
        as (wj & o1 & wi & o2 & Hj & Hi & Hr).
      unfold resolve_options in Hr. rewrite Hts in Hr. rewrite Hr.
      intros [= _ <-].
      rewrite (import_settings_lang _ _ _ _ Hi), (jsx_settings_lang _ _ _ _ _ Hj).
      by destruct options.
  - intros [= _ <-]. by destruct options.
Qed.

End DialectFacts.

(** C4.  The dialect chosen by [transformWithOxc] is [options.lang] when that
    is set (and not empty); otherwise it is read off the extension of the file
    name, ['cjs'] and ['mjs'] giving ['js'], ['cts'] and ['mts'] giving
    ['ts'], any other extension being passed through.  The extension is that
    of the file name itself when the name ends with a dot and word characters,
    and that of the name without its query suffix otherwise.  The engine is
    called with that dialect.  ['comp.mts'] gives ['ts'],
    ['worker.cjs?raw'] gives ['js']. *)
Theorem C4_dialect_from_extension :
  ∀ (options : option Oxc.OxcTransformOptions) (filename : string),
    let supplied := options ≫= Oxc.lang in
    let chosen := Oxc.select_lang options filename in
    let ext := Oxc.extension_of filename in
    (∀ l, supplied = Some l → l ≠ "" → chosen = l)
    ∧ (supplied = None ∨ supplied = Some "" →
         (ext = "cjs" ∨ ext = "mjs" → chosen = "js")
         ∧ (ext = "cts" ∨ ext = "mts" → chosen = "ts")
         ∧ (ext ≠ "cjs" → ext ≠ "mjs" → ext ≠ "cts" → ext ≠ "mts" →
              chosen = ext))
    ∧ (JsString.ends_with_extension filename →
         ext = JsString.slice1 (JsString.extname filename))
    ∧ (¬ JsString.ends_with_extension filename →
         ext = JsString.slice1 (JsString.extname (JsString.cleanUrl filename)))
    ∧ (∀ env code inMap config watcher directive,
         Oxc.Transform filename code directive
           ∈ Oxc.trace (Oxc.transformWithOxc env code filename options inMap
                          config watcher) →
         Oxc.lang directive = Some chosen)
    ∧ Oxc.select_lang None "comp.mts" = "ts"
    ∧ Oxc.select_lang None "worker.cjs?raw" = "js".
Proof.
  intros options filename supplied chosen ext.
  split_and!; [| | | | |reflexivity|reflexivity].
  - intros l Hl Hne. unfold chosen, Oxc.select_lang. fold supplied. rewrite Hl.
    simpl. apply String.eqb_neq in Hne. by rewrite Hne.
  - intros Hnone.
    assert (Hchosen : chosen = Oxc.dialect_of_extension ext).
    { unfold chosen, Oxc.select_lang. fold supplied.
      by destruct Hnone as [-> | ->]. }
    rewrite Hchosen. unfold Oxc.dialect_of_extension.
    split_and!.
    + by intros [-> | ->].
    + by intros [-> | ->].
    + intros H1 H2 H3 H4.
      apply String.eqb_neq in H1, H2, H3, H4. by rewrite H1, H2, H3, H4.
  - intros Hext. unfold ext, Oxc.extension_of.
    by rewrite (proj2 (validExtensionRE_test_spec filename) Hext).
  - intros Hext. unfold ext, Oxc.extension_of.
    destruct (JsString.validExtensionRE_test filename) eqn:Htest; [|done].
    by apply validExtensionRE_test_spec in Htest.
  - intros env code inMap config watcher directive Hin.
    destruct (engine_call_inv _ _ _ _ _ _ _ _ Hin) as [t Hr].
    by apply resolve_options_lang in Hr.
Qed.

(** ** Migration of the legacy options *)

Section ConvertFacts.
Import Legacy.

Lemma includes_spec (xs : list string) (s : string) :
  includes xs s = true ↔ s ∈ xs.
Proof.
  unfold includes. induction xs as [|x xs IH]; simpl.
  - split; [done | by intros ?%elem_of_nil].
  - rewrite orb_true_iff, IH, elem_of_cons, String.eqb_eq. done.
Qed.

Lemma convert_loader_cases by_or_at accepted loader :
  (∀ l, loader = Some l → l ≠ "" →
     (l ∈ accepted → convert_loader by_or_at accepted loader = (Some l, []))
     ∧ (l ∉ accepted →
          convert_loader by_or_at accepted loader
          = (None, ["The esbuild loader " +:+ l +:+ " is not supported "
                    +:+ by_or_at +:+ " oxc"])))
  ∧ (loader = None ∨ loader = Some "" →
       convert_loader by_or_at accepted loader = (None, [])).
Proof.
  unfold convert_loader. split.
  - intros l -> Hne. simpl. apply String.eqb_neq in Hne. rewrite Hne. simpl.
    split; intros Hin.
    + by rewrite (proj2 (includes_spec accepted l) Hin).
    + destruct (includes accepted l) eqn:E; [|done].
      by apply includes_spec in E.
  - by intros [-> | ->].
Qed.

End ConvertFacts.

(** The current revision of [convertEsbuildConfigToOxcConfig] sets [lang] to
    the legacy loader exactly when the loader is one of ['js'], ['jsx'],
    ['ts'], ['tsx']; any other loader is dropped with a warning.  The legacy
    [sourcemap] is passed through when it is [true], [false] or unset,
    becomes [true] for ['external'], is dropped without a warning for
    ['linked'], and is dropped with a warning for any other value. *)
Theorem current_revision_migrates_loader_and_sourcemap :
  ∀ (esbuildConfig : Legacy.ESBuildOptions),
    let converted := OxcConvert.convertEsbuildConfigToOxcConfig esbuildConfig in
    let lang := Legacy.oxc_lang (fst converted) in
    let sourcemap := Legacy.oxc_sourcemap (fst converted) in
    ∃ about_loader about_sourcemap : list string,
      snd converted
        = snd (Legacy.convert_jsx "by" esbuildConfig)
          ++ about_loader ++ about_sourcemap
      ∧ (∀ l, Legacy.loader esbuildConfig = Some l → l ≠ "" →
           (lang = Some l ↔ l ∈ Legacy.dialect_tags)
           ∧ (l ∈ Legacy.dialect_tags → about_loader = [])
           ∧ (l ∉ Legacy.dialect_tags →
                lang = None
                ∧ about_loader
                  = ["The esbuild loader " +:+ l +:+ " is not supported by oxc"]))
      ∧ (Legacy.loader esbuildConfig = None
         ∨ Legacy.loader esbuildConfig = Some "" →
           lang = None ∧ about_loader = [])
      ∧ (∀ b, Legacy.sourcemap esbuildConfig = Some (Legacy.SmBool b) →
           sourcemap = Some b ∧ about_sourcemap = [])
      ∧ (Legacy.sourcemap esbuildConfig = None →
           sourcemap = None ∧ about_sourcemap = [])
      ∧ (Legacy.sourcemap esbuildConfig = Some (Legacy.SmString "external") →
           sourcemap = Some true ∧ about_sourcemap = [])
      ∧ (Legacy.sourcemap esbuildConfig = Some (Legacy.SmString "linked") →
           sourcemap = None ∧ about_sourcemap = [])
      ∧ (∀ s, Legacy.sourcemap esbuildConfig = Some (Legacy.SmString s) →
           s ≠ "external" → s ≠ "linked" →
           sourcemap = None
           ∧ about_sourcemap
             = ["The esbuild sourcemap " +:+ s +:+ " is not supported by oxc"]).
Proof.
  intros esbuildConfig converted lang sourcemap.
  unfold lang, sourcemap, converted, OxcConvert.convertEsbuildConfigToOxcConfig.
  destruct (Legacy.convert_jsx "by" esbuildConfig) as [j w_jsx].
  destruct (convert_loader_cases "by" Legacy.dialect_tags
              (Legacy.loader esbuildConfig)) as [Hset Hunset].
  change ["js"; "jsx"; "ts"; "tsx"] with Legacy.dialect_tags.
  destruct (Legacy.convert_loader "by" Legacy.dialect_tags
              (Legacy.loader esbuildConfig)) as [l0 w_loader].
  destruct (OxcConvert.convert_sourcemap (Legacy.sourcemap esbuildConfig))
    as [sm w_sourcemap] eqn:Hsm.
  exists w_loader, w_sourcemap. simpl.
  split_and!; [done| | | | | | |].
  - intros l Hl Hne. destruct (Hset l Hl Hne) as [Hin Hout].
    destruct (decide (l ∈ Legacy.dialect_tags)) as [Hmem|Hmem].
    + specialize (Hin Hmem). injection Hin as -> ->. by split_and!.
    + specialize (Hout Hmem). injection Hout as -> ->.
      split_and!; [by split|done|done].
  - intros Hnone. specialize (Hunset Hnone). by injection Hunset as -> ->.
  - intros b Hb. rewrite Hb in Hsm. by injection Hsm as <- <-.
  - intros Hnone. rewrite Hnone in Hsm. by injection Hsm as <- <-.
  - intros Hext. rewrite Hext in Hsm. by injection Hsm as <- <-.
  - intros Hlinked. rewrite Hlinked in Hsm. by injection Hsm as <- <-.
  - intros s Hs Hne1 Hne2. rewrite Hs in Hsm. simpl in Hsm.
    apply String.eqb_neq in Hne1, Hne2. rewrite Hne1, Hne2 in Hsm.
    by injection Hsm as <- <-.
Qed.

Lemma current_revision_keeps_loader_js :
  Legacy.oxc_lang
    (fst (OxcConvert.convertEsbuildConfigToOxcConfig Legacy.sample_options))
  = Some "js"
  ∧ snd (OxcConvert.convertEsbuildConfigToOxcConfig Legacy.sample_options) = [].
Proof.
  destruct (current_revision_migrates_loader_and_sourcemap Legacy.sample_options)
    as (about_loader & about_sourcemap & Hw & Hloader & _).
  destruct (Hloader "js" eq_refl ltac:(discriminate)) as (Hlang & _ & _).
  split; [|reflexivity].
  apply Hlang. apply list_elem_of_here.
Qed.

(** C9.  The earlier revision of [convertEsbuildConfigToOxcConfig] does not
    do what the current one does: its list of accepted loaders is ['.js'],
    ['.jsx'], ['.ts'], ['tsx'], and its [sourcemap] switch knows [true] and
    [false] only.  For the options [{ jsx: 'automatic', loader: 'js' }] it
    leaves [lang] unset and warns about the loader and about the unset
    [sourcemap]; every string value of [sourcemap], ['external'] and
    ['linked'] included, is warned about; of the four dialect tags only
    ['tsx'] is accepted. *)
Theorem C9_earlier_revision_drops_loader_js :
  OxcConvertEarlier.convertEsbuildConfigToOxcConfig Legacy.sample_options
  = (Legacy.mkOxcOptions None None None
       (Oxc.mkJsx None None None (Some "automatic") None None) None None None,
     ["The esbuild loader js is not supported at oxc";
      "The esbuild sourcemap undefined is not supported at oxc"])
  ∧ (∀ s, OxcConvertEarlier.convert_sourcemap (Some (Legacy.SmString s))
          = (None, ["The esbuild sourcemap " +:+ s +:+ " is not supported at oxc"]))
  ∧ (∀ l, l ∈ Legacy.dialect_tags →
          fst (Legacy.convert_loader "at" [".js"; ".jsx"; ".ts"; "tsx"] (Some l))
          = Some l ↔ l = "tsx")
  ∧ OxcConvert.convertEsbuildConfigToOxcConfig Legacy.sample_options
    = (Legacy.mkOxcOptions None None None
         (Oxc.mkJsx None None None (Some "automatic") None None)
         (Some "js") None None,
       []).
Proof.
  split_and!; [reflexivity | by intros s | | reflexivity].
  intros l Hl. unfold Legacy.dialect_tags in Hl.
  repeat (apply elem_of_cons in Hl as [-> | Hl]); try by apply elem_of_nil in Hl.
  all: split; intros H; try discriminate H; reflexivity.
Qed.

(** ** Evaluations on sample inputs *)

Lemma C1_witness :
  HookScheduler.name
    <$> HookScheduler.getSortedPluginsByHook "transform"
          HookScheduler.sample_plugins
  = ["c"; "f"; "a"; "e"; "b"; "h"]
  ∧ HookScheduler.getSortedPluginsByHook "transform" HookScheduler.sample_plugins
    = HookScheduler.three_buffer_partition "transform"
        HookScheduler.sample_plugins.
Proof.
  split; [vm_compute; reflexivity|].
  exact (proj1 (C1_splice_insertion_is_stable_partition "transform"
                  HookScheduler.sample_plugins)).
Defined.

Lemma C4_witness :
  Oxc.select_lang (Some (Oxc.mkOptions (Some "tsx") None None None None None))
                  "comp.mts"
  = "tsx".
Proof.
  apply (proj1 (C4_dialect_from_extension
                  (Some (Oxc.mkOptions (Some "tsx") None None None None None))
                  "comp.mts") "tsx"); [reflexivity | discriminate].
Defined.

Lemma C5_witness :
  (∃ front,
     Pipeline.resolvePlugins (λ _, ([], [])) Pipeline.sample_serve
       [] HookScheduler.sample_plugins []
     = front ++ [ Pipeline.Made Pipeline.clientInjectionsPlugin;
                  Pipeline.Made Pipeline.cssAnalysisPlugin;
                  Pipeline.Made Pipeline.importAnalysisPlugin ])
  ∧ Forall (λ p, p ∉ [ Pipeline.Made Pipeline.clientInjectionsPlugin;
                       Pipeline.Made Pipeline.cssAnalysisPlugin;
                       Pipeline.Made Pipeline.importAnalysisPlugin ])
      (Pipeline.resolvePlugins (λ _, (HookScheduler.sample_plugins, []))
         Pipeline.sample_build [] HookScheduler.sample_plugins []).
Proof.
  split.
  - apply (proj1 (C5_server_only_trio_last_and_only_outside_build
                    (λ _, ([], [])) Pipeline.sample_serve
                    [] HookScheduler.sample_plugins [])).
    discriminate.
  - apply (proj1 (proj2 (C5_server_only_trio_last_and_only_outside_build
                    (λ _, (HookScheduler.sample_plugins, []))
                    Pipeline.sample_build [] HookScheduler.sample_plugins []))).
    reflexivity.
Defined.

Lemma C10_witness :
  match BuildOptions.resolveBuildOptions BuildOptions.sample_raw with
  | BuildOptions.Return resolved =>
      resolved !! "outDir" = Some (BuildOptions.VStr "out")
      ∧ resolved !! "minify" = Some (BuildOptions.VBool false)
      ∧ resolved !! "assetsDir" = Some (BuildOptions.VStr "assets")
      ∧ resolved !! "base" = Some (BuildOptions.VStr "/app/")
  | BuildOptions.ThrowTypeError => False
  end.
Proof.
  pose proof (C10_only_base_is_rewritten BuildOptions.sample_raw) as H.
  destruct (BuildOptions.resolveBuildOptions BuildOptions.sample_raw)
    as [resolved|] eqn:E.
  - destruct H as (Hkept & Hdefault & _ & base & Hbase & Hresolved).
    split_and!.
    + apply Hkept; [discriminate | reflexivity].
    + apply Hkept; [discriminate | reflexivity].
    + rewrite Forall_forall in Hdefault.
      apply (Hdefault ("assetsDir", BuildOptions.VStr "assets"));
        [do 2 apply list_elem_of_further; apply list_elem_of_here | reflexivity].
    + rewrite Hresolved. vm_compute in Hbase. by injection Hbase as <-.
  - discriminate E.
Defined.

(** * Part III: further properties of the code *)

(** ** Hook scheduler and hook utilities *)

Section HookSchedulerMore.
Import HookScheduler.

Lemma sorted_as_tiers hookName plugins :
  getSortedPluginsByHook hookName plugins
  = filter (in_tier hookName TierPre) plugins
    ++ filter (in_tier hookName TierNormal) plugins
    ++ filter (in_tier hookName TierPost) plugins.
Proof. rewrite splice_is_three_buffer. apply three_buffer_filters. Qed.

Lemma sorted_implements hookName plugins p :
  p ∈ getSortedPluginsByHook hookName plugins →
  truthy (get_hook p hookName) = true.
Proof.
  rewrite sorted_as_tiers, !elem_of_app, !list_elem_of_filter.
  unfold in_tier. intros [[Ht _]|[[Ht _]|[Ht _]]];
    destruct (truthy (get_hook p hookName)) eqn:E; try done;
    apply branch_none in E; congruence.
Qed.

End HookSchedulerMore.

(** X1.  Sorting is idempotent: the plugins returned for a hook, sorted again
    for the same hook, come back in the same order. *)
Theorem sorting_sorted_plugins_changes_nothing :
  ∀ (hookName : string) (plugins : list HookScheduler.Plugin),
    HookScheduler.getSortedPluginsByHook hookName
      (HookScheduler.getSortedPluginsByHook hookName plugins)
    = HookScheduler.getSortedPluginsByHook hookName plugins.
Proof.
  intros hookName plugins.
  rewrite (sorted_as_tiers hookName
             (HookScheduler.getSortedPluginsByHook hookName plugins)).
  rewrite (sorted_as_tiers hookName plugins) at 1 2 3.
  rewrite !filter_tier_partition. symmetry. apply sorted_as_tiers.
Qed.

(** X2.  Sorting a list followed by another list: each tier of the result is
    the tier of the first list followed by the tier of the second one. *)
Theorem sorting_appended_plugins :
  ∀ (hookName : string) (first second : list HookScheduler.Plugin),
    HookScheduler.getSortedPluginsByHook hookName (first ++ second)
    = (filter (HookScheduler.in_tier hookName HookScheduler.TierPre) first
       ++ filter (HookScheduler.in_tier hookName HookScheduler.TierPre) second)
      ++ (filter (HookScheduler.in_tier hookName HookScheduler.TierNormal) first
          ++ filter (HookScheduler.in_tier hookName HookScheduler.TierNormal) second)
      ++ (filter (HookScheduler.in_tier hookName HookScheduler.TierPost) first
          ++ filter (HookScheduler.in_tier hookName HookScheduler.TierPost) second).
Proof.
  intros hookName first second. by rewrite sorted_as_tiers, !filter_app.
Qed.

Section HookUtilsFacts.
Import HookScheduler HookUtils.

Lemma getSortedPlugins_coherent plugins cache h :
  coherent plugins cache →
  fst (getSortedPlugins plugins cache h) = getSortedPluginsByHook h plugins
  ∧ coherent plugins (snd (getSortedPlugins plugins cache h))
  ∧ dom (snd (getSortedPlugins plugins cache h)) = {[h]} ∪ dom cache.
Proof.
  intros Hc. unfold getSortedPlugins.
  destruct (cache !! h) as [sorted|] eqn:Hh; simpl.
  - split_and!; [by apply Hc | done |].
    apply elem_of_dom_2 in Hh. symmetry.
    by apply subseteq_union_1_L, singleton_subseteq_l.
  - split_and!; [done| |by rewrite dom_insert_L].
    intros h' sorted'. rewrite lookup_insert.
    case_decide as Heq; [|by apply Hc]. intros [= <-]. by subst.
Qed.

Lemma ask_coherent plugins cache q :
  coherent plugins cache →
  fst (ask plugins cache q) = answer_afresh plugins q
  ∧ coherent plugins (snd (ask plugins cache q))
  ∧ dom (snd (ask plugins cache q)) = {[hook_of q]} ∪ dom cache.
Proof.
  intros Hc. destruct q as [h|h]; simpl;
    destruct (getSortedPlugins_coherent plugins cache h Hc) as (Heq & Hc' & Hdom).
  - split_and!; [by rewrite Heq | done | done].
  - split_and!; [by rewrite Heq | done | done].
Qed.

Lemma ask_all_coherent plugins qs : ∀ cache,
  coherent plugins cache →
  fst (ask_all plugins cache qs) = answer_afresh plugins <$> qs
  ∧ coherent plugins (snd (ask_all plugins cache qs))
  ∧ dom (snd (ask_all plugins cache qs))
    = list_to_set (hook_of <$> qs) ∪ dom cache.
Proof.
  induction qs as [|q qs IH]; intros cache Hc; simpl.
  - split_and!; [done|done|]. by rewrite (left_id_L ∅ (∪)).
  - destruct (ask_coherent plugins cache q Hc) as (Heq & Hc' & Hdom).
    destruct (IH _ Hc') as (Heqs & Hcs & Hdoms).
    split_and!; [by rewrite Heq, Heqs | done |].
    rewrite Hdoms, Hdom, (assoc_L (∪)).
    by rewrite (comm_L (∪) (list_to_set _) {[hook_of q]}).
Qed.

Lemma handlers_of_implemented h (l : list Plugin) :
  Forall (λ p, truthy (get_hook p h) = true) l →
  ∃ handlers,
    handlers_of h l = inr handlers
    ∧ Forall2 (λ p handler,
                 get_hook p h = Some (HookFunction handler)
                 ∨ ∃ order, get_hook p h = Some (HookObject order (Some handler)))
              (filter (λ p, has_handler h p = true) l) handlers.
Proof.
  unfold handlers_of.
  induction 1 as [|p l Hp _ (handlers & Hmap & IH)]; [by eexists; split; constructor|].
  destruct (map_getHookHandler h l) as [e|raw] eqn:Hraw; [discriminate|].
  injection Hmap as <-. cbn [map_getHookHandler]. rewrite Hraw.
  destruct (get_hook p h) as [[| |handler|order [handler|]]|] eqn:E;
    try discriminate Hp; cbn [getHookHandler omap id option_bind];
    eexists; (split; [reflexivity|]).
  - rewrite filter_cons_True by (unfold has_handler; by rewrite E).
    constructor; [by left | exact IH].
  - rewrite filter_cons_True by (unfold has_handler; by rewrite E).
    constructor; [right; by exists order | exact IH].
  - rewrite filter_cons_False by (unfold has_handler; by rewrite E).
    exact IH.
Qed.

End HookUtilsFacts.

(** X3.  The cache of [createPluginHookUtils] is transparent: whatever the
    sequence of calls of [getSortedPlugins] and [getSortedPluginHooks] on one
    utilities object, each call answers what it would answer without a cache,
    and the cache ends up holding exactly the hook names asked for. *)
Theorem hook_utils_cache_is_transparent :
  ∀ (plugins : list HookScheduler.Plugin) (queries : list HookUtils.Query),
    fst (HookUtils.ask_all plugins ∅ queries)
    = HookUtils.answer_afresh plugins <$> queries
    ∧ dom (snd (HookUtils.ask_all plugins ∅ queries))
      = list_to_set (HookUtils.hook_of <$> queries)
    ∧ HookUtils.coherent plugins (snd (HookUtils.ask_all plugins ∅ queries)).
Proof.
  intros plugins queries.
  destruct (ask_all_coherent plugins queries ∅) as (Heq & Hc & Hdom).
  { intros h sorted Hh. by rewrite lookup_empty in Hh. }
  split_and!; [done| |done]. by rewrite Hdom, dom_empty_L, (right_id_L ∅ (∪)).
Qed.

(** X4.  [getSortedPluginHooks] never throws, and hands back the handlers
    of the plugins of [getSortedPlugins] in their order: one for each plugin
    whose hook is a function (the function itself) or an object with a handler
    (its [handler]).  What [.filter(Boolean)] drops are the plugins whose
    hook is an object without a handler: [getSortedPlugins] keeps them,
    [getSortedPluginHooks] has nothing for them. *)
Theorem sorted_hooks_are_the_handlers_of_sorted_plugins :
  ∀ (hookName : string) (plugins : list HookScheduler.Plugin)
    (cache : gmap string (list HookScheduler.Plugin)),
    HookUtils.coherent plugins cache →
    let sorted := fst (HookUtils.getSortedPlugins plugins cache hookName) in
    ∃ handlers,
      fst (HookUtils.getSortedPluginHooks plugins cache hookName) = inr handlers
      ∧ Forall2 (λ p handler,
                   HookScheduler.get_hook p hookName
                     = Some (HookScheduler.HookFunction handler)
                   ∨ ∃ order, HookScheduler.get_hook p hookName
                              = Some (HookScheduler.HookObject order (Some handler)))
                (filter (λ p, HookUtils.has_handler hookName p = true) sorted)
                handlers
      ∧ (∀ p, p ∈ sorted →
           (HookUtils.has_handler hookName p = false
            ↔ ∃ order, HookScheduler.get_hook p hookName
                       = Some (HookScheduler.HookObject order None))).
Proof.
  intros hookName plugins cache Hc sorted.
  destruct (getSortedPlugins_coherent plugins cache hookName Hc) as (Heq & _).
  assert (Himpl : Forall (λ p, HookScheduler.truthy
                                 (HookScheduler.get_hook p hookName) = true) sorted).
  { unfold sorted. rewrite Heq. apply Forall_forall. intros p.
    apply sorted_implements. }
  destruct (handlers_of_implemented hookName sorted Himpl) as (handlers & Hh & Hall).
  exists handlers. split; [exact Hh|]. split; [exact Hall|].
  intros p Hp. rewrite Forall_forall in Himpl. specialize (Himpl p Hp).
  unfold HookUtils.has_handler.
  destruct (HookScheduler.get_hook p hookName) as [[| |h0|order [h0|]]|];
    try discriminate Himpl.
  - split; [discriminate | by intros [? [=]]].
  - split; [discriminate | by intros [? [=]]].
  - split; [by exists order | done].
Qed.

Lemma sorted_hooks_witness :
  HookUtils.coherent HookUtils.sample_handlerless ∅
  ∧ length (fst (HookUtils.getSortedPlugins HookUtils.sample_handlerless ∅
                   "transform")) = 3
  ∧ fst (HookUtils.getSortedPluginHooks HookUtils.sample_handlerless ∅ "transform")
    = inr [3; 2]
  ∧ ∃ handlers,
      fst (HookUtils.getSortedPluginHooks HookUtils.sample_handlerless ∅
             "transform") = inr handlers
      ∧ Forall2 (λ p handler,
                   HookScheduler.get_hook p "transform"
                     = Some (HookScheduler.HookFunction handler)
                   ∨ ∃ order, HookScheduler.get_hook p "transform"
                              = Some (HookScheduler.HookObject order (Some handler)))
                (filter (λ p, HookUtils.has_handler "transform" p = true)
                   (fst (HookUtils.getSortedPlugins HookUtils.sample_handlerless ∅
                           "transform")))
                handlers.
Proof.
  assert (Hc : HookUtils.coherent HookUtils.sample_handlerless ∅).
  { intros h sorted Hh. by rewrite lookup_empty in Hh. }
  split; [exact Hc|]. split; [vm_compute; reflexivity|].
  split; [vm_compute; reflexivity|].
  destruct (sorted_hooks_are_the_handlers_of_sorted_plugins "transform"
              HookUtils.sample_handlerless ∅ Hc) as (handlers & Hh & Hall & _).
  exists handlers. split; [exact Hh | exact Hall].
Defined.

(** ** Pipeline assembler *)

Section PipelineShapeFacts.
Import Pipeline PipelineShape.

Lemma filter_Boolean_cons (slot : Slot) (slots : list Slot) :
  filter_Boolean (slot :: slots) = filter_Boolean [slot] ++ filter_Boolean slots.
Proof. by destruct slot. Qed.

Lemma filter_Boolean_spread ps : filter_Boolean (spread ps) = supplied ps.
Proof.
  unfold spread, supplied. induction ps as [|p ps IH]; [done|].
  simpl. by f_equal.
Qed.

Lemma builtin_stages_app l1 l2 :
  builtin_stages (l1 ++ l2) = builtin_stages l1 ++ builtin_stages l2.
Proof. apply omap_app. Qed.

Lemma builtin_stages_supplied ps : builtin_stages (supplied ps) = [].
Proof. unfold supplied. by induction ps. Qed.

Lemma supplied_plugins_app l1 l2 :
  supplied_plugins (l1 ++ l2) = supplied_plugins l1 ++ supplied_plugins l2.
Proof. apply omap_app. Qed.

Lemma supplied_plugins_supplied ps : supplied_plugins (supplied ps) = ps.
Proof. unfold supplied. induction ps as [|p ps IH]; [done|]. simpl. by f_equal. Qed.

Lemma supplied_plugins_made (slots : list Slot) :
  Forall (λ slot, ∀ p, slot = Some p → ∃ b, p = Made b) slots →
  supplied_plugins (filter_Boolean slots) = [].
Proof.
  induction 1 as [|[p|] slots Hslot _ IH]; simpl; [done| |exact IH].
  destruct (Hslot p eq_refl) as [b ->]. exact IH.
Qed.

(** The list as its four runs of built-in slots and the lists handed in. *)
Lemma resolvePlugins_segments rbp config prePlugins normalPlugins postPlugins :
  ∃ s1 s2 s3 s4 s5 : list Slot,
    let bp := if is_build config then rbp config else ([], []) in
    resolvePlugins rbp config prePlugins normalPlugins postPlugins
    = filter_Boolean s1 ++ supplied prePlugins
      ++ filter_Boolean s2 ++ supplied normalPlugins
      ++ filter_Boolean s3 ++ supplied (fst bp)
      ++ filter_Boolean s4 ++ supplied postPlugins ++ supplied (snd bp)
      ++ filter_Boolean s5
    ∧ Forall (λ slot, ∀ p, slot = Some p → ∃ b, p = Made b)
             (s1 ++ s2 ++ s3 ++ s4 ++ s5)
    ∧ resolvePlugins (λ _, ([], [])) config [] [] []
      = filter_Boolean (s1 ++ s2 ++ s3 ++ s4 ++ s5)
    ∧ [Made (resolvePlugin (is_build config)); Made cssPlugin]
        `sublist_of` filter_Boolean s2
    ∧ [Made cssPostPlugin] `sublist_of` filter_Boolean s3.
Proof.
  unfold resolvePlugins, template_head, is_build.
  set (isBuild := bool_decide (command config = "build")).
  set (native := enableNativePlugin config).
  exists
    [ if negb isBuild
         && (isDepsOptimizerEnabled config false || isDepsOptimizerEnabled config true)
      then made optimizedDepsPlugin else None;
      if isBuild then made metadataPlugin else None;
      if negb (isWorker config) then made watchPackageDataPlugin else None;
      if negb isBuild then made preAliasPlugin else None;
      if native then made nativeAliasPlugin else made aliasPlugin ],
    [ match modulePreload config with
      | ModulePreloadOptions true =>
          if native
          then made (nativeModulePreloadPolyfillPlugin (negb isBuild || ssr config))
          else made modulePreloadPolyfillPlugin
      | _ => None
      end;
      made (resolvePlugin isBuild);
      made htmlInlineProxyPlugin;
      made cssPlugin;
      if esbuild config
      then (if native then made nativeTransformPlugin else made esbuildPlugin)
      else None;
      if native then made (nativeJsonPlugin isBuild) else made (jsonPlugin isBuild);
      if native then made nativeWasmHelperPlugin else made wasmHelperPlugin;
      made webWorkerPlugin;
      made assetPlugin ],
    [ if native then made nativeWasmFallbackPlugin else made wasmFallbackPlugin;
      made definePlugin;
      made cssPostPlugin;
      if isBuild then made buildHtmlPlugin else None;
      made workerImportMetaUrlPlugin;
      made assetImportMetaUrlPlugin ],
    [ if native then made nativeDynamicImportVarsPlugin
      else made dynamicImportVarsPlugin;
      if native then made nativeImportGlobPlugin else made importGlobPlugin ],
    (if isBuild then [] else Some <$> server_only_trio).
  cbv zeta. split_and!.
  - rewrite !filter_Boolean_app, !filter_Boolean_spread, <- !app_assoc.
    reflexivity.
  - rewrite !Forall_app. split_and!.
    5:{ destruct isBuild; simpl; repeat constructor;
        intros p [= <-]; by eexists. }
    all: repeat (apply Forall_cons; split); try (by constructor);
      unfold made; intros p Hslot;
      repeat match type of Hslot with
             | context [if ?b then _ else _] => destruct b
             | context [match ?m with _ => _ end] => destruct m
             end;
      inversion Hslot; by eexists.
  - destruct isBuild; simpl; rewrite ?app_nil_r, <- ?app_assoc; reflexivity.
  - unfold made. destruct (modulePreload config) as [|[]];
      destruct native, (esbuild config); simpl;
      repeat first [apply sublist_skip | apply sublist_cons | apply sublist_nil].
  - unfold made. destruct native, isBuild; simpl;
      repeat first [apply sublist_skip | apply sublist_cons | apply sublist_nil].
Qed.

End PipelineShapeFacts.

Lemma stages_ignore_supplied rbp config prePlugins normalPlugins postPlugins :
  PipelineShape.builtin_stages
    (Pipeline.resolvePlugins rbp config prePlugins normalPlugins postPlugins)
  = PipelineShape.builtin_stages
      (Pipeline.resolvePlugins (λ _, ([], [])) config [] [] []).
Proof.
  destruct (resolvePlugins_segments rbp config prePlugins normalPlugins postPlugins)
    as (s1 & s2 & s3 & s4 & s5 & -> & _ & -> & _).
  rewrite !filter_Boolean_app, !builtin_stages_app, !builtin_stages_supplied.
  by rewrite !app_nil_l.
Qed.

(** X5.  The built-in stages of the pipeline and their order are fixed by the
    configuration alone: whatever plugins the caller and the build-plugin
    provider hand in, the stages made by [resolvePlugins] are those of the
    pipeline assembled from no plugin at all. *)
Theorem builtin_stages_depend_on_config_only :
  ∀ (resolveBuildPlugins :
       Pipeline.ResolvedConfig →
       list HookScheduler.Plugin * list HookScheduler.Plugin)
    (config : Pipeline.ResolvedConfig)
    (prePlugins normalPlugins postPlugins : list HookScheduler.Plugin),
    PipelineShape.builtin_stages
      (Pipeline.resolvePlugins resolveBuildPlugins config
         prePlugins normalPlugins postPlugins)
    = PipelineShape.builtin_stages
        (Pipeline.resolvePlugins (λ _, ([], [])) config [] [] []).
Proof. exact stages_ignore_supplied. Qed.

(** X6.  No plugin handed in is dropped, repeated or moved across another:
    the plugins of the pipeline that were not made by [resolvePlugins] are the
    [pre] plugins, the [normal] plugins, the provider's [pre] list, the [post]
    plugins and the provider's [post] list, in that order; outside build mode
    the provider contributes nothing. *)
Theorem supplied_plugins_are_kept_in_order :
  ∀ (resolveBuildPlugins :
       Pipeline.ResolvedConfig →
       list HookScheduler.Plugin * list HookScheduler.Plugin)
    (config : Pipeline.ResolvedConfig)
    (prePlugins normalPlugins postPlugins : list HookScheduler.Plugin),
    PipelineShape.supplied_plugins
      (Pipeline.resolvePlugins resolveBuildPlugins config
         prePlugins normalPlugins postPlugins)
    = if PipelineShape.is_build config
      then prePlugins ++ normalPlugins ++ fst (resolveBuildPlugins config)
           ++ postPlugins ++ snd (resolveBuildPlugins config)
      else prePlugins ++ normalPlugins ++ postPlugins.
Proof.
  intros rbp config prePlugins normalPlugins postPlugins.
  destruct (resolvePlugins_segments rbp config prePlugins normalPlugins postPlugins)
    as (s1 & s2 & s3 & s4 & s5 & -> & Hmade & _).
  rewrite !Forall_app in Hmade. destruct Hmade as (H1 & H2 & H3 & H4 & H5).
  rewrite !supplied_plugins_app, !supplied_plugins_supplied.
  rewrite !supplied_plugins_made by done.
  destruct (PipelineShape.is_build config); simpl; by rewrite ?app_nil_r.
Qed.

(** X7.  The order the rest of the system relies on: every [pre] plugin comes
    before the resolve stage, which comes before the style stage, which comes
    before every [normal] plugin; these come before the style post-processing
    stage, which comes before every [post] plugin. *)
Theorem resolution_then_style_then_style_post :
  ∀ (resolveBuildPlugins :
       Pipeline.ResolvedConfig →
       list HookScheduler.Plugin * list HookScheduler.Plugin)
    (config : Pipeline.ResolvedConfig)
    (prePlugins normalPlugins postPlugins : list HookScheduler.Plugin),
    PipelineShape.supplied prePlugins
    ++ [Pipeline.Made (Pipeline.resolvePlugin (PipelineShape.is_build config));
        Pipeline.Made Pipeline.cssPlugin]
    ++ PipelineShape.supplied normalPlugins
    ++ [Pipeline.Made Pipeline.cssPostPlugin]
    ++ PipelineShape.supplied postPlugins
    `sublist_of`
    Pipeline.resolvePlugins resolveBuildPlugins config
      prePlugins normalPlugins postPlugins.
Proof.
  intros rbp config prePlugins normalPlugins postPlugins.
  destruct (resolvePlugins_segments rbp config prePlugins normalPlugins postPlugins)
    as (s1 & s2 & s3 & s4 & s5 & -> & _ & _ & Hs2 & Hs3).
  apply sublist_inserts_l.
  apply sublist_app; [done|].
  apply sublist_app; [exact Hs2|].
  apply sublist_app; [done|].
  apply sublist_app; [exact Hs3|].
  apply sublist_inserts_l, sublist_inserts_l.
  apply sublist_inserts_r. done.
Qed.

Section PipelineModes.
Import Pipeline PipelineShape.

(** Membership in a list of stages that is known in full. *)
Ltac stage_listed := apply (bool_decide_unpack _); vm_compute; exact I.

Ltac stage_not_listed H :=
  apply (bool_decide_pack _) in H; vm_compute in H; exact H.

Lemma stages_by_mode config :
  let stages := builtin_stages (resolvePlugins (λ _, ([], [])) config [] [] []) in
  (metadataPlugin ∈ stages ↔ command config = "build")
  ∧ (buildHtmlPlugin ∈ stages ↔ command config = "build")
  ∧ (preAliasPlugin ∈ stages ↔ command config ≠ "build")
  ∧ (optimizedDepsPlugin ∈ stages ↔
       command config ≠ "build"
       ∧ (isDepsOptimizerEnabled config false = true
          ∨ isDepsOptimizerEnabled config true = true))
  ∧ (watchPackageDataPlugin ∈ stages ↔ isWorker config = false)
  ∧ (clientInjectionsPlugin ∈ stages ↔ command config ≠ "build").
Proof.
  unfold resolvePlugins, template_head. cbv zeta.
  destruct (bool_decide (command config = "build")) eqn:Hb;
    [apply bool_decide_eq_true in Hb | apply bool_decide_eq_false in Hb];
    destruct (isWorker config), (enableNativePlugin config), (esbuild config),
      (modulePreload config) as [|[]],
      (isDepsOptimizerEnabled config false),
      (isDepsOptimizerEnabled config true);
    cbn [negb andb orb];
    split_and!;
    (split;
     [ intros Hin;
       first [ solve [exfalso; stage_not_listed Hin]
             | solve [intuition (auto; congruence)] ]
     | intros Hcond;
       first [ solve [stage_listed]
             | solve [exfalso; intuition congruence] ] ]).
Qed.

End PipelineModes.

(** X8.  Which stages are tied to the run mode: the metadata stage and the
    HTML build stage are in the pipeline exactly in build mode; pre-aliasing
    and client injection exactly outside build mode; the optimized-deps stage
    exactly outside build mode when the optimizer is enabled for the client or
    for SSR; the package-data watcher exactly when the pipeline is not that of
    a worker. *)
Theorem stages_tied_to_the_run_mode :
  ∀ (resolveBuildPlugins :
       Pipeline.ResolvedConfig →
       list HookScheduler.Plugin * list HookScheduler.Plugin)
    (config : Pipeline.ResolvedConfig)
    (prePlugins normalPlugins postPlugins : list HookScheduler.Plugin),
    let stages :=
      PipelineShape.builtin_stages
        (Pipeline.resolvePlugins resolveBuildPlugins config
           prePlugins normalPlugins postPlugins) in
    (Pipeline.metadataPlugin ∈ stages ↔ Pipeline.command config = "build")
    ∧ (Pipeline.buildHtmlPlugin ∈ stages ↔ Pipeline.command config = "build")
    ∧ (Pipeline.preAliasPlugin ∈ stages ↔ Pipeline.command config ≠ "build")
    ∧ (Pipeline.optimizedDepsPlugin ∈ stages ↔
         Pipeline.command config ≠ "build"
         ∧ (Pipeline.isDepsOptimizerEnabled config false = true
            ∨ Pipeline.isDepsOptimizerEnabled config true = true))
    ∧ (Pipeline.watchPackageDataPlugin ∈ stages ↔
         Pipeline.isWorker config = false)
    ∧ (Pipeline.clientInjectionsPlugin ∈ stages ↔
         Pipeline.command config ≠ "build").
Proof.
  intros rbp config prePlugins normalPlugins postPlugins stages.
  unfold stages. rewrite stages_ignore_supplied. apply stages_by_mode.
Qed.

(** X9.  The native-implementation flag only chooses between the two members
    of a pair of equivalent stages: with the flag on and with the flag off the
    pipeline has the same length and, once every native stage is read as its
    portable counterpart, the same entries at the same places. *)
Theorem native_flag_swaps_stages_in_place :
  ∀ (resolveBuildPlugins :
       Pipeline.ResolvedConfig →
       list HookScheduler.Plugin * list HookScheduler.Plugin)
    (config : Pipeline.ResolvedConfig)
    (prePlugins normalPlugins postPlugins : list HookScheduler.Plugin),
    resolveBuildPlugins (PipelineShape.with_native config true)
      = resolveBuildPlugins (PipelineShape.with_native config false) →
    let native :=
      Pipeline.resolvePlugins resolveBuildPlugins
        (PipelineShape.with_native config true)
        prePlugins normalPlugins postPlugins in
    let portable :=
      Pipeline.resolvePlugins resolveBuildPlugins
        (PipelineShape.with_native config false)
        prePlugins normalPlugins postPlugins in
    PipelineShape.portable <$> native = PipelineShape.portable <$> portable
    ∧ length native = length portable.
Proof.
  intros rbp config prePlugins normalPlugins postPlugins Hrbp native portable.
  assert (Heq : PipelineShape.portable <$> native
                = PipelineShape.portable <$> portable).
  { unfold native, portable, Pipeline.resolvePlugins, Pipeline.template_head.
    cbv zeta. rewrite Hrbp. cbn [Pipeline.command Pipeline.isWorker
      Pipeline.modulePreload Pipeline.ssr Pipeline.enableNativePlugin
      Pipeline.esbuild Pipeline.isDepsOptimizerEnabled PipelineShape.with_native].
    rewrite !filter_Boolean_app, !fmap_app.
    destruct (bool_decide (Pipeline.command config = "build")),
      (Pipeline.modulePreload config) as [|[]], (Pipeline.esbuild config),
      (Pipeline.isWorker config),
      (Pipeline.isDepsOptimizerEnabled config false),
      (Pipeline.isDepsOptimizerEnabled config true);
      reflexivity. }
  split; [exact Heq|].
  apply (f_equal length) in Heq. by rewrite !length_fmap in Heq.
Qed.

Lemma native_flag_witness :
  PipelineShape.sample_provider (PipelineShape.with_native Pipeline.sample_build true)
    = PipelineShape.sample_provider (PipelineShape.with_native Pipeline.sample_build false)
  ∧ length (Pipeline.resolvePlugins PipelineShape.sample_provider
              (PipelineShape.with_native Pipeline.sample_build true)
              [] HookScheduler.sample_plugins [])
    = length (Pipeline.resolvePlugins PipelineShape.sample_provider
                (PipelineShape.with_native Pipeline.sample_build false)
                [] HookScheduler.sample_plugins []).
Proof.
  split; [reflexivity|].
  exact (proj2 (native_flag_swaps_stages_in_place PipelineShape.sample_provider
                  Pipeline.sample_build [] HookScheduler.sample_plugins []
                  eq_refl)).
Defined.

(** ** One production build *)

Section DoBuildFacts.
Import DoBuild.

(** The run of the [try] block, by cases on what the collaborators answer. *)
Lemma bundle_and_emit_cases env config :
  let options := build config in
  let input := input_of env config in
  let out := outDir_of env config in
  let pub := publicDir_of env config in
  let plugins := assemble_plugins config in
  let run := bundle_and_emit env config input out pub plugins in
  let asked := Rollup (rollup_options options input)
                      (rollupOptions_output options) plugins in
  match bundler_answer env config with
  | inl e => run = ([asked], inl e)
  | inr bundle =>
      ∃ work result,
        run = (asked :: Push bundle :: work, result)
        ∧ Forall (λ ev, is_push ev = false ∧ is_log ev = false) work
        ∧ (write options = false →
             work = [Generate bundle (output_options env options out)]
             ∧ result
               = match bundle_generate env bundle (output_options env options out)
                 with Some e => inl e | None => inr tt end)
        ∧ (write options = true →
             ∃ rest, work = EmptyDir out :: rest
                     ∧ Forall (λ ev, touches_disk ev = true) work)
        ∧ (result = inr tt →
             ∃ output,
               last work
               = Some (if write options then Write bundle output
                       else Generate bundle output))
  end.
Proof.
  intros options input out pub plugins run asked.
  unfold bundler_answer. fold options input plugins.
  unfold run, bundle_and_emit. fold options.
  destruct (rollup env (rollup_options options input)
              (rollupOptions_output options) plugins) as [e|bundle];
    [reflexivity|].
  unfold call, call_void, bind, ret; cbn [fst snd app].
  destruct (write options) eqn:Hw; cbn [fst snd app].
  - destruct (emptyDir env out) as [e1|]; cbn [fst snd app];
      [| destruct (existsSync env pub); cbn [fst snd app];
         [destruct (copyDir env pub out) as [e2|]; cbn [fst snd app] |];
         try destruct (bundle_write env bundle (output_options env options out))
           as [e3|]; cbn [fst snd app] ];
      eexists _, _; (split; [reflexivity|]);
      (split; [by repeat constructor|]);
      (split; [done|]);
      (split; [intros _; eexists; split; [reflexivity | by repeat constructor]|]);
      intros Hok; try discriminate Hok; by eexists.
  - eexists _, _. split; [reflexivity|].
    split; [by repeat constructor|].
    split; [done|]. split; [done|].
    intros Hok. by eexists.
Qed.

Lemma doBuild_unfold env mode :
  doBuild env mode
  = match resolveConfig env (mode_or_production mode) with
    | inl e => ([ResolveConfig (mode_or_production mode)], inl e)
    | inr config =>
        let run :=
          bundle_and_emit env config (input_of env config) (outDir_of env config)
            (publicDir_of env config) (assemble_plugins config) in
        match snd run with
        | inl e =>
            (ResolveConfig (mode_or_production mode)
               :: fst run ++ log_failure env e, inl e)
        | inr tt => (ResolveConfig (mode_or_production mode) :: fst run, inr tt)
        end
    end.
Proof.
  unfold doBuild, call, bind. cbn [fst snd].
  destruct (resolveConfig env (mode_or_production mode)) as [e|config];
    [reflexivity|].
  cbv zeta. unfold input_of, outDir_of, publicDir_of, try_catch.
  destruct (bundle_and_emit env config _ _ _ _) as [t [e|[]]]; reflexivity.
Qed.

Lemma log_failure_shape env e :
  ∃ first more,
    log_failure env e = LogError first :: more
    ∧ length more ≤ 2
    ∧ Forall (λ ev, is_log ev = true) more
    ∧ first
      = chalk env Red
          ((if truthy_string (plugin e)
            then "[" +:+ default "" (plugin e) +:+ "] " else "") +:+ message e).
Proof.
  unfold log_failure.
  destruct (truthy_string (id e)), (truthy_string (frame e)); simpl;
    eexists _, _; (split; [reflexivity|]);
    (split; [simpl; lia|]); (split; [by repeat constructor | reflexivity]).
Qed.

End DoBuildFacts.

Section DoBuildRuns.
Import DoBuild.

Lemma filter_none {A} (P : A → Prop) `{∀ x, Decision (P x)} (l : list A) :
  Forall (λ x, ¬ P x) l → filter P l = [].
Proof.
  induction 1 as [|x l Hx _ IH]; [done|]. by rewrite filter_cons_False.
Qed.


Lemma log_failure_logs env e :
  Forall (λ ev, is_log ev = true) (log_failure env e).
Proof.
  destruct (log_failure_shape env e) as (first & more & -> & _ & Hmore & _).
  by constructor.
Qed.

End DoBuildRuns.

(** X10.  With [write] off a build stays off the disk: [doBuild] neither
    empties the output directory, nor looks for or copies the public
    directory, nor asks the bundle to write; when the bundler resolves, the
    bundle is asked to generate instead. *)
Theorem build_without_write_stays_off_disk :
  ∀ (env : DoBuild.Environment) (mode : option string)
    (config : DoBuild.ResolvedConfig),
    DoBuild.resolveConfig env (DoBuild.mode_or_production mode) = inr config →
    DoBuild.write (DoBuild.build config) = false →
    Forall (λ ev, DoBuild.touches_disk ev = false)
           (DoBuild.trace (DoBuild.doBuild env mode))
    ∧ (∀ bundle, DoBuild.bundler_answer env config = inr bundle →
         DoBuild.Generate bundle
           (DoBuild.output_options env (DoBuild.build config)
              (DoBuild.outDir_of env config))
         ∈ DoBuild.trace (DoBuild.doBuild env mode)).
Proof.
  intros env mode config Hconfig Hwrite.
  rewrite doBuild_unfold, Hconfig. cbv zeta.
  pose proof (bundle_and_emit_cases env config) as Hcases. cbv zeta in Hcases.
  destruct (DoBuild.bundler_answer env config) as [e|bundle].
  - rewrite Hcases. cbn [fst snd DoBuild.trace]. split; [|by intros ? [=]].
    apply Forall_cons. split; [done|].
    apply Forall_app. split; [by repeat constructor|].
    eapply Forall_impl; [apply log_failure_logs|]. by intros [].
  - destruct Hcases as (work & result & -> & _ & Hoff & _).
    destruct (Hoff Hwrite) as [-> ->]. cbn [fst snd].
    split.
    + destruct (DoBuild.bundle_generate env bundle _) as [e|];
        cbn [fst snd DoBuild.trace];
        (apply Forall_cons; split; [done|]); [|by repeat constructor].
      apply Forall_app. split; [by repeat constructor|].
      eapply Forall_impl; [apply log_failure_logs|]. by intros [].
    + intros ? [= <-].
      destruct (DoBuild.bundle_generate env bundle _) as [e|];
        cbn [fst snd DoBuild.trace];
        apply list_elem_of_further; try (apply elem_of_app; left);
        do 2 apply list_elem_of_further; apply list_elem_of_here.
Qed.

Lemma build_without_write_witness :
  DoBuild.resolveConfig (DoBuild.sample_env false (BuildOptions.VStr "esbuild"))
    (DoBuild.mode_or_production None)
  = inr (DoBuild.mkConfig "/p/app" [11; 12]
           (DoBuild.sample_options false (BuildOptions.VStr "esbuild")))
  ∧ DoBuild.write (DoBuild.sample_options false (BuildOptions.VStr "esbuild")) = false
  ∧ Forall (λ ev, DoBuild.touches_disk ev = false)
      (DoBuild.trace
         (DoBuild.doBuild (DoBuild.sample_env false (BuildOptions.VStr "esbuild"))
            None)).
Proof.
  split; [reflexivity|]. split; [reflexivity|].
  exact (proj1 (build_without_write_stays_off_disk
                  (DoBuild.sample_env false (BuildOptions.VStr "esbuild")) None
                  _ eq_refl eq_refl)).
Defined.



(** X12.  The bundle joins [paralellBuilds] exactly when the bundler resolves:
    one [push], of the handle the bundler answered, whether or not emitting
    succeeds afterwards; none when the configuration or the bundler fails. *)
Theorem bundle_is_registered_when_the_bundler_resolves :
  ∀ (env : DoBuild.Environment) (mode : option string),
    filter (λ ev, DoBuild.is_push ev = true)
           (DoBuild.trace (DoBuild.doBuild env mode))
    = match DoBuild.resolveConfig env (DoBuild.mode_or_production mode) with
      | inl _ => []
      | inr config =>
          match DoBuild.bundler_answer env config with
          | inl _ => []
          | inr bundle => [DoBuild.Push bundle]
          end
      end.
Proof.
  intros env mode. rewrite doBuild_unfold.
  destruct (DoBuild.resolveConfig env (DoBuild.mode_or_production mode))
    as [e0|config]; [reflexivity|].
  cbv zeta.
  pose proof (bundle_and_emit_cases env config) as Hcases. cbv zeta in Hcases.
  assert (Hlogs : ∀ e, filter (λ ev, DoBuild.is_push ev = true)
                              (DoBuild.log_failure env e) = []).
  { intros e. apply filter_none.
    eapply Forall_impl; [apply log_failure_logs|]. by intros []. }
  destruct (DoBuild.bundler_answer env config) as [e1|bundle].
  - rewrite Hcases. cbn [fst snd DoBuild.trace].
    rewrite filter_cons_False by done.
    rewrite filter_app, Hlogs, app_nil_r. by rewrite filter_cons_False.
  - destruct Hcases as (work & result & -> & Hquiet & _). cbn [fst snd].
    assert (Hwork : filter (λ ev, DoBuild.is_push ev = true) work = []).
    { apply filter_none. eapply Forall_impl; [exact Hquiet|].
      intros ev [Hp _]. by rewrite Hp. }
    destruct result as [e1|[]]; cbn [DoBuild.trace fst];
      rewrite filter_cons_False by done;
      rewrite ?app_comm_cons, ?filter_app, ?Hlogs, ?app_nil_r;
      rewrite filter_cons_False by done;
      rewrite filter_cons_True by done;
      by rewrite Hwork.
Qed.

(** X13.  The plugin array handed to the bundler: the plugins of the
    configuration come first, then those of [rollupOptions.plugins], in their
    own order; the built-in stages follow them; the minifier stage is among
    them exactly when [minify] is truthy and is not ['esbuild'], the manifest
    stage exactly when [emitManifest] is on; the size reporter is last. *)
Theorem bundler_plugins_are_assembled_in_order :
  ∀ (config : DoBuild.ResolvedConfig),
    let options := DoBuild.build config in
    let handed := DoBuild.assemble_plugins config in
    let own := DoBuild.Supplied
                 <$> (DoBuild.plugins config
                      ++ default [] (DoBuild.rollupOptions_plugins options)) in
    (∃ builtin,
       handed = own ++ builtin
       ∧ Forall (λ p, DoBuild.is_supplied p = false) builtin
       ∧ [DoBuild.buildHtmlPlugin; DoBuild.buildDefinePlugin;
          DoBuild.buildEsbuildPlugin] `prefix_of` builtin)
    ∧ last handed = Some DoBuild.sizeReporPlugin
    ∧ ((∃ terserOptions, DoBuild.terserPlugin terserOptions ∈ handed)
       ↔ DoBuild.truthy (DoBuild.minify options) = true
         ∧ DoBuild.minify options ≠ BuildOptions.VStr "esbuild")
    ∧ (DoBuild.buildManifestPlugin ∈ handed
       ↔ DoBuild.emitManifest options = true).
Proof.
  intros config options handed own.
  assert (Hown : ∀ p, p ∈ own → DoBuild.is_supplied p = true).
  { intros p (ref & -> & _)%list_elem_of_fmap. done. }
  assert (Hterser : DoBuild.uses_terser options = true
                    ↔ DoBuild.truthy (DoBuild.minify options) = true
                      ∧ DoBuild.minify options ≠ BuildOptions.VStr "esbuild").
  { unfold DoBuild.uses_terser.
    rewrite andb_true_iff, negb_true_iff, bool_decide_eq_false. done. }
  unfold handed, own, DoBuild.assemble_plugins. fold options.
  rewrite fmap_app.
  set (a := DoBuild.Supplied <$> DoBuild.plugins config).
  set (b := DoBuild.Supplied <$> default [] (DoBuild.rollupOptions_plugins options)).
  assert (Hab : ∀ p, p ∈ a ++ b → DoBuild.is_supplied p = true).
  { intros p Hp. apply Hown. unfold own. by rewrite fmap_app. }
  split_and!.
  - eexists. split; [by rewrite <- app_assoc|].
    split; [|by eexists].
    destruct (DoBuild.uses_terser options), (DoBuild.emitManifest options);
      by repeat constructor.
  - rewrite !app_assoc. by rewrite last_snoc.
  - rewrite <- Hterser. split.
    + intros [t Hin]. rewrite app_assoc in Hin.
      apply elem_of_app in Hin as [Hin|Hin]; [by apply Hab in Hin|].
      destruct (DoBuild.uses_terser options); [done|].
      destruct (DoBuild.emitManifest options); simpl in Hin;
        repeat (apply elem_of_cons in Hin as [Hin|Hin]; [discriminate Hin|]);
        by apply elem_of_nil in Hin.
    + intros ->. eexists. rewrite !elem_of_app.
      do 3 right. left. apply list_elem_of_here.
  - split.
    + intros Hin. rewrite app_assoc in Hin.
      apply elem_of_app in Hin as [Hin|Hin]; [by apply Hab in Hin|].
      destruct (DoBuild.emitManifest options); [done|].
      destruct (DoBuild.uses_terser options); simpl in Hin;
        repeat (apply elem_of_cons in Hin as [Hin|Hin]; [discriminate Hin|]);
        by apply elem_of_nil in Hin.
    + intros ->. rewrite !elem_of_app.
      do 4 right. left. apply list_elem_of_here.
Qed.

(** ** Build options *)

Section BuildOptionsMore.
Import BuildOptions BuildOptionsShape.

Lemma replace_last_non_slash_twice s :
  replace_last_non_slash (replace_last_non_slash s) = replace_last_non_slash s.
Proof.
  destruct (decide (s = "")) as [->|Hne]; [done|].
  destruct (last_char_nonempty s Hne) as [c Hc].
  destruct (decide (c = "/"%char)) as [->|Hslash].
  - by rewrite !(replace_keeps_slash _ Hc).
  - rewrite (replace_appends_slash _ _ Hc Hslash).
    apply replace_keeps_slash, last_char_snoc.
Qed.

Lemma defaults_dom : dom defaults = list_to_set option_names.
Proof. vm_compute. reflexivity. Qed.

Lemma resolved_form raw resolved :
  resolveBuildOptions raw = Return resolved →
  ∃ base,
    spread_over_defaults raw !! "base" = Some (VStr base)
    ∧ resolved
      = <["base" := VStr (replace_last_non_slash base)]> (spread_over_defaults raw).
Proof.
  unfold resolveBuildOptions.
  destruct (spread_over_defaults raw !! "base") as [[]|] eqn:Hb; try done.
  intros [= <-]. by eexists.
Qed.

End BuildOptionsMore.

(** X14.  Resolving is idempotent: options that [resolveBuildOptions] has
    returned are returned unchanged when they are resolved again. *)
Theorem resolving_resolved_options_changes_nothing :
  ∀ (raw : option (gmap string BuildOptions.JsValue))
    (resolved : gmap string BuildOptions.JsValue),
    BuildOptions.resolveBuildOptions raw = BuildOptions.Return resolved →
    BuildOptions.resolveBuildOptions (Some resolved)
    = BuildOptions.Return resolved.
Proof.
  intros raw resolved Hr.
  destruct (resolved_form raw resolved Hr) as (base & Hbase & ->).
  set (m := BuildOptions.spread_over_defaults raw) in *.
  set (b := BuildOptions.VStr (BuildOptions.replace_last_non_slash base)).
  assert (Hsame : BuildOptions.spread_over_defaults (Some (<["base" := b]> m))
                  = <["base" := b]> m).
  { unfold BuildOptions.spread_over_defaults. simpl.
    apply map_eq. intros k.
    destruct ((<["base" := b]> m) !! k) as [v|] eqn:Hk.
    - by apply lookup_union_Some_l.
    - rewrite lookup_union_r by done.
      apply lookup_insert_None in Hk as [Hk _].
      unfold m, BuildOptions.spread_over_defaults in Hk.
      by apply lookup_union_None in Hk as [_ Hk]. }
  unfold BuildOptions.resolveBuildOptions. rewrite Hsame.
  rewrite lookup_insert_eq. unfold b.
  rewrite replace_last_non_slash_twice.
  by rewrite insert_insert_eq.
Qed.

Lemma resolving_twice_witness :
  BuildOptions.resolveBuildOptions BuildOptions.sample_raw
  = BuildOptions.Return
      (default ∅ (BuildOptionsShape.resolved_of BuildOptions.sample_raw))
  ∧ BuildOptions.resolveBuildOptions
      (Some (default ∅ (BuildOptionsShape.resolved_of BuildOptions.sample_raw)))
    = BuildOptions.Return
        (default ∅ (BuildOptionsShape.resolved_of BuildOptions.sample_raw)).
Proof.
  assert (H : BuildOptions.resolveBuildOptions BuildOptions.sample_raw
              = BuildOptions.Return
                  (default ∅ (BuildOptionsShape.resolved_of BuildOptions.sample_raw))).
  { vm_compute. reflexivity. }
  split; [exact H|].
  exact (resolving_resolved_options_changes_nothing _ _ H).
Defined.

(** X15.  Whenever [resolveBuildOptions] returns, the result has exactly the
    properties of the raw object and the fifteen option names; each of the
    fifteen options has a value, and that value is [undefined] only if the raw
    object itself holds [undefined] under that name. *)
Theorem resolved_options_are_complete :
  ∀ (raw : option (gmap string BuildOptions.JsValue))
    (resolved : gmap string BuildOptions.JsValue),
    BuildOptions.resolveBuildOptions raw = BuildOptions.Return resolved →
    dom resolved
      = dom (default ∅ raw) ∪ list_to_set BuildOptionsShape.option_names
    ∧ ∀ name, name ∈ BuildOptionsShape.option_names →
        ∃ v, resolved !! name = Some v
             ∧ (v = BuildOptions.VUndefined →
                  default ∅ raw !! name = Some BuildOptions.VUndefined).
Proof.
  intros raw resolved Hr.
  destruct (resolved_form raw resolved Hr) as (base & Hbase & ->).
  assert (Hdom : dom (BuildOptions.spread_over_defaults raw)
                 = dom (default ∅ raw) ∪ list_to_set BuildOptionsShape.option_names).
  { unfold BuildOptions.spread_over_defaults. by rewrite dom_union_L, defaults_dom. }
  split.
  - rewrite dom_insert_L, Hdom.
    apply elem_of_dom_2 in Hbase. rewrite Hdom in Hbase.
    by apply subseteq_union_1_L, singleton_subseteq_l.
  - intros name Hname.
    destruct (decide (name = "base")) as [->|Hne].
    { rewrite lookup_insert_eq. eexists. split; [done|]. intros [=]. }
    rewrite lookup_insert_ne by done.
    unfold BuildOptions.spread_over_defaults.
    destruct (default ∅ raw !! name) as [v|] eqn:Hraw.
    + exists v. split; [by apply lookup_union_Some_l|]. by intros ->.
    + rewrite lookup_union_r by done.
      unfold BuildOptionsShape.option_names in Hname.
      repeat (apply elem_of_cons in Hname as [->|Hname];
              [eexists; split; [reflexivity | intros [=]]|]).
      by apply elem_of_nil in Hname.
Qed.

Lemma resolved_options_witness :
  BuildOptions.resolveBuildOptions BuildOptionsShape.sample_undefined
  = BuildOptions.Return
      (default ∅ (BuildOptionsShape.resolved_of BuildOptionsShape.sample_undefined))
  ∧ ∃ v, default ∅ (BuildOptionsShape.resolved_of BuildOptionsShape.sample_undefined)
           !! "outDir" = Some v
         ∧ (v = BuildOptions.VUndefined →
              default ∅ BuildOptionsShape.sample_undefined !! "outDir"
              = Some BuildOptions.VUndefined).
Proof.
  assert (H : BuildOptions.resolveBuildOptions BuildOptionsShape.sample_undefined
              = BuildOptions.Return
                  (default ∅ (BuildOptionsShape.resolved_of
                                BuildOptionsShape.sample_undefined))).
  { vm_compute. reflexivity. }
  split; [exact H|].
  apply (proj2 (resolved_options_are_complete _ _ H) "outDir").
  unfold BuildOptionsShape.option_names.
  do 2 apply list_elem_of_further. apply list_elem_of_here.
Defined.

(** ** Transform-directive resolver *)

Section OxcTraceFacts.
Import Oxc OxcEvents.

Lemma trace_bind_Forall {A B} (P : Event → Prop) (m : Eff A) (k : A → Eff B) :
  Forall P (trace m) → (∀ a, Forall P (trace (k a))) →
  Forall P (trace (bind m k)).
Proof.
  unfold trace, bind. destruct m as [t [e|a]]; simpl; intros Hm Hk; [done|].
  apply Forall_app. split; [done | apply Hk].
Qed.

Lemma trace_try_catch_Forall {A} (P : Event → Prop) (body : Eff A)
      (handler : Exception → Eff A) :
  Forall P (trace body) → (∀ e, Forall P (trace (handler e))) →
  Forall P (trace (try_catch body handler)).
Proof.
  unfold trace, try_catch. destruct body as [t [e|a]]; simpl; intros Hm Hk;
    [|done]. apply Forall_app. split; [done | apply Hk].
Qed.

Lemma jsx_settings_warn_only (P : Event → Prop) l loaded o :
  (∀ message, P (Warn message)) →
  Forall P (trace (apply_jsx_settings l loaded o)).
Proof.
  intros HP. unfold apply_jsx_settings. cbv zeta.
  case_ifs; repeat constructor; apply HP.
Qed.

Lemma import_settings_warn_only (P : Event → Prop) loaded o :
  (∀ message, P (Warn message)) →
  Forall P (trace (apply_import_settings loaded o)).
Proof.
  intros HP. unfold apply_import_settings.
  destruct (verbatimModuleSyntax loaded); [constructor|].
  cbv zeta. case_ifs; repeat constructor; apply HP.
Qed.

(** Before the engine is called only warnings are given and files are
    registered with the watcher, the latter by [watch_if_possible] alone. *)
Lemma resolve_options_events (P : Event → Prop) env filename options config watcher :
  (∀ message, P (Warn message)) →
  (∀ file, Forall P (trace (watch_if_possible watcher file config))) →
  Forall P (trace (resolve_options env filename options config watcher)).
Proof.
  intros Hwarn Hwatch. unfold resolve_options.
  destruct (_ || _); [|constructor].
  unfold resolve_from_tsconfig. apply trace_try_catch_Forall.
  - apply trace_bind_Forall; [constructor|]. intros loaded.
    apply trace_bind_Forall; [apply Hwatch|]. intros _.
    apply trace_bind_Forall; [by apply jsx_settings_warn_only|]. intros o.
    by apply import_settings_warn_only.
  - intros e. apply trace_bind_Forall; [|intros; constructor].
    destruct e; [apply Hwatch | constructor].
Qed.

(** The resolution throws only what the settings loader has thrown. *)
Lemma resolve_options_thrown env filename options config watcher t e :
  resolve_options env filename options config watcher = (t, inl e) →
  (select_lang options filename = "ts" ∨ select_lang options filename = "tsx")
  ∧ loadTsconfigJsonForFile env filename config = inl e.
Proof.
  intros Hr.
  assert (Hlang : select_lang options filename = "ts"
                  ∨ select_lang options filename = "tsx").
  { unfold resolve_options in Hr.
    destruct (String.eqb_spec (select_lang options filename) "ts"); [by left|].
    destruct (String.eqb_spec (select_lang options filename) "tsx"); [by right|].
    discriminate. }
  split; [done|].
  destruct (loadTsconfigJsonForFile env filename config) as [e'|[tsconfig file]] eqn:Hl.
  - unfold resolve_options in Hr.
    replace (String.eqb (select_lang options filename) "ts"
             || String.eqb (select_lang options filename) "tsx") with true in Hr
      by (destruct Hlang as [-> | ->]; reflexivity).
    unfold resolve_from_tsconfig in Hr. rewrite Hl in Hr.
    unfold lift, bind at 1, try_catch in Hr. cbn [fst snd app] in Hr.
    assert (Hw : outcome (match e' with
                          | TSConfckParseError _ file =>
                              watch_if_possible watcher file config
                          | JsError _ => ret tt
                          end) = inr tt).
    { destruct e'; [apply watch_total | done]. }
    unfold outcome in Hw.
    destruct (match e' with
              | TSConfckParseError _ file => watch_if_possible watcher file config
              | JsError _ => ret tt
              end) as [tw [x|[]]]; [discriminate|].
    unfold bind, throw in Hr. cbn [fst snd] in Hr. congruence.
  - destruct (resolve_options_loaded env filename options config watcher
                tsconfig file Hlang Hl) as (wj & o1 & wi & o2 & _ & _ & Hres).
    congruence.
Qed.

Lemma resolve_options_other_dialects env filename options config watcher :
  select_lang options filename ≠ "ts" →
  select_lang options filename ≠ "tsx" →
  resolve_options env filename options config watcher
  = ret (spread_options options (select_lang options filename)).
Proof.
  intros Hts Htsx. unfold resolve_options.
  apply String.eqb_neq in Hts, Htsx. by rewrite Hts, Htsx.
Qed.

Lemma check_result_same_engine env env' filename inMap result :
  same_engine env env' →
  check_result env filename inMap result = check_result env' filename inMap result.
Proof.
  intros [_ Hc]. unfold check_result, combine_maps.
  destruct (errors result); [|done].
  destruct inMap, (map result); by rewrite ?Hc.
Qed.

End OxcTraceFacts.

(** X16.  [transformWithOxc] calls the engine at most once, and after that
    call it gives no warning and registers no file with the watcher.  When it
    does not call the engine, the dialect is ['ts'] or ['tsx'] and it throws
    exactly the error that the settings loader threw.  So an error thrown by
    [transformWithOxc] is either the settings loader's own, or the error made
    from the first of the errors that the engine reported. *)
Theorem engine_is_called_last_or_the_loader_error_is_thrown :
  ∀ (env : Oxc.Collaborators) (code filename : string)
    (options : option Oxc.OxcTransformOptions) (inMap : option Oxc.SourceMap)
    (config : option Oxc.ResolvedConfig) (watcher : option Oxc.Watcher),
    let run := Oxc.transformWithOxc env code filename options inMap config watcher in
    (∃ before directive,
        Oxc.trace run = before ++ [Oxc.Transform filename code directive]
        ∧ Forall (λ ev, Oxc.is_transform ev = false) before
        ∧ (∀ e, Oxc.outcome run = inl e →
             ∃ first rest,
               Oxc.errors (Oxc.transform env filename code directive)
               = first :: rest
               ∧ e = Oxc.JsError first))
    ∨ (Forall (λ ev, Oxc.is_transform ev = false) (Oxc.trace run)
       ∧ (Oxc.select_lang options filename = "ts"
          ∨ Oxc.select_lang options filename = "tsx")
       ∧ ∃ e, Oxc.loadTsconfigJsonForFile env filename config = inl e
              ∧ Oxc.outcome run = inl e).
Proof.
  intros env code filename options inMap config watcher run.
  pose proof (quiet_resolve_options env filename options config watcher) as Hq.
  destruct (Oxc.resolve_options env filename options config watcher)
    as [t [e|o]] eqn:Hr.
  - right. unfold run.
    rewrite (transformWithOxc_thrown _ _ _ _ _ _ _ _ _ Hr).
    destruct (resolve_options_thrown _ _ _ _ _ _ _ Hr) as [Hlang Hload].
    split; [exact Hq|]. split; [exact Hlang|]. by exists e.
  - left. unfold run.
    rewrite (transformWithOxc_resolved _ _ _ _ _ _ _ _ _ Hr).
    exists t, o. split; [done|]. split; [exact Hq|].
    cbn [Oxc.outcome snd]. unfold Oxc.check_result.
    destruct (Oxc.errors (Oxc.transform env filename code o)) as [|first rest];
      cbn [Oxc.outcome snd Oxc.ret Oxc.throw]; intros e He; [discriminate|].
    injection He as <-. by exists first, rest.
Qed.

(** X17.  When the dialect is ['ts'] or ['tsx'], the settings are loaded from
    a named file, and a watcher and a configuration were given, the first
    thing [transformWithOxc] does is to register that file with the watcher;
    warnings follow, and the call of the engine comes last. *)
Theorem loaded_settings_file_is_watched_first :
  ∀ (env : Oxc.Collaborators) (code filename : string)
    (options : option Oxc.OxcTransformOptions) (inMap : option Oxc.SourceMap)
    (config : Oxc.ResolvedConfig) (watcher : Oxc.Watcher)
    (tsconfig : Oxc.Tsconfig) (file : string),
    Oxc.select_lang options filename = "ts"
    ∨ Oxc.select_lang options filename = "tsx" →
    Oxc.loadTsconfigJsonForFile env filename (Some config)
      = inr (tsconfig, Some file) →
    file ≠ "" →
    ∃ warnings directive,
      Oxc.trace (Oxc.transformWithOxc env code filename options inMap
                   (Some config) (Some watcher))
      = Oxc.EnsureWatchedFile watcher file (Pipeline.root config)
          :: warnings ++ [Oxc.Transform filename code directive]
      ∧ Forall (λ ev, OxcEvents.is_warn ev = true) warnings.
Proof.
  intros env code filename options inMap config watcher tsconfig file
         Hlang Hload Hfile.
  destruct (resolve_options_loaded env filename options (Some config)
              (Some watcher) tsconfig (Some file) Hlang Hload)
    as (wj & o1 & wi & o2 & Hj & Hi & Hres).
  rewrite (transformWithOxc_resolved _ _ _ _ _ _ _ _ _ Hres).
  exists (wj ++ wi), o2. split.
  - unfold Oxc.watch_if_possible, Oxc.truthy_string. cbn [default].
    apply String.eqb_neq in Hfile. rewrite Hfile. cbn [negb].
    unfold Oxc.trace, Oxc.emit. cbn [fst app]. by rewrite <- app_assoc.
  - apply Forall_app. split.
    + pose proof (jsx_settings_warn_only (λ ev, OxcEvents.is_warn ev = true)
                    (Oxc.select_lang options filename)
                    (default Oxc.empty_compilerOptions (Oxc.compilerOptions tsconfig))
                    (Oxc.spread_options options (Oxc.select_lang options filename))
                    (λ _, eq_refl)) as H.
      by rewrite Hj in H.
    + pose proof (import_settings_warn_only (λ ev, OxcEvents.is_warn ev = true)
                    (default Oxc.empty_compilerOptions (Oxc.compilerOptions tsconfig))
                    o1 (λ _, eq_refl)) as H.
      by rewrite Hi in H.
Qed.

Lemma loaded_settings_witness :
  ∃ warnings directive,
    Oxc.trace (Oxc.transformWithOxc Oxc.sample_env "let x" "comp.tsx" None None
                 (Some Oxc.sample_config) (Some 5))
    = Oxc.EnsureWatchedFile 5 "/p/tsconfig.json" "/p/app"
        :: warnings ++ [Oxc.Transform "comp.tsx" "let x" directive]
    ∧ Forall (λ ev, OxcEvents.is_warn ev = true) warnings.
Proof.
  apply (loaded_settings_file_is_watched_first Oxc.sample_env "let x" "comp.tsx"
           None None Oxc.sample_config 5
           (Oxc.mkTsconfig (Some Oxc.sample_compilerOptions)) "/p/tsconfig.json");
    [right; reflexivity | reflexivity | discriminate].
Defined.

(** X18.  Without a watcher, and likewise without a configuration,
    [transformWithOxc] registers no file for watching, whatever the settings
    loader answers. *)
Theorem nothing_is_watched_without_watcher_or_configuration :
  ∀ (env : Oxc.Collaborators) (code filename : string)
    (options : option Oxc.OxcTransformOptions) (inMap : option Oxc.SourceMap)
    (config : option Oxc.ResolvedConfig) (watcher : option Oxc.Watcher),
    Forall (λ ev, OxcEvents.is_watch ev = false)
           (Oxc.trace (Oxc.transformWithOxc env code filename options inMap
                         config None))
    ∧ Forall (λ ev, OxcEvents.is_watch ev = false)
             (Oxc.trace (Oxc.transformWithOxc env code filename options inMap
                           None watcher)).
Proof.
  intros env code filename options inMap config watcher.
  assert (Hgen : ∀ config watcher,
             (∀ file, Oxc.trace (Oxc.watch_if_possible watcher file config) = []) →
             Forall (λ ev, OxcEvents.is_watch ev = false)
                    (Oxc.trace (Oxc.transformWithOxc env code filename options
                                  inMap config watcher))).
  { clear config watcher. intros config watcher Hnone.
    pose proof (resolve_options_events (λ ev, OxcEvents.is_watch ev = false)
                  env filename options config watcher (λ _, eq_refl)) as Hres.
    assert (Hw : ∀ file, Forall (λ ev, OxcEvents.is_watch ev = false)
                           (Oxc.trace (Oxc.watch_if_possible watcher file config))).
    { intros file. rewrite Hnone. constructor. }
    specialize (Hres Hw).
    destruct (Oxc.resolve_options env filename options config watcher)
      as [t [e|o]] eqn:Hr.
    - by rewrite (transformWithOxc_thrown _ _ _ _ _ _ _ _ _ Hr).
    - rewrite (transformWithOxc_resolved _ _ _ _ _ _ _ _ _ Hr).
      apply Forall_app. split; [exact Hres|]. by repeat constructor. }
  split; apply Hgen; intros file; [done|].
  by destruct watcher.
Qed.

(** X19.  For a dialect other than ['ts'] and ['tsx'], [transformWithOxc]
    gives no warning and registers no file: the call of the engine is the
    only call it records.  The directive of that call has the dialect as
    [lang]; its [sourcemap] is what the caller's options hold under that key,
    [undefined] included, and [true] when they have no such key; [jsx],
    [typescript], [define] and the other options are the caller's.  The
    settings loader, the configuration and the watcher play no part in what
    it does and returns. *)
Theorem other_dialects_need_no_settings :
  ∀ (env env' : Oxc.Collaborators) (code filename : string)
    (options : option Oxc.OxcTransformOptions) (inMap : option Oxc.SourceMap)
    (config config' : option Oxc.ResolvedConfig)
    (watcher watcher' : option Oxc.Watcher),
    Oxc.select_lang options filename ≠ "ts" →
    Oxc.select_lang options filename ≠ "tsx" →
    OxcEvents.same_engine env env' →
    (∃ directive,
       Oxc.trace (Oxc.transformWithOxc env code filename options inMap
                    config watcher)
       = [Oxc.Transform filename code directive]
       ∧ Oxc.lang directive = Some (Oxc.select_lang options filename)
       ∧ (∀ own, options ≫= Oxc.sourcemap = Some own →
            Oxc.sourcemap directive = Some own)
       ∧ (options ≫= Oxc.sourcemap = None →
            Oxc.sourcemap directive = Some (Some true))
       ∧ Oxc.jsx directive = options ≫= Oxc.jsx
       ∧ Oxc.typescript directive = options ≫= Oxc.typescript
       ∧ Oxc.define directive = options ≫= Oxc.define
       ∧ Oxc.options_rest directive = options ≫= Oxc.options_rest)
    ∧ Oxc.transformWithOxc env code filename options inMap config watcher
      = Oxc.transformWithOxc env' code filename options inMap config' watcher'.
Proof.
  intros env env' code filename options inMap config config' watcher watcher'
         Hts Htsx Hsame.
  rewrite (transformWithOxc_resolved env code filename options inMap config watcher
             [] _ (resolve_options_other_dialects env _ _ config watcher Hts Htsx)).
  rewrite (transformWithOxc_resolved env' code filename options inMap config' watcher'
             [] _ (resolve_options_other_dialects env' _ _ config' watcher' Hts Htsx)).
  split.
  - eexists. split; [reflexivity|].
    destruct options as [o|]; cbn [mbind option_bind Oxc.spread_options
      Oxc.lang Oxc.sourcemap Oxc.jsx Oxc.typescript Oxc.define Oxc.options_rest].
    + split_and!; try done;
        [intros own Hown; by rewrite Hown | intros Hnone; by rewrite Hnone].
    + by split_and!.
  - destruct Hsame as [Ht Hc]. rewrite Ht.
    by rewrite (check_result_same_engine env env' _ _ _ (conj Ht Hc)).
Qed.

Lemma other_dialects_witness :
  (∃ directive,
     Oxc.trace (Oxc.transformWithOxc Oxc.sample_env "let x" "a.jsx"
                  (Some OxcEvents.sample_migrated) None
                  (Some Oxc.sample_config) (Some 5))
     = [Oxc.Transform "a.jsx" "let x" directive]
     ∧ Oxc.lang directive = Some "jsx"
     ∧ Oxc.sourcemap directive = Some None)
  ∧ Oxc.transformWithOxc Oxc.sample_env "let x" "a.jsx"
      (Some OxcEvents.sample_migrated) None (Some Oxc.sample_config) (Some 5)
    = Oxc.transformWithOxc OxcEvents.unreadable_env "let x" "a.jsx"
        (Some OxcEvents.sample_migrated) None None None.
Proof.
  destruct (other_dialects_need_no_settings Oxc.sample_env
              OxcEvents.unreadable_env "let x" "a.jsx"
              (Some OxcEvents.sample_migrated) None
              (Some Oxc.sample_config) None (Some 5) None)
    as [(directive & Ht & Hl & Hown & _) Heq];
    [by vm_compute | by vm_compute | by split |].
  split; [|exact Heq].
  exists directive. split; [exact Ht|]. split; [exact Hl|].
  by apply Hown.
Defined.

(** ** Migration of the legacy options *)

Section ConvertMore.
Import Legacy LegacyShape.

Lemma convert_jsx_silent by_or_at esbuildConfig :
  snd (convert_jsx by_or_at esbuildConfig) = []
  ↔ jsx esbuildConfig ≠ Some "preserve".
Proof.
  unfold convert_jsx. cbv zeta.
  destruct (jsx esbuildConfig) as [mode|]; cbn [default from_option id].
  - destruct (String.eqb_spec mode "automatic") as [->|_];
      [cbn [snd]; by split|].
    destruct (String.eqb_spec mode "transform") as [->|_];
      [cbn [snd]; by split|].
    destruct (String.eqb_spec mode "preserve") as [->|Hne]; cbn [snd].
    + split; [discriminate | by intros []].
    + split; [intros _; congruence | done].
  - cbn [String.eqb Ascii.eqb Bool.eqb snd]. by split.
Qed.

Lemma convert_jsx_preposition esbuildConfig :
  fst (convert_jsx "by" esbuildConfig) = fst (convert_jsx "at" esbuildConfig).
Proof.
  unfold convert_jsx. cbv zeta.
  set (mode := default "" (jsx esbuildConfig)).
  by destruct (String.eqb mode "automatic"), (String.eqb mode "transform"),
       (String.eqb mode "preserve").
Qed.

Lemma convert_loader_silent by_or_at loader :
  snd (convert_loader by_or_at dialect_tags loader) = [] ↔ known_loader loader.
Proof.
  unfold convert_loader, known_loader.
  destruct (Oxc.truthy_string loader); [|split; [by left | done]].
  destruct (includes dialect_tags (default "" loader)) eqn:E.
  - apply includes_spec in E. split; [by right | done].
  - split; [discriminate|]. intros [?|Hin]; [discriminate|].
    apply includes_spec in Hin. congruence.
Qed.

Lemma convert_sourcemap_silent v :
  snd (OxcConvert.convert_sourcemap v) = [] ↔ known_sourcemap v.
Proof.
  destruct v as [[b|s]|]; simpl; [done| |done].
  destruct (String.eqb_spec s "external") as [->|Hne1]; [split; [by left|done]|].
  destruct (String.eqb_spec s "linked") as [->|Hne2]; [split; [by right|done]|].
  split; [discriminate | by intros [|]].
Qed.

End ConvertMore.

(** X20.  The current revision of [convertEsbuildConfigToOxcConfig] gives no
    warning exactly when the legacy [jsx] is not ['preserve'], the legacy
    loader is unset or one of the four dialect tags, and the legacy
    [sourcemap] is a boolean, unset, ['external'] or ['linked']. *)
Theorem migration_is_silent_exactly_on_known_settings :
  ∀ (esbuildConfig : Legacy.ESBuildOptions),
    snd (OxcConvert.convertEsbuildConfigToOxcConfig esbuildConfig) = []
    ↔ Legacy.jsx esbuildConfig ≠ Some "preserve"
      ∧ LegacyShape.known_loader (Legacy.loader esbuildConfig)
      ∧ LegacyShape.known_sourcemap (Legacy.sourcemap esbuildConfig).
Proof.
  intros esbuildConfig.
  rewrite <- (convert_jsx_silent "by"), <- (convert_loader_silent "by"),
    <- convert_sourcemap_silent.
  unfold OxcConvert.convertEsbuildConfigToOxcConfig.
  change ["js"; "jsx"; "ts"; "tsx"] with Legacy.dialect_tags.
  destruct (Legacy.convert_jsx "by" esbuildConfig) as [j w_jsx].
  destruct (Legacy.convert_loader "by" Legacy.dialect_tags
              (Legacy.loader esbuildConfig)) as [l w_loader].
  destruct (OxcConvert.convert_sourcemap (Legacy.sourcemap esbuildConfig))
    as [sm w_sourcemap].
  cbn [fst snd]. split.
  - intros H. apply app_eq_nil in H as [-> H].
    by apply app_eq_nil in H as [-> ->].
  - by intros (-> & -> & ->).
Qed.

(** X21.  The two revisions of [convertEsbuildConfigToOxcConfig] can differ
    in [lang], in [sourcemap] and in their warnings only: the [jsx] options
    and the fields passed through are the same for every input, [sourcemap]
    is the same whenever the legacy value is a boolean, and the earlier
    revision warns whenever the legacy [sourcemap] is not a boolean, also when
    it is unset. *)
Theorem revisions_agree_on_jsx_and_passed_fields :
  ∀ (esbuildConfig : Legacy.ESBuildOptions),
    let current := OxcConvert.convertEsbuildConfigToOxcConfig esbuildConfig in
    let earlier := OxcConvertEarlier.convertEsbuildConfigToOxcConfig esbuildConfig in
    Legacy.oxc_jsx (fst current) = Legacy.oxc_jsx (fst earlier)
    ∧ Legacy.oxc_jsxInject (fst current) = Legacy.oxc_jsxInject (fst earlier)
    ∧ Legacy.oxc_include (fst current) = Legacy.oxc_include (fst earlier)
    ∧ Legacy.oxc_exclude (fst current) = Legacy.oxc_exclude (fst earlier)
    ∧ Legacy.oxc_define (fst current) = Legacy.oxc_define (fst earlier)
    ∧ (∀ b, Legacy.sourcemap esbuildConfig = Some (Legacy.SmBool b) →
         Legacy.oxc_sourcemap (fst current) = Some b
         ∧ Legacy.oxc_sourcemap (fst earlier) = Some b)
    ∧ ((∀ b, Legacy.sourcemap esbuildConfig ≠ Some (Legacy.SmBool b)) →
         Legacy.oxc_sourcemap (fst earlier) = None
         ∧ Legacy.sourcemap_warning "at" (Legacy.sourcemap esbuildConfig)
           ∈ snd earlier).
Proof.
  intros esbuildConfig current earlier. unfold current, earlier.
  unfold OxcConvert.convertEsbuildConfigToOxcConfig,
    OxcConvertEarlier.convertEsbuildConfigToOxcConfig.
  pose proof (convert_jsx_preposition esbuildConfig) as Hj.
  destruct (Legacy.convert_jsx "by" esbuildConfig) as [j w_jsx].
  destruct (Legacy.convert_jsx "at" esbuildConfig) as [j' w_jsx'].
  destruct (Legacy.convert_loader "by" _ _) as [l w_loader].
  destruct (Legacy.convert_loader "at" _ _) as [l' w_loader'].
  cbn [fst] in Hj. subst j'.
  destruct (Legacy.sourcemap esbuildConfig) as [[b|s]|] eqn:Hs;
    cbn [OxcConvert.convert_sourcemap OxcConvertEarlier.convert_sourcemap].
  - split_and!; try done.
    + by intros b' [= <-].
    + intros Hno. by destruct (Hno b).
  - destruct (if String.eqb s "external" then _ else _) as [sm w] eqn:E.
    cbn [fst snd Legacy.oxc_jsx Legacy.oxc_jsxInject Legacy.oxc_include
         Legacy.oxc_exclude Legacy.oxc_define Legacy.oxc_sourcemap].
    split_and!; try done.
    intros _. split; [done|].
    rewrite !elem_of_app. do 2 right. apply list_elem_of_here.
  - split_and!; try done.
    intros _. split; [done|].
    cbn [snd]. rewrite !elem_of_app. do 2 right. apply list_elem_of_here.
Qed.

(** ** Transform-directive resolver: the two revisions *)

Section OxcRevisions.
Import Oxc.

Lemma jsx_settings_refresh l loaded o w o' :
  apply_jsx_settings l loaded o = (w, inr o') →
  jsx o' ≫= refresh = jsx o ≫= refresh.
Proof.
  unfold apply_jsx_settings. cbv zeta.
  destruct (jsx o); case_ifs; by intros [= _ <-].
Qed.

Lemma import_settings_jsx loaded o w o' :
  apply_import_settings loaded o = (w, inr o') → jsx o' = jsx o.
Proof.
  unfold apply_import_settings. cbv zeta.
  destruct (verbatimModuleSyntax loaded); [by intros [= _ <-]|].
  case_ifs; by intros [= _ <-].
Qed.

(** Whatever the settings file says, the caller's [jsx.refresh] is what the
    resolved options carry. *)
Lemma resolve_options_refresh env filename options config watcher t o :
  resolve_options env filename options config watcher = (t, inr o) →
  jsx o ≫= refresh = (options ≫= jsx) ≫= refresh.
Proof.
  intros Hr.
  assert (Hspread : ∀ l, jsx (spread_options options l) = options ≫= jsx)
    by (intros l; by destruct options).
  destruct (decide (select_lang options filename = "ts"
                    ∨ select_lang options filename = "tsx")) as [Hlang|Hlang].
  - destruct (loadTsconfigJsonForFile env filename config)
      as [e|[tsconfig file]] eqn:Hl.
    + unfold resolve_options in Hr.
      replace (String.eqb (select_lang options filename) "ts"
               || String.eqb (select_lang options filename) "tsx") with true in Hr
        by (destruct Hlang as [-> | ->]; reflexivity).
      unfold resolve_from_tsconfig in Hr. rewrite Hl in Hr.
      unfold lift, bind at 1, try_catch in Hr. cbn [fst snd app] in Hr.
      destruct (match e with
                | TSConfckParseError _ file => watch_if_possible watcher file config
                | JsError _ => ret tt
                end) as [tw [x|[]]]; unfold bind, throw in Hr;
        cbn [fst snd] in Hr; congruence.
    + destruct (resolve_options_loaded env filename options config watcher
                  tsconfig file Hlang Hl) as (wj & o1 & wi & o2 & Hj & Hi & Hres).
      rewrite Hres in Hr. injection Hr as _ <-.
      rewrite (import_settings_jsx _ _ _ _ Hi).
      rewrite (jsx_settings_refresh _ _ _ _ _ Hj). by rewrite Hspread.
  - rewrite resolve_options_other_dialects in Hr by tauto.
    injection Hr as _ <-. by rewrite Hspread.
Qed.

End OxcRevisions.

(** X22.  For a dialect other than ['ts'] and ['tsx'] the two revisions of
    [transformWithOxc] do the same: given the same engine and map combiner,
    they make the same call of the engine and come to the same outcome. *)
Theorem revisions_agree_on_other_dialects :
  ∀ (earlier : OxcEarlier.Collaborators) (current : Oxc.Collaborators)
    (code filename : string) (options : option Oxc.OxcTransformOptions)
    (inMap : option Oxc.SourceMap) (config : option Oxc.ResolvedConfig)
    (watcher : option Oxc.Watcher),
    Oxc.select_lang options filename ≠ "ts" →
    Oxc.select_lang options filename ≠ "tsx" →
    OxcEarlier.same_engine earlier current →
    OxcEarlier.transformWithOxc earlier code filename options inMap
    = Oxc.transformWithOxc current code filename options inMap config watcher.
Proof.
  intros earlier current code filename options inMap config watcher
         Hts Htsx [Ht Hc].
  rewrite (transformWithOxc_resolved current code filename options inMap config
             watcher [] _
             (resolve_options_other_dialects current _ _ config watcher Hts Htsx)).
  unfold OxcEarlier.transformWithOxc, OxcEarlier.resolve_options.
  apply String.eqb_neq in Hts, Htsx. rewrite Hts, Htsx. cbn [orb].
  unfold Oxc.bind, Oxc.ret, Oxc.emit. cbn [fst snd app].
  rewrite Ht.
  unfold OxcEarlier.check_result, Oxc.check_result, Oxc.outcome,
    OxcEarlier.combine_maps, Oxc.combine_maps.
  destruct (Oxc.errors _); [|done].
  destruct inMap, (Oxc.map _); cbn [fst snd Oxc.ret]; by rewrite ?Hc.
Qed.

Lemma revisions_agree_witness :
  OxcEarlier.transformWithOxc OxcEarlier.sample_env "let x" "a.mjs" None None
  = Oxc.transformWithOxc Oxc.sample_env "let x" "a.mjs" None None
      (Some Oxc.sample_config) (Some 5).
Proof.
  apply (revisions_agree_on_other_dialects OxcEarlier.sample_env Oxc.sample_env
           "let x" "a.mjs" None None (Some Oxc.sample_config) (Some 5));
    [by vm_compute | by vm_compute | by split].
Defined.

(** X23.  In the earlier revision the [jsx] options of a ['ts'] or ['tsx']
    file come from the settings file alone: two calls whose options differ in
    the object under [jsx] only do the same and return the same. *)
Theorem earlier_revision_drops_the_callers_jsx :
  ∀ (earlier : OxcEarlier.Collaborators) (code filename : string)
    (options : Oxc.OxcTransformOptions) (jsx jsx' : option Oxc.JsxOptions)
    (inMap : option Oxc.SourceMap),
    Oxc.select_lang (Some options) filename = "ts"
    ∨ Oxc.select_lang (Some options) filename = "tsx" →
    OxcEarlier.transformWithOxc earlier code filename
      (Some (OxcEarlier.replace_jsx options jsx)) inMap
    = OxcEarlier.transformWithOxc earlier code filename
        (Some (OxcEarlier.replace_jsx options jsx')) inMap.
Proof.
  intros earlier code filename options jsx jsx' inMap Hlang.
  unfold OxcEarlier.transformWithOxc. f_equal.
  unfold OxcEarlier.resolve_options.
  change (Oxc.select_lang (Some (OxcEarlier.replace_jsx options jsx)) filename)
    with (Oxc.select_lang (Some options) filename).
  change (Oxc.select_lang (Some (OxcEarlier.replace_jsx options jsx')) filename)
    with (Oxc.select_lang (Some options) filename).
  replace (String.eqb (Oxc.select_lang (Some options) filename) "ts"
           || String.eqb (Oxc.select_lang (Some options) filename) "tsx")
    with true by (destruct Hlang as [-> | ->]; reflexivity).
  reflexivity.
Qed.

Lemma earlier_jsx_witness :
  OxcEarlier.transformWithOxc OxcEarlier.sample_env "let x" "a.ts"
    (Some (OxcEarlier.replace_jsx (Oxc.mkOptions None None None None None None)
             (Some OxcEarlier.sample_jsx))) None
  = OxcEarlier.transformWithOxc OxcEarlier.sample_env "let x" "a.ts"
      (Some (OxcEarlier.replace_jsx (Oxc.mkOptions None None None None None None)
               None)) None.
Proof.
  apply (earlier_revision_drops_the_callers_jsx OxcEarlier.sample_env "let x" "a.ts"
           (Oxc.mkOptions None None None None None None)
           (Some OxcEarlier.sample_jsx) None None).
  left. reflexivity.
Defined.

(** ** The transform hook of the plugin *)

Section OxcPluginFacts.
Import Oxc OxcPlugin.

Lemma directives_quiet t :
  Forall (λ ev, is_transform ev = false) t → directives t = [].
Proof.
  unfold directives. induction 1 as [|ev t Hev _ IH]; [done|].
  destruct ev; try discriminate; exact IH.
Qed.

Lemma directives_snoc t filename code o :
  Forall (λ ev, is_transform ev = false) t →
  directives (t ++ [Transform filename code o]) = [o].
Proof.
  intros Hq. unfold directives. rewrite omap_app.
  fold (directives t). by rewrite (directives_quiet t Hq).
Qed.

(** What a call of the hook on an accepted module does, by the outcome of
    the resolution of the options. *)
Lemma hook_accepted env s config consumer code id c :
  accepted s id = true →
  let passed := passed_options s consumer id c in
  let h := transform_hook env s config consumer code id c in
  (∃ t o, resolve_options env id (Some passed) (Some config) (server c)
          = (t, inr o)
      ∧ trace (fst h) = t ++ [Transform id code o]
      ∧ directives (trace (fst h)) = [o]
      ∧ outcome (fst h)
        = match errors (transform env id code o) with
          | first :: _ => inl (JsError first)
          | [] => inr (Some (inject s id (Oxc.code (transform env id code o)),
                             map (transform env id code o)))
          end
      ∧ snd h = mkClosure (seen_through_aliases passed o) (server c))
  ∨ (∃ t e, resolve_options env id (Some passed) (Some config) (server c)
            = (t, inl e)
       ∧ trace (fst h) = t
       ∧ directives (trace (fst h)) = []
       ∧ outcome (fst h) = inl e
       ∧ snd h = mkClosure passed (server c)).
Proof.
  intros Hacc passed h. unfold h, transform_hook.
  unfold accepted in Hacc. rewrite Hacc. fold passed. cbn [fst snd].
  pose proof (quiet_resolve_options env id (Some passed) (Some config) (server c))
    as Hq.
  destruct (resolve_options env id (Some passed) (Some config) (server c))
    as [t [e|o]] eqn:Hr.
  - right. exists t, e.
    rewrite (transformWithOxc_thrown _ _ _ _ _ _ _ _ _ Hr).
    cbn [bind trace outcome fst snd].
    split_and!; try done. by apply directives_quiet.
  - left. exists t, o.
    rewrite (transformWithOxc_resolved _ _ _ _ _ _ _ _ _ Hr).
    unfold check_result, combine_maps.
    destruct (errors (transform env id code o)) as [|first rest];
      cbn [bind trace outcome fst snd ret throw app Oxc.code map].
    + rewrite app_nil_r. split_and!; try done. by apply directives_snoc.
    + split_and!; try done. by apply directives_snoc.
Qed.

Lemma hook_rejected env s config consumer code id c :
  accepted s id = false →
  transform_hook env s config consumer code id c = (ret None, c).
Proof. unfold accepted, transform_hook. by intros ->. Qed.

Lemma passed_options_lang s consumer id c l :
  lang (oxcTransformOptions c) = Some l → l ≠ "" →
  lang (passed_options s consumer id c) = Some l.
Proof.
  intros Hl Hne. unfold passed_options, default_to_jsx.
  assert (Hd : lang (disable_refresh_at_ssr consumer (oxcTransformOptions c))
               = Some l).
  { unfold disable_refresh_at_ssr.
    destruct (jsx (oxcTransformOptions c)); [|done]. by case_ifs. }
  rewrite Hd. cbn [truthy_string]. apply String.eqb_neq in Hne. rewrite Hne.
  cbn [negb]. by rewrite andb_false_r.
Qed.

Lemma passed_options_jsx s consumer id c :
  jsx (passed_options s consumer id c)
  = jsx (disable_refresh_at_ssr consumer (oxcTransformOptions c)).
Proof. unfold passed_options, default_to_jsx. by case_ifs. Qed.

(** A call of the hook with a dialect set keeps it and uses it. *)
Lemma hook_keeps_dialect env s config consumer code id c l :
  lang (oxcTransformOptions c) = Some l → l ≠ "" →
  let h := transform_hook env s config consumer code id c in
  Forall (λ o, lang o = Some l) (directives (trace (fst h)))
  ∧ lang (oxcTransformOptions (snd h)) = Some l.
Proof.
  intros Hl Hne h. unfold h.
  destruct (accepted s id) eqn:Hacc.
  - pose proof (passed_options_lang s consumer id c l Hl Hne) as Hp.
    destruct (hook_accepted env s config consumer code id c Hacc)
      as [(t & o & Hr & _ & Hd & _ & Hc) | (t & e & _ & _ & Hd & _ & Hc)];
      rewrite Hd, Hc; cbn [oxcTransformOptions seen_through_aliases lang].
    + split; [|done]. constructor; [|constructor].
      rewrite (resolve_options_lang _ _ _ _ _ _ _ Hr).
      unfold select_lang. cbn [mbind option_bind]. rewrite Hp.
      cbn [truthy_string default from_option Datatypes.id].
      apply String.eqb_neq in Hne. by rewrite Hne.
    + split; [constructor | done].
  - rewrite (hook_rejected _ _ _ _ _ _ _ Hacc). cbn [fst snd trace ret].
    split; [constructor | done].
Qed.

Lemma calls_keep_dialect env s config calls c l :
  lang (oxcTransformOptions c) = Some l → l ≠ "" →
  Forall (λ o, lang o = Some l)
         (all_directives (fst (transform_calls env s config calls c)))
  ∧ lang (oxcTransformOptions (snd (transform_calls env s config calls c)))
    = Some l.
Proof.
  intros Hl Hne. revert c Hl.
  induction calls as [|call calls IH]; intros c Hl; [by split; [constructor|]|].
  cbn [transform_calls].
  destruct (hook_keeps_dialect env s config (consumer call) (source call)
              (OxcPlugin.id call) c l Hl Hne) as [Hd Hc].
  destruct (transform_hook env s config (consumer call) (source call)
              (OxcPlugin.id call) c) as [run c'].
  cbn [fst snd] in Hd, Hc.
  destruct (IH c' Hc) as [Hds Hcs].
  destruct (transform_calls env s config calls c') as [runs c''].
  cbn [fst snd] in *. split; [|done].
  unfold all_directives. cbn [List.map concat].
  apply Forall_app. by split.
Qed.

Lemma disable_refresh_keeps_off consumer o :
  jsx o ≫= refresh ≠ Some true →
  disable_refresh_at_ssr consumer o = o.
Proof.
  unfold disable_refresh_at_ssr. destruct (jsx o) as [j|]; [|done].
  cbn [mbind option_bind]. intros Hoff.
  rewrite bool_decide_false by done. by rewrite andb_false_r.
Qed.

Lemma disable_refresh_at_server o :
  jsx (disable_refresh_at_ssr "server" o) ≫= refresh ≠ Some true.
Proof.
  unfold disable_refresh_at_ssr. destruct (jsx o) as [j|] eqn:Hj; [|by rewrite Hj].
  cbn [String.eqb Ascii.eqb Bool.eqb andb].
  destruct (decide (refresh j = Some true)) as [Hon|Hoff].
  - by rewrite bool_decide_true by done.
  - rewrite bool_decide_false by done. by rewrite Hj.
Qed.

(** A call of the hook passes on to the engine, and leaves behind, the
    [jsx.refresh] of the options it passes. *)
Lemma hook_refresh env s config consumer code id c :
  accepted s id = true →
  let passed := passed_options s consumer id c in
  let h := transform_hook env s config consumer code id c in
  Forall (λ o, refresh_of o = refresh_of passed) (directives (trace (fst h)))
  ∧ refresh_of (oxcTransformOptions (snd h)) = refresh_of passed.
Proof.
  intros Hacc passed h. unfold h.
  destruct (hook_accepted env s config consumer code id c Hacc)
    as [(t & o & Hr & _ & Hd & _ & Hc) | (t & e & _ & _ & Hd & _ & Hc)];
    rewrite Hd, Hc; fold passed; cbn [oxcTransformOptions].
  - pose proof (resolve_options_refresh _ _ _ _ _ _ _ Hr) as Href.
    cbn [mbind option_bind] in Href.
    split.
    + constructor; [exact Href | constructor].
    + unfold refresh_of, seen_through_aliases. cbn [jsx].
      fold passed in Href.
      destruct (jsx passed) eqn:Hj; [exact Href | done].
  - split; [constructor | done].
Qed.

Lemma hook_keeps_refresh_off env s config consumer code id c :
  refresh_of (oxcTransformOptions c) ≠ Some true →
  let h := transform_hook env s config consumer code id c in
  Forall (λ o, refresh_of o ≠ Some true) (directives (trace (fst h)))
  ∧ refresh_of (oxcTransformOptions (snd h)) ≠ Some true.
Proof.
  intros Hoff h. unfold h.
  destruct (accepted s id) eqn:Hacc.
  - destruct (hook_refresh env s config consumer code id c Hacc) as [Hd Hc].
    assert (Hp : refresh_of (passed_options s consumer id c)
                 = refresh_of (oxcTransformOptions c)).
    { unfold refresh_of. rewrite passed_options_jsx.
      by rewrite disable_refresh_keeps_off. }
    rewrite Hp in Hd, Hc. split; [|by rewrite Hc].
    eapply Forall_impl; [exact Hd|]. intros o Ho. by rewrite Ho.
  - rewrite (hook_rejected _ _ _ _ _ _ _ Hacc). cbn [fst snd trace ret].
    split; [constructor | done].
Qed.

Lemma calls_keep_refresh_off env s config calls c :
  refresh_of (oxcTransformOptions c) ≠ Some true →
  Forall (λ o, refresh_of o ≠ Some true)
         (all_directives (fst (transform_calls env s config calls c)))
  ∧ refresh_of (oxcTransformOptions (snd (transform_calls env s config calls c)))
    ≠ Some true.
Proof.
  revert c.
  induction calls as [|call calls IH]; intros c Hoff; [by split; [constructor|]|].
  cbn [transform_calls].
  destruct (hook_keeps_refresh_off env s config (consumer call) (source call)
              (OxcPlugin.id call) c Hoff) as [Hd Hc].
  destruct (transform_hook env s config (consumer call) (source call)
              (OxcPlugin.id call) c) as [run c'].
  cbn [fst snd] in Hd, Hc.
  destruct (IH c' Hc) as [Hds Hcs].
  destruct (transform_calls env s config calls c') as [runs c''].
  cbn [fst snd] in *. split; [|done].
  unfold all_directives. cbn [List.map concat].
  apply Forall_app. by split.
Qed.

End OxcPluginFacts.

(** X24.  Of the caller's [jsx] options the settings file never touches
    [refresh]: every directive that [transformWithOxc] gives to the engine
    carries [jsx.refresh] as the caller passed it, for every dialect. *)
Theorem callers_refresh_reaches_the_engine :
  ∀ (env : Oxc.Collaborators) (code filename : string)
    (options : option Oxc.OxcTransformOptions) (inMap : option Oxc.SourceMap)
    (config : option Oxc.ResolvedConfig) (watcher : option Oxc.Watcher),
    Forall (λ directive,
              OxcPlugin.refresh_of directive
              = (options ≫= Oxc.jsx) ≫= Oxc.refresh)
           (OxcPlugin.directives
              (Oxc.trace (Oxc.transformWithOxc env code filename options inMap
                            config watcher))).
Proof.
  intros env code filename options inMap config watcher.
  pose proof (quiet_resolve_options env filename options config watcher) as Hq.
  destruct (Oxc.resolve_options env filename options config watcher)
    as [t [e|o]] eqn:Hr.
  - rewrite (transformWithOxc_thrown _ _ _ _ _ _ _ _ _ Hr).
    cbn [Oxc.trace fst]. rewrite (directives_quiet t Hq). constructor.
  - rewrite (transformWithOxc_resolved _ _ _ _ _ _ _ _ _ Hr).
    cbn [Oxc.trace fst]. rewrite (directives_snoc t _ _ _ Hq).
    constructor; [|constructor].
    exact (resolve_options_refresh _ _ _ _ _ _ _ Hr).
Qed.

(** X25.  The transform hook returns [undefined] exactly for the modules
    that the filter rejects, both under their id and under their cleaned id;
    for those it calls nothing and leaves the shared options as they are. *)
Theorem hook_skips_exactly_the_rejected_modules :
  ∀ (env : Oxc.Collaborators) (s : OxcPlugin.Settings)
    (config : Oxc.ResolvedConfig) (consumer code id : string)
    (c : OxcPlugin.Closure),
    let h := OxcPlugin.transform_hook env s config consumer code id c in
    (Oxc.outcome (fst h) = inr None
     ↔ OxcPlugin.filter s id = false
       ∧ OxcPlugin.filter s (JsString.cleanUrl id) = false)
    ∧ (OxcPlugin.filter s id = false
       ∧ OxcPlugin.filter s (JsString.cleanUrl id) = false →
         Oxc.trace (fst h) = [] ∧ snd h = c).
Proof.
  intros env s config consumer code id c h.
  assert (Hrej : OxcPlugin.accepted s id = false
                 ↔ OxcPlugin.filter s id = false
                   ∧ OxcPlugin.filter s (JsString.cleanUrl id) = false)
    by apply orb_false_iff.
  rewrite <- Hrej. unfold h.
  destruct (OxcPlugin.accepted s id) eqn:Hacc.
  - split; [|done]. split; [|done]. intros Hout.
    destruct (hook_accepted env s config consumer code id c Hacc)
      as [(t & o & _ & _ & _ & Ho & _) | (t & e & _ & _ & _ & Ho & _)];
      rewrite Ho in Hout; [|discriminate].
    by destruct (Oxc.errors _).
  - rewrite (hook_rejected _ _ _ _ _ _ _ Hacc). by split.
Qed.

(** X26.  What the transform hook returns for a module is the engine's
    answer: the engine was called last and reported no error, the map is the
    engine's map as it is (no map is combined with it), and the code is the
    engine's code, with [jsxInject] and a semicolon put before it when
    [jsxInject] is set and the id has a JSX extension. *)
Theorem hook_returns_the_engines_code_and_map :
  ∀ (env : Oxc.Collaborators) (s : OxcPlugin.Settings)
    (config : Oxc.ResolvedConfig) (consumer code id : string)
    (c : OxcPlugin.Closure) (result_code : string)
    (result_map : option Oxc.SourceMap),
    let h := OxcPlugin.transform_hook env s config consumer code id c in
    Oxc.outcome (fst h) = inr (Some (result_code, result_map)) →
    ∃ before directive,
      let result := Oxc.transform env id code directive in
      Oxc.trace (fst h) = before ++ [Oxc.Transform id code directive]
      ∧ Forall (λ ev, Oxc.is_transform ev = false) before
      ∧ Oxc.errors result = []
      ∧ result_map = Oxc.map result
      ∧ result_code
        = (if Oxc.truthy_string (OxcPlugin.jsxInject s)
              && OxcPlugin.jsxExtensionsRE_test id
           then default "" (OxcPlugin.jsxInject s) +:+ ";" +:+ Oxc.code result
           else Oxc.code result).
Proof.
  intros env s config consumer code id c result_code result_map h Hout.
  unfold h in *.
  destruct (OxcPlugin.accepted s id) eqn:Hacc.
  - destruct (hook_accepted env s config consumer code id c Hacc)
      as [(t & o & Hr & Ht & _ & Ho & _) | (t & e & _ & _ & _ & Ho & _)];
      rewrite Ho in Hout; [|discriminate].
    exists t, o. cbv zeta.
    pose proof (quiet_resolve_options env id
                  (Some (OxcPlugin.passed_options s consumer id c))
                  (Some config) (OxcPlugin.server c)) as Hq.
    rewrite Hr in Hq.
    destruct (Oxc.errors (Oxc.transform env id code o)); [|discriminate].
    injection Hout as <- <-. by split_and!.
  - rewrite (hook_rejected _ _ _ _ _ _ _ Hacc) in Hout. discriminate.
Qed.

Lemma hook_returns_witness :
  ∃ before directive,
    let result := Oxc.transform Oxc.sample_env "view.jsx" "<a/>" directive in
    Oxc.trace (fst (OxcPlugin.transform_hook Oxc.sample_env
                      OxcPlugin.sample_settings Oxc.sample_config "client"
                      "<a/>" "view.jsx" OxcPlugin.sample_closure))
    = before ++ [Oxc.Transform "view.jsx" "<a/>" directive]
    ∧ Forall (λ ev, Oxc.is_transform ev = false) before
    ∧ Oxc.errors result = []
    ∧ None = Oxc.map result
    ∧ "import React from 'react';<a/>"
      = (if Oxc.truthy_string (OxcPlugin.jsxInject OxcPlugin.sample_settings)
            && OxcPlugin.jsxExtensionsRE_test "view.jsx"
         then default "" (OxcPlugin.jsxInject OxcPlugin.sample_settings)
              +:+ ";" +:+ Oxc.code result
         else Oxc.code result).
Proof.
  apply (hook_returns_the_engines_code_and_map Oxc.sample_env
           OxcPlugin.sample_settings Oxc.sample_config "client" "<a/>"
           "view.jsx" OxcPlugin.sample_closure
           "import React from 'react';<a/>" None).
  vm_compute. reflexivity.
Defined.

(** X27.  The dialect that the hook sets for one module stays for all later
    ones: once a module that passes the JSX filter has been accepted while no
    dialect was set, that call and every later call of the hook give the
    engine the dialect ['jsx'], whatever the extension of the module. *)
Theorem jsx_dialect_sticks_after_the_first_jsx_module :
  ∀ (env : Oxc.Collaborators) (s : OxcPlugin.Settings)
    (config : Oxc.ResolvedConfig) (call : OxcPlugin.Call)
    (calls : list OxcPlugin.Call) (c : OxcPlugin.Closure),
    OxcPlugin.accepted s (OxcPlugin.id call) = true →
    OxcPlugin.jsxFilter s (OxcPlugin.id call)
    || OxcPlugin.jsxFilter s (JsString.cleanUrl (OxcPlugin.id call)) = true →
    Oxc.truthy_string (Oxc.lang (OxcPlugin.oxcTransformOptions c)) = false →
    let after := OxcPlugin.transform_calls env s config (call :: calls) c in
    Forall (λ directive, Oxc.lang directive = Some "jsx")
           (OxcPlugin.all_directives (fst after))
    ∧ Oxc.lang (OxcPlugin.oxcTransformOptions (snd after)) = Some "jsx".
Proof.
  intros env s config call calls c Hacc Hjsx Hunset after. unfold after.
  cbn [OxcPlugin.transform_calls].
  assert (Hp : Oxc.lang (OxcPlugin.passed_options s (OxcPlugin.consumer call)
                           (OxcPlugin.id call) c) = Some "jsx").
  { unfold OxcPlugin.passed_options, OxcPlugin.default_to_jsx. rewrite Hjsx.
    assert (Hd : Oxc.lang (OxcPlugin.disable_refresh_at_ssr
                             (OxcPlugin.consumer call)
                             (OxcPlugin.oxcTransformOptions c))
                 = Oxc.lang (OxcPlugin.oxcTransformOptions c)).
    { unfold OxcPlugin.disable_refresh_at_ssr.
      destruct (Oxc.jsx (OxcPlugin.oxcTransformOptions c)); [|done].
      by case_ifs. }
    rewrite Hd, Hunset. reflexivity. }
  assert (Hfirst :
    Forall (λ directive, Oxc.lang directive = Some "jsx")
      (OxcPlugin.directives
         (Oxc.trace (fst (OxcPlugin.transform_hook env s config
                            (OxcPlugin.consumer call) (OxcPlugin.source call)
                            (OxcPlugin.id call) c))))
    ∧ Oxc.lang (OxcPlugin.oxcTransformOptions
                  (snd (OxcPlugin.transform_hook env s config
                          (OxcPlugin.consumer call) (OxcPlugin.source call)
                          (OxcPlugin.id call) c))) = Some "jsx").
  { destruct (hook_accepted env s config (OxcPlugin.consumer call)
                (OxcPlugin.source call) (OxcPlugin.id call) c Hacc)
      as [(t & o & Hr & _ & Hd & _ & Hc) | (t & e & _ & _ & Hd & _ & Hc)];
      rewrite Hd, Hc;
      cbn [OxcPlugin.oxcTransformOptions OxcPlugin.seen_through_aliases Oxc.lang].
    - split; [|done]. constructor; [|constructor].
      rewrite (resolve_options_lang _ _ _ _ _ _ _ Hr).
      unfold Oxc.select_lang. cbn [mbind option_bind]. by rewrite Hp.
    - split; [constructor | done]. }
  destruct Hfirst as [Hd Hc].
  destruct (OxcPlugin.transform_hook env s config (OxcPlugin.consumer call)
              (OxcPlugin.source call) (OxcPlugin.id call) c) as [run c'].
  cbn [fst snd] in Hd, Hc.
  destruct (calls_keep_dialect env s config calls c' "jsx" Hc ltac:(discriminate))
    as [Hds Hcs].
  destruct (OxcPlugin.transform_calls env s config calls c') as [runs c''].
  cbn [fst snd] in *. split; [|done].
  unfold OxcPlugin.all_directives. cbn [List.map concat].
  apply Forall_app. by split.
Qed.

Lemma jsx_dialect_sticks_witness :
  Forall (λ directive, Oxc.lang directive = Some "jsx")
         (OxcPlugin.all_directives
            (fst (OxcPlugin.transform_calls Oxc.sample_env
                    OxcPlugin.sample_settings Oxc.sample_config
                    OxcPlugin.sample_calls OxcPlugin.sample_closure)))
  ∧ Oxc.lang (OxcPlugin.oxcTransformOptions
                (snd (OxcPlugin.transform_calls Oxc.sample_env
                        OxcPlugin.sample_settings Oxc.sample_config
                        OxcPlugin.sample_calls OxcPlugin.sample_closure)))
    = Some "jsx".
Proof.
  apply (jsx_dialect_sticks_after_the_first_jsx_module Oxc.sample_env
           OxcPlugin.sample_settings Oxc.sample_config
           (OxcPlugin.mkCall "client" "<a/>" "view.jsx")
           [OxcPlugin.mkCall "server" "let x" "util.ts"]
           OxcPlugin.sample_closure);
    vm_compute; reflexivity.
Defined.

(** X28.  A dialect that is set in the plugin's options is the dialect of
    every module: each call of the hook gives it to the engine, whatever the
    module's extension, and no call changes it. *)
Theorem configured_dialect_is_used_for_every_module :
  ∀ (env : Oxc.Collaborators) (s : OxcPlugin.Settings)
    (config : Oxc.ResolvedConfig) (calls : list OxcPlugin.Call)
    (c : OxcPlugin.Closure) (dialect : string),
    Oxc.lang (OxcPlugin.oxcTransformOptions c) = Some dialect →
    dialect ≠ "" →
    let after := OxcPlugin.transform_calls env s config calls c in
    Forall (λ directive, Oxc.lang directive = Some dialect)
           (OxcPlugin.all_directives (fst after))
    ∧ Oxc.lang (OxcPlugin.oxcTransformOptions (snd after)) = Some dialect.
Proof.
  intros env s config calls c dialect Hl Hne after.
  exact (calls_keep_dialect env s config calls c dialect Hl Hne).
Qed.

Lemma configured_dialect_witness :
  Forall (λ directive, Oxc.lang directive = Some "tsx")
         (OxcPlugin.all_directives
            (fst (OxcPlugin.transform_calls Oxc.sample_env
                    OxcPlugin.sample_settings Oxc.sample_config
                    OxcPlugin.sample_calls OxcPluginSamples.configured_closure)))
  ∧ Oxc.lang (OxcPlugin.oxcTransformOptions
                (snd (OxcPlugin.transform_calls Oxc.sample_env
                        OxcPlugin.sample_settings Oxc.sample_config
                        OxcPlugin.sample_calls
                        OxcPluginSamples.configured_closure)))
    = Some "tsx".
Proof.
  apply (configured_dialect_is_used_for_every_module Oxc.sample_env
           OxcPlugin.sample_settings Oxc.sample_config OxcPlugin.sample_calls
           OxcPluginSamples.configured_closure "tsx");
    [reflexivity | discriminate].
Defined.

(** X29.  Once the hook has accepted a module for the consumer ['server'],
    [jsx.refresh] is off for good: neither that call nor any later call of
    the hook, for whatever consumer, gives the engine a directive with
    [jsx.refresh] on. *)
Theorem refresh_stays_off_after_a_server_call :
  ∀ (env : Oxc.Collaborators) (s : OxcPlugin.Settings)
    (config : Oxc.ResolvedConfig) (call : OxcPlugin.Call)
    (calls : list OxcPlugin.Call) (c : OxcPlugin.Closure),
    OxcPlugin.consumer call = "server" →
    OxcPlugin.accepted s (OxcPlugin.id call) = true →
    let after := OxcPlugin.transform_calls env s config (call :: calls) c in
    Forall (λ directive, OxcPlugin.refresh_of directive ≠ Some true)
           (OxcPlugin.all_directives (fst after))
    ∧ OxcPlugin.refresh_of (OxcPlugin.oxcTransformOptions (snd after))
      ≠ Some true.
Proof.
  intros env s config call calls c Hserver Hacc after. unfold after.
  cbn [OxcPlugin.transform_calls].
  destruct (hook_refresh env s config (OxcPlugin.consumer call)
              (OxcPlugin.source call) (OxcPlugin.id call) c Hacc) as [Hd Hc].
  assert (Hp : OxcPlugin.refresh_of
                 (OxcPlugin.passed_options s (OxcPlugin.consumer call)
                    (OxcPlugin.id call) c) ≠ Some true).
  { unfold OxcPlugin.refresh_of. rewrite passed_options_jsx, Hserver.
    apply disable_refresh_at_server. }
  destruct (OxcPlugin.transform_hook env s config (OxcPlugin.consumer call)
              (OxcPlugin.source call) (OxcPlugin.id call) c) as [run c'].
  cbn [fst snd] in Hd, Hc.
  assert (Hc' : OxcPlugin.refresh_of (OxcPlugin.oxcTransformOptions c')
                ≠ Some true) by (by rewrite Hc).
  destruct (calls_keep_refresh_off env s config calls c' Hc') as [Hds Hcs].
  destruct (OxcPlugin.transform_calls env s config calls c') as [runs c''].
  cbn [fst snd] in *. split; [|done].
  unfold OxcPlugin.all_directives. cbn [List.map concat].
  apply Forall_app. split; [|done].
  eapply Forall_impl; [exact Hd|]. intros o Ho. by rewrite Ho.
Qed.

Lemma refresh_stays_off_witness :
  Forall (λ directive, OxcPlugin.refresh_of directive ≠ Some true)
         (OxcPlugin.all_directives
            (fst (OxcPlugin.transform_calls Oxc.sample_env
                    OxcPlugin.sample_settings Oxc.sample_config
                    OxcPluginSamples.server_first OxcPlugin.sample_closure)))
  ∧ OxcPlugin.refresh_of
      (OxcPlugin.oxcTransformOptions
         (snd (OxcPlugin.transform_calls Oxc.sample_env
                 OxcPlugin.sample_settings Oxc.sample_config
                 OxcPluginSamples.server_first OxcPlugin.sample_closure)))
    ≠ Some true.
Proof.
  apply (refresh_stays_off_after_a_server_call Oxc.sample_env
           OxcPlugin.sample_settings Oxc.sample_config
           (OxcPlugin.mkCall "server" "let x" "util.ts")
           [OxcPlugin.mkCall "client" "<a/>" "view.jsx"]
           OxcPlugin.sample_closure);
    reflexivity.
Defined.
